(** * Interview engine: scoring, aggregation and report generation

    A shallow embedding of the interview pipeline of the repository and
    the properties its specification states about it:
    - [Engine]: [generate_questions], [evaluate_answer] and
      [generate_final_report] of [interview_engine_new.py];
    - [LegacyEngine]: [generate_questions] of [interview_engine.py];
    - [Database], [UI]: [save_interview_answer] of [database_methods.py]
      over the tables of [database_update.py], and the skip button of
      [interview_ui.py];
    - [Query]: the retry loop of [execute_query] of [database.py];
    - [Store], [Schema]: the questions, the joined answers and the
      interviews of [database_methods.py], and [update_database_schema]
      of [database_update.py];
    - [Page]: the progress, the Submit Response button and the completion
      page of [interview_ui.py];
    - [Prompt], [LegacySession]: the completion percentage of the report
      prompt, and the question selection of [conduct_interview] of
      [interview_engine.py].

    Python values are modelled as they are at run time: an [int] is a [Z],
    a [float] is an IEEE-754 binary64 number ([spec_float] with precision
    53 and maximal exponent 1024, every operation rounding to nearest
    even), a [str] is a [string], a [dict] with string keys is a
    [gmap string _], and [try]/[except] is an explicit result type.  The
    external text-generation service is a function from the request to
    the outcome of the call, and every call is logged. *)

From Stdlib Require Import ZArith List String Ascii Bool Lia.
From Stdlib Require Import Floats.SpecFloat.
From stdpp Require Import base option gmap strings list.
From stdpp Require Import pretty.

#[local] Set Warnings "-clear-no-such-hyp".

Local Open Scope string_scope.
Local Open Scope list_scope.
Local Open Scope Z_scope.

(** ** Python floats: IEEE-754 binary64 *)

Module PyFloat.

Definition prec : Z := 53.
Definition emax : Z := 1024.

Abbreviation float := spec_float.

Definition fadd : float -> float -> float := SFadd prec emax.
Definition fmul : float -> float -> float := SFmul prec emax.
Definition fdiv : float -> float -> float := SFdiv prec emax.

(** [float(n)] for an [int] [n]: the nearest binary64 number.  Python
    raises [OverflowError] when [n] does not fit, which is when the
    rounding overflows to an infinity ([Py.float_of_int] keeps that case);
    [of_int] itself is used on list lengths, counters and literals. *)
Definition of_int (n : Z) : float := binary_normalize prec emax n 0 false.

(** The decimal literals of the source, as the doubles Python reads them:
    [0.4 = 0x3FD999999999999A], [0.3 = 0x3FD3333333333333],
    [0.2 = 0x3FC999999999999A], [0.15 = 0x3FC3333333333333]. *)
Definition f0_4 : float := S754_finite false 7205759403792794 (-54).
Definition f0_3 : float := S754_finite false 5404319552844595 (-54).
Definition f0_2 : float := S754_finite false 7205759403792794 (-55).
Definition f0_15 : float := S754_finite false 5404319552844595 (-55).

(** [int(x)]: truncation towards zero; [None] stands for the
    [ValueError]/[OverflowError] Python raises on NaN and infinities. *)
Definition trunc (x : float) : option Z :=
  match x with
  | S754_zero _ => Some 0
  | S754_finite s m e =>
      Some (cond_Zopp s (if 0 <=? e then Z.pos m * 2 ^ e
                         else Z.pos m / 2 ^ (- e)))
  | S754_infinity _ | S754_nan => None
  end.

(** Exact comparison of a float with an [int], as Python's mixed
    comparison does it: no rounding of the integer.  [None] when the float
    is NaN (every ordered comparison is then false). *)
Definition compare_int (x : float) (n : Z) : option comparison :=
  match x with
  | S754_nan => None
  | S754_infinity s => Some (if s then Lt else Gt)
  | S754_zero _ => Some (0 ?= n)
  | S754_finite s m e =>
      Some (if 0 <=? e then cond_Zopp s (Z.pos m * 2 ^ e) ?= n
            else cond_Zopp s (Z.pos m) ?= n * 2 ^ (- e))
  end.

Definition lt_int (x : float) (n : Z) : bool :=
  match compare_int x n with Some Lt => true | _ => false end.

Definition gt_int (x : float) (n : Z) : bool :=
  match compare_int x n with Some Gt => true | _ => false end.

(** [num / den] rounded to the nearest integer, ties to even
    ([0 <= num], [0 < den]). *)
Definition div_half_even (num den : Z) : Z :=
  let q := num / den in
  let r := num mod den in
  match 2 * r ?= den with
  | Lt => q
  | Gt => q + 1
  | Eq => if Z.even q then q else q + 1
  end.

(** The number of tenths nearest to [m * 2^e]. *)
Definition tenths (m : positive) (e : Z) : Z :=
  if 0 <=? e then 10 * Z.pos m * 2 ^ e
  else div_half_even (10 * Z.pos m) (2 ^ (- e)).

(** The double nearest to [k / 10], with sign [s]. *)
Definition of_tenths (s : bool) (k : Z) : float :=
  match k with
  | Z.pos p => fdiv (S754_finite s p 0) (S754_finite false 10 0)
  | _ => S754_zero s
  end.

(** [round(x, 1)] on a float: the exact value of [x] is rounded to one
    decimal (ties to even) and the decimal is read back as the nearest
    double; zeros, infinities and NaN are returned as they are. *)
Definition round1 (x : float) : float :=
  match x with
  | S754_finite s m e => of_tenths s (tenths m e)
  | _ => x
  end.

End PyFloat.

Import PyFloat.

(** ** Question Planner: the quota split of [generate_questions]

    Both engines compute the four counts with the same expressions
    ([interview_engine_new.py] lines 48-51, [interview_engine.py] lines
    52-55): [int(num_questions * 0.4)] and so on, in binary64. *)

Module Quota.

Record quotas := {
  technical_count : Z;
  scenario_count : Z;
  behavioral_count : Z;
  problem_solving_count : Z
}.

(** [int(num_questions * c)] *)
Definition int_share (num_questions : Z) (c : float) : option Z :=
  trunc (fmul (of_int num_questions) c).

Definition question_counts (num_questions : Z) : option quotas :=
  technical ← int_share num_questions f0_4;
  scenario ← int_share num_questions f0_3;
  behavioral ← int_share num_questions f0_2;
  Some {| technical_count := technical;
          scenario_count := scenario;
          behavioral_count := behavioral;
          problem_solving_count :=
            num_questions - technical - scenario - behavioral |}.

(** The split the specification writes, over the integers. *)
Definition spec_counts (n : Z) : quotas :=
  {| technical_count := 4 * n / 10;
     scenario_count := 3 * n / 10;
     behavioral_count := 2 * n / 10;
     problem_solving_count := n - 4 * n / 10 - 3 * n / 10 - 2 * n / 10 |}.

Definition quotas_eqb (a b : quotas) : bool :=
  (technical_count a =? technical_count b)
  && (scenario_count a =? scenario_count b)
  && (behavioral_count a =? behavioral_count b)
  && (problem_solving_count a =? problem_solving_count b).

Definition counts_match (n : Z) : bool :=
  match question_counts n with
  | Some q => quotas_eqb q (spec_counts n)
  | None => false
  end.

End Quota.

(** ** Python values, exceptions and numbers *)

Module Py.

(** The exceptions that matter to the handlers of the source.  Only
    subclasses of [Exception] are modelled (a [KeyboardInterrupt] is not
    an [Exception] and is outside every handler of the source).
    [JSONDecodeError] is a [ValueError]; [APIError] is the error class of
    the client library. *)
Inductive exn_class :=
| TypeError | ValueError | OverflowError | KeyError | AttributeError
| APIError | IntegrityError | OperationalError | OtherError.

Record exn := Exn { exn_kind : exn_class; exn_msg : string }.

(** [str(e)] *)
Definition str_exn (e : exn) : string := exn_msg e.

Inductive result (A : Type) :=
| Return (a : A)
| Raise (e : exn).
Arguments Return {A} a.
Arguments Raise {A} e.

(** What [json.loads] produces, and what the engine returns. *)
#[local] Set Warnings "-register-all".
Inductive value :=
| VNone
| VBool (b : bool)
| VInt (n : Z)
| VFloat (x : float)
| VStr (s : string)
| VList (l : list value)
| VDict (d : gmap string value).
#[local] Set Warnings "register-all".

(** Python numbers as the arithmetic of the source sees them. *)
Inductive num :=
| NInt (n : Z)
| NFloat (x : float).

(** The float an [int] becomes in mixed arithmetic, where the conversion
    cannot fail: on [0], list lengths, counters and literals.  Where an
    [int] of any size can arrive, [to_float_exn] below keeps the
    [OverflowError] of the conversion. *)
Definition to_float (a : num) : float :=
  match a with NInt n => of_int n | NFloat x => x end.

(** An [int] as the float operand of one exact operation: the mantissa is
    the integer itself, of any length, and nothing is rounded yet. *)
Definition exact_int (n : Z) : float :=
  match n with
  | Z0 => S754_zero false
  | Zpos p => S754_finite false p 0
  | Zneg p => S754_finite true p 0
  end.

(** [m / n] on two ints: the exact quotient rounded once to the nearest
    double (the operands are not converted first).  An infinity stands for
    a quotient beyond the doubles, on which Python raises
    ([truediv_len_exn]). *)
Definition int_truediv (m n : Z) : float := fdiv (exact_int m) (exact_int n).

Definition value_of_num (a : num) : value :=
  match a with NInt n => VInt n | NFloat x => VFloat x end.

(** [a + b]: integer addition on two ints, float addition otherwise.
    This is the value of the sum when Python raises nothing; [add_exn]
    keeps the [OverflowError] of an int that cannot be converted. *)
Definition add (a b : num) : num :=
  match a, b with
  | NInt m, NInt n => NInt (m + n)
  | _, _ => NFloat (fadd (to_float a) (to_float b))
  end.

(** [a * b] *)
Definition mul (a b : num) : num :=
  match a, b with
  | NInt m, NInt n => NInt (m * n)
  | _, _ => NFloat (fmul (to_float a) (to_float b))
  end.

(** [a / b], true division.  Every division of the source is guarded by
    a test that the divisor is positive, so [ZeroDivisionError] does not
    arise.  Two ints give the correctly rounded quotient; otherwise the
    int operand, if any, is converted and the floats are divided.  This is
    the value of the division when Python raises nothing;
    [truediv_len_exn] says when line 317 raises. *)
Definition truediv (a b : num) : num :=
  match a, b with
  | NInt m, NInt n => NFloat (int_truediv m n)
  | _, _ => NFloat (fdiv (to_float a) (to_float b))
  end.

(** [a < n] and [a > n] for an [int] literal [n]. *)
Definition num_lt (a : num) (n : Z) : bool :=
  match a with NInt m => m <? n | NFloat x => lt_int x n end.

Definition num_gt (a : num) (n : Z) : bool :=
  match a with NInt m => m >? n | NFloat x => gt_int x n end.

(** [min(10, a)]: the builtin keeps its first argument unless a later one
    is smaller; [max(0, a)] keeps [0] unless [a] is greater. *)
Definition min10 (a : num) : num := if num_lt a 10 then a else NInt 10.
Definition max0 (a : num) : num := if num_gt a 0 then a else NInt 0.

(** [round(a, 1)]: an [int] is returned as it is. *)
Definition round_1 (a : num) : num :=
  match a with NInt n => NInt n | NFloat x => NFloat (round1 x) end.

(** [sum(xs)]: starts from the [int] [0] and adds from the left. *)
Definition sum (xs : list num) : num := foldl add (NInt 0) xs.

(** [len(xs)] *)
Definition len {A} (xs : list A) : num := NInt (Z.of_nat (length xs)).

(** [s.lower()] on the ASCII letters; other bytes are kept.  No character
    outside ASCII lower-cases to a letter of the four category names. *)
Definition lower_ascii (c : ascii) : ascii :=
  let n := nat_of_ascii c in
  if ((65 <=? n) && (n <=? 90))%nat then ascii_of_nat (n + 32) else c.

Fixpoint lower (s : string) : string :=
  match s with
  | EmptyString => EmptyString
  | String c r => String (lower_ascii c) (lower r)
  end.

(** [float(n)] on an [int] *)
Definition float_of_int (n : Z) : result float :=
  match of_int n with
  | S754_infinity _ =>
      Raise (Exn OverflowError "int too large to convert to float")
  | x => Return x
  end.

(** Binding of results: the rest runs only when no exception was raised. *)
Definition bind {A B} (m : result A) (k : A -> result B) : result B :=
  match m with Return a => k a | Raise e => Raise e end.

(** The conversion of an operand of mixed arithmetic, with its
    [OverflowError]. *)
Definition to_float_exn (a : num) : result float :=
  match a with NInt n => float_of_int n | NFloat x => Return x end.

(** [a + b] on numbers of any size: two ints add exactly; with a float
    operand, an int too large for a double raises. *)
Definition add_exn (a b : num) : result num :=
  match a, b with
  | NInt m, NInt n => Return (NInt (m + n))
  | _, _ =>
      bind (to_float_exn a) (fun x =>
      bind (to_float_exn b) (fun y => Return (NFloat (fadd x y))))
  end.

(** [sum(xs)] on numbers of any size. *)
Definition sum_exn (xs : list num) : result num :=
  foldl (fun acc x => bind acc (fun total => add_exn total x))
        (Return (NInt 0)) xs.

(** [a / len(xs)] on a number of any size, for a list that is not empty:
    the quotient of two ints raises when it is beyond the doubles; beside
    a float the length is converted, which cannot fail on a number below
    [2^63]. *)
Definition truediv_len_exn {A} (a : num) (xs : list A) : result num :=
  match a, len xs with
  | NInt m, NInt n =>
      match int_truediv m n with
      | S754_infinity _ =>
          Raise (Exn OverflowError
                     "integer division result too large for a float")
      | x => Return (NFloat x)
      end
  | _, n => Return (NFloat (fdiv (to_float a) (to_float n)))
  end.

(** [d[k]] on a dict *)
Definition getitem (d : gmap string value) (k : string) : result value :=
  match d !! k with
  | Some v => Return v
  | None => Raise (Exn KeyError k)
  end.

(** [v[k] = x].  Item assignment with a string key needs a dict: a list
    wants integer indices and the other JSON values support no item
    assignment, all of which is a [TypeError]. *)
Definition setitem (v : value) (k : string) (x : value) : result value :=
  match v with
  | VDict d => Return (VDict (<[k := x]> d))
  | _ => Raise (Exn TypeError "object does not support item assignment")
  end.

(** ** Calls to the external service

    A computation that may call the external text-generation service and
    may raise: it threads the log of the requests sent so far.  [Q] is the
    type of requests. *)
Definition io (Q A : Type) : Type := list Q -> result A * list Q.

Definition io_ret {Q A} (a : A) : io Q A := fun log => (Return a, log).

Definition io_raise {Q A} (e : exn) : io Q A := fun log => (Raise e, log).

Definition io_bind {Q A B} (m : io Q A) (k : A -> io Q B) : io Q B :=
  fun log =>
    match m log with
    | (Return a, log') => k a log'
    | (Raise e, log') => (Raise e, log')
    end.

Definition io_lift {Q A} (r : result A) : io Q A := fun log => (r, log).

(** One call: the request is logged and the service decides the outcome,
    an exception (network error, API error, or [json.loads] failing on the
    content) or the parsed JSON value. *)
Definition call {Q} (service : Q -> result value) (q : Q) : io Q value :=
  fun log => (service q, log ++ [q]).

(** [try: body  except Exception as e: handler(e)] *)
Definition try_except {Q A} (body : io Q A) (handler : exn -> io Q A)
  : io Q A :=
  fun log =>
    match body log with
    | (Return a, log') => (Return a, log')
    | (Raise e, log') => handler e log'
    end.

(** Running a function of the engine from an empty log. *)
Definition run {Q A} (m : io Q A) : result A * list Q := m [].

End Py.

Import Py.

#[global] Instance result_ret : MRet result := @Return.
#[global] Instance result_bind : MBind result := fun A B k m => bind m k.
#[global] Instance io_mret {Q} : MRet (io Q) := @io_ret Q.
#[global] Instance io_mbind {Q} : MBind (io Q) :=
  fun A B k m => io_bind m k.

(** ** The engine of [interview_engine_new.py] *)

Module Engine.

Definition categories : list string :=
  ["technical"; "scenario"; "behavioral"; "problem_solving"].

(** The parsed response used as a dict.  On a value that is not a dict
    the code that follows [json.loads] always raises a [TypeError] inside
    the outer [try]: [in] is not defined on numbers, booleans and [None],
    and on a list or a string either the assignment [result[key] = ...]
    or the indexing [result[key]] (whose handler assigns again) fails. *)
Definition as_dict (v : value) : result (gmap string value) :=
  match v with
  | VDict d => Return d
  | _ => Raise (Exn TypeError "response is not a JSON object")
  end.

(** [len(v)] *)
Definition py_len (v : value) : result Z :=
  match v with
  | VList l => Return (Z.of_nat (length l))
  | VStr s => Return (Z.of_nat (String.length s))
  | VDict d => Return (Z.of_nat (size d))
  | _ => Raise (Exn TypeError "object has no len()")
  end.

(** *** [generate_questions] *)

Record questions_request := {
  gq_job_title : string;
  gq_job_description : string;
  gq_resume_text : string;
  gq_counts : Quota.quotas
}.

(** Lines 48-51.  The products are finite unless [num_questions] itself
    is beyond the doubles, and then its conversion in
    [num_questions * 0.4] is the [OverflowError]. *)
Definition counts_or_raise (num_questions : Z) : result Quota.quotas :=
  match Quota.question_counts num_questions with
  | Some q => Return q
  | None => Raise (Exn OverflowError "int too large to convert to float")
  end.

(** Lines 115-118: every expected category is present afterwards. *)
Definition ensure_categories (result : gmap string value)
  : gmap string value :=
  foldl (fun result category =>
           match result !! category with
           | Some _ => result
           | None => <[category := VList []]> result
           end)
        result categories.

(** Line 121: [sum(len(result[cat]) for cat in categories)] *)
Fixpoint total_generated (result : gmap string value) (cats : list string)
  : Py.result Z :=
  match cats with
  | [] => Return 0
  | cat :: rest =>
      v ← getitem result cat;
      n ← py_len v;
      m ← total_generated result rest;
      Return (n + m)
  end.

(** Lines 129-134 *)
Definition empty_questions : gmap string value :=
  list_to_map [("technical", VList []); ("scenario", VList []);
               ("behavioral", VList []); ("problem_solving", VList [])].

Definition questions_request_of
    (job_title job_description resume_text : string)
    (counts : Quota.quotas) : questions_request :=
  {| gq_job_title := job_title;
     gq_job_description := job_description;
     gq_resume_text := resume_text;
     gq_counts := counts |}.

Definition generate_questions (service : questions_request -> result value)
    (job_title job_description resume_text : string) (num_questions : Z)
  : io questions_request (gmap string value) :=
  try_except
    (counts ← io_lift (counts_or_raise num_questions);
     parsed ← call service (questions_request_of job_title job_description
                                                 resume_text counts);
     result ← io_lift (as_dict parsed);
     let result := ensure_categories result in
     _ ← io_lift (total_generated result categories);
     mret result)
    (fun e => mret empty_questions).

(** *** [evaluate_answer] *)

Record evaluation_request := {
  ea_question : string;
  ea_question_type : string;
  ea_answer : string;
  ea_job_title : string;
  ea_job_description : string
}.

Definition evaluation_request_of
    (question question_type answer job_title job_description : string)
  : evaluation_request :=
  {| ea_question := question;
     ea_question_type := question_type;
     ea_answer := answer;
     ea_job_title := job_title;
     ea_job_description := job_description |}.

Definition required_fields : list string :=
  ["score"; "technical_accuracy"; "clarity_of_communication";
   "relevance"; "demonstrated_expertise"; "strengths"; "weaknesses";
   "feedback"].

Definition score_fields : list string :=
  ["score"; "technical_accuracy"; "clarity_of_communication";
   "relevance"; "demonstrated_expertise"].

(** [5.0] *)
Definition f5 : float := S754_finite false 5629499534213120 (-50).

(** Lines 217-222 *)
Definition default_field (field : string) : value :=
  if bool_decide (field ∈ ["strengths"; "weaknesses"]) then VList []
  else if bool_decide (field = "feedback")
       then VStr "No detailed feedback provided."
       else VInt 5.

(** Lines 215-222 *)
Definition fill_required (result : gmap string value) : gmap string value :=
  foldl (fun result field =>
           match result !! field with
           | Some _ => result
           | None => <[field := default_field field]> result
           end)
        result required_fields.

(** Lines 240-249 *)
Definition fallback_evaluation (e : exn) : gmap string value :=
  list_to_map
    [("score", VFloat f5); ("technical_accuracy", VFloat f5);
     ("clarity_of_communication", VFloat f5); ("relevance", VFloat f5);
     ("demonstrated_expertise", VFloat f5);
     ("strengths", VList [VStr "Unable to properly evaluate response"]);
     ("weaknesses", VList [VStr "System could not analyze this response"]);
     ("feedback", VStr ("Error during evaluation: " +:+ str_exn e))].

Section EvaluateAnswer.

(** [float(s)] on a string is the parser of the Python runtime; it is a
    parameter: [None] is the [ValueError] of a text that is no number. *)
Variable float_of_str : string -> option float.

(** [float(v)] *)
Definition py_float (v : value) : result float :=
  match v with
  | VFloat x => Return x
  | VInt n => float_of_int n
  | VBool b => Return (of_int (if b then 1 else 0))
  | VStr s =>
      match float_of_str s with
      | Some x => Return x
      | None => Raise (Exn ValueError "could not convert string to float")
      end
  | VNone | VList _ | VDict _ =>
      Raise (Exn TypeError
               "float() argument must be a string or a real number")
  end.

(** Lines 229-230: clamp, then round to one decimal. *)
Definition clamp_round (x : float) : value :=
  value_of_num (round_1 (max0 (min10 (NFloat x)))).

Definition caught_by_inner (e : exn) : bool :=
  match exn_kind e with
  | ValueError | TypeError => true
  | _ => false
  end.

(** Lines 227-232, the inner [try] on the value of one score field. *)
Definition normalise_value (v : value) : result value :=
  match py_float v with
  | Return x => Return (clamp_round x)
  | Raise e => if caught_by_inner e then Return (VFloat f5) else Raise e
  end.

(** Lines 227-232: the field is read, normalised and written back. *)
Definition normalise_score (result : gmap string value) (score_field : string)
  : Py.result (gmap string value) :=
  v ← getitem result score_field;
  x ← normalise_value v;
  Return (<[score_field := x]> result).

(** Lines 225-232 *)
Fixpoint normalise_scores (result : gmap string value) (fields : list string)
  : Py.result (gmap string value) :=
  match fields with
  | [] => Return result
  | score_field :: rest =>
      result' ← normalise_score result score_field;
      normalise_scores result' rest
  end.

(** Lines 210-235, what follows [json.loads]. *)
Definition validate (parsed : value) : result (gmap string value) :=
  result ← as_dict parsed;
  normalise_scores (fill_required result) score_fields.

Definition evaluate_answer (service : evaluation_request -> result value)
    (question question_type answer job_title job_description : string)
  : io evaluation_request (gmap string value) :=
  try_except
    (parsed ← call service
                (evaluation_request_of question question_type answer
                                       job_title job_description);
     io_lift (validate parsed))
    (fun e => mret (fallback_evaluation e)).

End EvaluateAnswer.

(** *** [generate_final_report] *)

(** One entry of [interview_results], as [get_interview_answers] and the
    completion page build it: a field that [dict.get] reads with a
    default is an option, [None] being the absent key.  An answer is a
    dict that is not empty (an empty one is no answer to line 288), a
    type is a string and a score is a number.  The engine never reads
    [ans_skipped]. *)
Record evaluation := {
  ev_score : option num;
  ev_strengths : option value;
  ev_weaknesses : option value
}.

Record answer := {
  ans_text : option string;
  ans_evaluation : option evaluation;
  ans_skipped : bool
}.

Record item := {
  it_question : option string;
  it_type : option string;
  it_answer : option answer
}.

Record report_request := {
  rr_job_title : string;
  rr_job_description : string;
  rr_resume_text : string;
  rr_answered_questions : Z;
  rr_total_questions : Z;
  rr_formatted_data : value
}.

(** Lines 270-272 *)
Definition total_questions (interview_results : list item) : Z :=
  Z.of_nat (length interview_results).

Definition answered_questions (interview_results : list item) : Z :=
  Z.of_nat (length (filter (fun q => is_Some (it_answer q))
                           interview_results)).

Definition completion_rate (interview_results : list item) : num :=
  if total_questions interview_results >? 0
  then truediv (NInt (answered_questions interview_results))
               (NInt (total_questions interview_results))
  else NInt 0.

(** Lines 276-281 *)
Definition initial_scores_by_type : gmap string (list num) :=
  list_to_map [("technical", []); ("scenario", []);
               ("behavioral", []); ("problem_solving", [])].

(** Line 285: [item.get('type', '').lower()] *)
Definition item_type (it : item) : string :=
  lower (default "" (it_type it)).

(** Lines 296-297: [answer_data.get('evaluation', {}).get('score', 0)] *)
Definition answer_score (a : answer) : num :=
  default (NInt 0) (ans_evaluation a ≫= ev_score).

(** Lines 283-301, the part of the loop that tracks the scores: every
    item that has an answer adds its score to the list of its type. *)
Definition track_score (scores_by_type : gmap string (list num)) (it : item)
  : gmap string (list num) :=
  match it_answer it with
  | None => scores_by_type
  | Some answer_data =>
      match scores_by_type !! item_type it with
      | Some scores =>
          <[item_type it := scores ++ [answer_score answer_data]]>
            scores_by_type
      | None => scores_by_type
      end
  end.

Definition scores_by_type (interview_results : list item)
  : gmap string (list num) :=
  foldl track_score initial_scores_by_type interview_results.

(** Lines 289-293 and 303-311: what the prompt shows for one item. *)
Definition formatted_result (it : item) : value :=
  let question := VStr (default "" (it_question it)) in
  let q_type := VStr (item_type it) in
  match it_answer it with
  | None =>
      VDict (list_to_map [("question", question); ("type", q_type);
                          ("answered", VBool false)])
  | Some answer_data =>
      let ev := ans_evaluation answer_data in
      VDict (list_to_map
               [("question", question); ("type", q_type);
                ("answered", VBool true);
                ("answer", VStr (default "" (ans_text answer_data)));
                ("score", value_of_num (answer_score answer_data));
                ("strengths", default (VList []) (ev ≫= ev_strengths));
                ("weaknesses", default (VList []) (ev ≫= ev_weaknesses))])
  end.

(** Lines 316-319: the mean that line 317 leaves when it raises nothing
    ([average_exn] says when it raises), and the [0] of line 319. *)
Definition average (scores : list num) : num :=
  match scores with
  | [] => NInt 0
  | _ :: _ => truediv (sum scores) (len scores)
  end.

(** Lines 314-319 *)
Definition avg_scores (scores_by_type : gmap string (list num))
  : gmap string num :=
  average <$> scores_by_type.

(** Line 317 with its exceptions.  A score is whatever number the
    evaluation holds; an int beyond the range of the doubles makes
    [sum(scores)] or the division raise [OverflowError]. *)
Definition average_exn (scores : list num) : result num :=
  match scores with
  | [] => Return (NInt 0)
  | _ :: _ => bind (sum_exn scores) (fun total => truediv_len_exn total scores)
  end.

(** Lines 314-319 as they run: the types are visited in the order of the
    literal of lines 276-281 and the first mean that raises ends the loop.
    When none raises, the dict is [avg_scores] on the four types. *)
Definition avg_scores_step (scores_by_type : gmap string (list num))
    (acc : result (gmap string num)) (q_type : string)
  : result (gmap string num) :=
  bind acc (fun avg_scores =>
  match scores_by_type !! q_type with
  | Some scores =>
      bind (average_exn scores) (fun avg =>
      Return (<[q_type := avg]> avg_scores))
  | None => Return avg_scores
  end).

Definition avg_scores_exn (scores_by_type : gmap string (list num))
  : result (gmap string num) :=
  foldl (avg_scores_step scores_by_type) (Return ∅) categories.

(** Lines 322-327 *)
Definition weights : gmap string num :=
  list_to_map [("technical", NFloat f0_4); ("scenario", NFloat f0_3);
               ("behavioral", NFloat f0_15);
               ("problem_solving", NFloat f0_15)].

(** Lines 329-336.  [avg_scores.items()] goes through the keys in the
    order of insertion, which is the order of the literal of lines
    276-281: no key is ever added to [scores_by_type]. *)
Definition weighted_step (scores_by_type : gmap string (list num))
    (avg_scores : gmap string num) (acc : num * num) (q_type : string)
  : num * num :=
  let '(overall_score, total_weight) := acc in
  match avg_scores !! q_type, scores_by_type !! q_type with
  | Some score, Some (_ :: _) =>
      let weight := default (NInt 0) (weights !! q_type) in
      (add overall_score (mul score weight), add total_weight weight)
  | _, _ => (overall_score, total_weight)
  end.

Definition weighted_totals (scores_by_type : gmap string (list num))
  : num * num :=
  foldl (weighted_step scores_by_type (avg_scores scores_by_type))
        (NInt 0, NInt 0) categories.

(** Lines 338-341 *)
Definition overall_score (scores_by_type : gmap string (list num)) : num :=
  let '(overall_score, total_weight) := weighted_totals scores_by_type in
  if num_gt total_weight 0 then truediv overall_score total_weight
  else NInt 0.

(** Lines 348-354 *)
Definition rounded_avg (scores_by_type : gmap string (list num))
    (q_type : string) : value :=
  value_of_num
    (round_1 (default (NInt 0) (avg_scores scores_by_type !! q_type))).

Definition scores (scores_by_type : gmap string (list num)) : value :=
  VDict (list_to_map
           [("overall", value_of_num (round_1 (overall_score scores_by_type)));
            ("technical", rounded_avg scores_by_type "technical");
            ("scenario", rounded_avg scores_by_type "scenario");
            ("behavioral", rounded_avg scores_by_type "behavioral");
            ("problem_solving",
             rounded_avg scores_by_type "problem_solving")]).

(** Lines 344-355 *)
Definition formatted_data (job_title : string) (interview_results : list item)
  : value :=
  VDict (list_to_map
           [("job_title", VStr job_title);
            ("completion_rate",
             value_of_num (completion_rate interview_results));
            ("question_results",
             VList (map formatted_result interview_results));
            ("scores", scores (scores_by_type interview_results))]).

(** The request of lines 358-431.  The prompt also shows
    [int(completion_rate * 100)], which is defined since the rate is [0]
    or a quotient of two list lengths. *)
Definition report_request_of (job_title job_description resume_text : string)
    (interview_results : list item) : report_request :=
  {| rr_job_title := job_title;
     rr_job_description := job_description;
     rr_resume_text := resume_text;
     rr_answered_questions := answered_questions interview_results;
     rr_total_questions := total_questions interview_results;
     rr_formatted_data := formatted_data job_title interview_results |}.

Definition assessment_text (text : string) : value :=
  VDict (list_to_map [("assessment", VStr text)]).

(** Lines 446-456: the handler sets these before it builds the report. *)
Definition handler_completion_rate : num := NInt 0.

Definition handler_scores : value :=
  VDict (list_to_map
           [("overall", VInt 0); ("technical", VInt 0); ("scenario", VInt 0);
            ("behavioral", VInt 0); ("problem_solving", VInt 0)]).

(** Lines 470-493; [completion_percentage] is [int(0 * 100)]. *)
Definition fallback_report (e : exn) : gmap string value :=
  list_to_map
    [("overall_assessment",
      VStr "Could not generate a comprehensive assessment due to an error.");
     ("technical_skills",
      VDict (list_to_map
               [("assessment",
                 VStr "Technical skills assessment could not be completed.");
                ("strengths", VList []); ("weaknesses", VList [])]));
     ("communication_skills",
      assessment_text
        "Communication skills assessment could not be completed.");
     ("problem_solving",
      assessment_text "Problem solving assessment could not be completed.");
     ("key_strengths", VList [VStr "Unable to determine key strengths"]);
     ("areas_for_improvement",
      VList [VStr "Unable to determine areas for improvement"]);
     ("key_observations",
      VList [VStr "System encountered an error during final assessment"]);
     ("interview_completion",
      assessment_text
        "The candidate completed 0% of the interview questions.");
     ("recommendation", VStr "Unable to determine");
     ("reasoning",
      VStr ("An error occurred during the final assessment: "
            +:+ str_exn e));
     ("scores", handler_scores);
     ("completion_rate", value_of_num handler_completion_rate)].

(** Lines 269-493.  Of the statements before the call of line 422 only
    line 317 can raise, and it does before any request is sent: the handler
    then builds its report without a call.  When it does not raise, the
    means are those of [avg_scores], which the request and the scores of
    line 439 are made of. *)
Definition generate_final_report (service : report_request -> result value)
    (job_title job_description resume_text : string)
    (interview_results : list item)
  : io report_request value :=
  try_except
    (_ ← io_lift (avg_scores_exn (scores_by_type interview_results));
     assessment ← call service
                    (report_request_of job_title job_description resume_text
                                       interview_results);
     assessment ← io_lift
       (setitem assessment "scores"
                (scores (scores_by_type interview_results)));
     assessment ← io_lift
       (setitem assessment "completion_rate"
                (value_of_num (completion_rate interview_results)));
     mret assessment)
    (fun e => mret (VDict (fallback_report e))).

End Engine.

(** ** The engine of [interview_engine.py] (SAP-specific, older) *)

Module LegacyEngine.

Record questions_request := {
  gq_sap_module : string;
  gq_job_description : string;
  gq_resume_text : string;
  gq_counts : Quota.quotas
}.

Definition questions_request_of
    (sap_module job_description resume_text : string)
    (counts : Quota.quotas) : questions_request :=
  {| gq_sap_module := sap_module;
     gq_job_description := job_description;
     gq_resume_text := resume_text;
     gq_counts := counts |}.

(** Lines 48-159: the parsed response is returned as it is, and both
    handlers log the error and raise it again. *)
Definition generate_questions (service : questions_request -> result value)
    (sap_module job_description resume_text : string) (num_questions : Z)
  : io questions_request value :=
  try_except
    (counts ← io_lift (Engine.counts_or_raise num_questions);
     result ← call service (questions_request_of sap_module job_description
                                                 resume_text counts);
     mret result)
    (fun e =>
       match exn_kind e with
       | APIError => io_raise e
       | _ => io_raise e
       end).

End LegacyEngine.

(** ** Persistence of answers ([database_methods.py], [database_update.py]) *)

Module Database.

(** A row of [interview_questions_new]. *)
Record question_row := {
  q_id : Z;
  q_interview_id : Z;
  q_question_text : string;
  q_question_type : string;
  q_display_order : Z
}.

(** A row of [interview_answers].  The columns hold the parameters of the
    INSERT as Python passes them; the coercions of the column types are
    the database's.  [is_skipped] is named by the INSERT and the SELECT of
    [database_methods.py] although the CREATE TABLE of
    [database_update.py] does not declare it; the rows carry it, as both
    statements need it. *)
Record answer_row := {
  a_id : Z;
  a_question_id : Z;
  a_answer_text : string;
  a_score : value;
  a_technical_accuracy : value;
  a_clarity_of_communication : value;
  a_relevance : value;
  a_demonstrated_expertise : value;
  a_strengths : value;
  a_weaknesses : value;
  a_feedback : value;
  a_response_time : Z;
  a_is_skipped : bool
}.

Record db := {
  interview_questions_new : list question_row;
  interview_answers : list answer_row;
  (** the last value of the sequence behind [id SERIAL] *)
  interview_answers_id_seq : Z
}.

(** [answer_data] of [save_interview_answer]: absent keys are [None]. *)
Record answer_data := {
  ad_answer_text : option string;
  ad_evaluation : option (gmap string value);
  ad_response_time : option Z;
  ad_skipped : option bool
}.

Definition question_exists (st : db) (question_id : Z) : bool :=
  existsb (fun q => q_id q =? question_id) (interview_questions_new st).

(** [execute_query] on the INSERT of lines 152-168.  The constraints are
    those of the CREATE TABLE: [id] is the primary key drawn from the
    sequence and [question_id] references [interview_questions_new(id)];
    no constraint mentions the rows already stored for the question.
    [fault] is a failure of the connection, raised after the retries. *)
Definition execute_insert (fault : option exn) (st : db)
    (mk_row : Z -> answer_row) (question_id : Z) : result (Z * db) :=
  match fault with
  | Some e => Raise e
  | None =>
      if question_exists st question_id then
        let id := interview_answers_id_seq st + 1 in
        Return (id,
                {| interview_questions_new := interview_questions_new st;
                   interview_answers := interview_answers st ++ [mk_row id];
                   interview_answers_id_seq := id |})
      else
        Raise (Exn IntegrityError
                 "insert or update on table violates foreign key constraint")
  end.

(** Lines 137-202.  The function returns the new id, or [None] after it
    logged an exception; the database is returned with it. *)
Definition save_interview_answer (fault : option exn) (st : db)
    (question_id : Z) (answer_data : answer_data) : option Z * db :=
  let evaluation := default ∅ (ad_evaluation answer_data) in
  let is_skipped := default false (ad_skipped answer_data) in
  let field k d := default d (evaluation !! k) in
  let mk_row id :=
    {| a_id := id;
       a_question_id := question_id;
       a_answer_text := default "" (ad_answer_text answer_data);
       a_score := field "score" (VInt 0);
       a_technical_accuracy := field "technical_accuracy" (VInt 0);
       a_clarity_of_communication :=
         field "clarity_of_communication" (VInt 0);
       a_relevance := field "relevance" (VInt 0);
       a_demonstrated_expertise := field "demonstrated_expertise" (VInt 0);
       a_strengths := field "strengths" (VList []);
       a_weaknesses := field "weaknesses" (VList []);
       a_feedback := field "feedback" (VStr "");
       a_response_time := default 0 (ad_response_time answer_data);
       a_is_skipped := is_skipped |} in
  match execute_insert fault st mk_row question_id with
  | Return (answer_id, st') => (Some answer_id, st')
  | Raise e => (None, st)
  end.

(** The answers stored for a question. *)
Definition answers_of (st : db) (question_id : Z) : list answer_row :=
  filter (fun a => a_question_id a = question_id) (interview_answers st).

End Database.

(** ** The skip button of [interview_ui.py] *)

Module UI.

(** Lines 601-612 *)
Definition skip_answer_data : Database.answer_data :=
  {| Database.ad_answer_text := Some "[Question skipped by interviewer]";
     Database.ad_evaluation :=
       Some (list_to_map
               [("score", VInt 0);
                ("feedback", VStr "This question was skipped.");
                ("improvement_suggestions", VStr "");
                ("strengths", VStr "");
                ("weaknesses", VStr "Question was not attempted.")]);
     Database.ad_response_time := Some 0;
     Database.ad_skipped := Some true |}.

(** Lines 614-617 *)
Definition skip_question (fault : option exn) (st : Database.db)
    (question_id : Z) : option Z * Database.db :=
  Database.save_interview_answer fault st question_id skip_answer_data.

End UI.

(** ** The wording of the specification *)

Module Spec.

Import Engine.

(** Glossary: a scored answer is an answer that is not skipped and has an
    evaluation. *)
Definition is_scored (it : item) : bool :=
  match it_answer it with
  | Some a => negb (ans_skipped a) && bool_decide (is_Some (ans_evaluation a))
  | None => false
  end.


(** Section 4.4, step 2: the scores of the scored answers of a category,
    and their mean, [0] when there is none. *)
Definition scored_scores (interview_results : list item) (c : string)
  : list num :=
  omap (fun it =>
          if is_scored it && bool_decide (item_type it = c)
          then answer_score <$> it_answer it else None)
       interview_results.

Definition category_score (interview_results : list item) (c : string)
  : num :=
  average (scored_scores interview_results c).

(** Section 4.4, step 3: the weights. *)
Definition weight (c : string) : float :=
  if bool_decide (c = "technical") then f0_4
  else if bool_decide (c = "scenario") then f0_3
  else if bool_decide (c = "behavioral") then f0_15
  else if bool_decide (c = "problem_solving") then f0_15
  else of_int 0.

(** Section 4.4, step 3: a category enters the overall score when it has
    at least one scored answer. *)
Definition has_scored_answer (interview_results : list item) (c : string)
  : bool :=
  match scored_scores interview_results c with
  | [] => false
  | _ :: _ => true
  end.

(** Section 4.4, step 3: the sum of [weight[c] * category_score[c]] over
    the sum of [weight[c]], both over the categories that have a scored
    answer, and [0] when none has. *)
Definition weighted_overall (interview_results : list item) : num :=
  match filter (fun c => has_scored_answer interview_results c) categories
  with
  | [] => NInt 0
  | scored =>
      truediv
        (sum (map (fun c => mul (NFloat (weight c))
                                (category_score interview_results c))
                  scored))
        (sum (map (fun c => NFloat (weight c)) scored))
  end.

(** Section 3, Evaluation: a numeric field lies in [[0,10]] and has one
    decimal.  The comparisons are exact; a float with one decimal is the
    double nearest to some number of tenths.  The bounds themselves come
    back from [max] and [min] as the integers [0] and [10]. *)
Definition float_in_0_10 (x : float) : bool :=
  match compare_int x 0, compare_int x 10 with
  | Some (Eq | Gt), Some (Eq | Lt) => true
  | _, _ => false
  end.

Definition one_decimal (x : float) : Prop :=
  exists s k, x = of_tenths s k.

Definition valid_score (v : value) : Prop :=
  match v with
  | VFloat x => float_in_0_10 x = true /\ one_decimal x
  | VInt n => n = 0 \/ n = 10
  | _ => False
  end.

(** A field of the reply that is absent, or that [float] refuses. *)
Definition not_numeric (float_of_str : string -> option float)
    (field : option value) : Prop :=
  match field with
  | None => True
  | Some v => exists e, py_float float_of_str v = Raise e
  end.

(** Section 4.1: the call for questions failed when it raised (network
    or API error, unparsable content) or when the parsed response is not
    an object. *)
Definition call_failed (reply : result value) : Prop :=
  match reply with
  | Raise _ => True
  | Return (VDict _) => False
  | Return _ => True
  end.

(** An integer field whose conversion to a float overflows. *)
Definition overflows (field : option value) : Prop :=
  exists n e, field = Some (VInt n) /\ float_of_int n = Raise e.

End Spec.

(** ** Sample sessions and replies *)

Module Samples.

Import Engine.

(** [8.0] and [0.0] *)
Definition f8 : float := of_int 8.
Definition f0 : float := S754_zero false.

(** A question answered and graded with [score]. *)
Definition scored_item (q_type : string) (score : float) : item :=
  {| it_question := Some "Describe a design you are proud of.";
     it_type := Some q_type;
     it_answer :=
       Some {| ans_text := Some "I split the service in two.";
               ans_evaluation :=
                 Some {| ev_score := Some (NFloat score);
                         ev_strengths := Some (VList [VStr "Concrete"]);
                         ev_weaknesses := Some (VList [VStr "Brief"]) |};
               ans_skipped := false |} |}.

(** A skipped question as [get_interview_answers] returns it after the
    skip button stored [UI.skip_answer_data]: the text of the skip, the
    score [0] of the FLOAT column, no strengths and weaknesses, and the
    flag. *)
Definition skipped_item (q_type : string) : item :=
  {| it_question := Some "Describe a design you are proud of.";
     it_type := Some q_type;
     it_answer :=
       Some {| ans_text := Some "[Question skipped by interviewer]";
               ans_evaluation :=
                 Some {| ev_score := Some (NFloat f0);
                         ev_strengths := Some (VList []);
                         ev_weaknesses := Some (VList []) |};
               ans_skipped := true |} |}.

(** A question without an answer. *)
Definition unanswered_item (q_type : string) : item :=
  {| it_question := Some "Describe a design you are proud of.";
     it_type := Some q_type;
     it_answer := None |}.

(** Thirteen questions of twenty answered: a completion rate of 0.65. *)
Definition interview_13_of_20 : list item :=
  replicate 13 (scored_item "technical" f8)
  ++ replicate 7 (unanswered_item "technical").


(** One scored answer, and the same session with a skipped question. *)
Definition interview_one_scored : list item := [scored_item "technical" f8].

Definition interview_with_skip : list item :=
  [scored_item "technical" f8; skipped_item "technical"].

(** One scored technical answer and a skipped scenario question. *)
Definition interview_skipped_scenario : list item :=
  [scored_item "technical" f8; skipped_item "scenario"].

(** A technical answer whose evaluation holds an integer score of 400
    digits, which no double can hold. *)
Definition huge_score_item : item :=
  {| it_question := Some "Describe a design you are proud of.";
     it_type := Some "technical";
     it_answer :=
       Some {| ans_text := Some "I split the service in two.";
               ans_evaluation :=
                 Some {| ev_score := Some (NInt (10 ^ 400));
                         ev_strengths := Some (VList []);
                         ev_weaknesses := Some (VList []) |};
               ans_skipped := false |} |}.

Definition interview_huge_score : list item :=
  [scored_item "technical" f8; huge_score_item].

(** A narrative service that proposes to hire. *)
Definition reply_hire : gmap string value :=
  list_to_map [("recommendation", VStr "Hire");
               ("reasoning", VStr "Strong answers throughout.")].

Definition service_hire : report_request -> result value :=
  fun _ => Return (VDict reply_hire).

(** A service that cannot be reached. *)
Definition connection_error : exn := Exn APIError "Connection error.".

Definition service_down {Q : Type} : Q -> result value :=
  fun _ => Raise connection_error.

(** Replies of the grading service: a score of 15, and an integer score
    of 400 digits; neither names strengths, weaknesses or feedback. *)
Definition reply_score_15 : gmap string value :=
  list_to_map [("score", VInt 15)].

Definition reply_huge_score : gmap string value :=
  list_to_map [("score", VInt (10 ^ 400))].

Definition grader_score_15 : evaluation_request -> result value :=
  fun _ => Return (VDict reply_score_15).

Definition grader_huge_score : evaluation_request -> result value :=
  fun _ => Return (VDict reply_huge_score).

(** The replies above hold no string, so any parser of numeric strings
    serves; this one accepts none. *)
Definition no_numeric_string : string -> option float := fun _ => None.

(** A database with one question, already answered. *)
Definition stored_answer : Database.answer_row :=
  {| Database.a_id := 1;
     Database.a_question_id := 7;
     Database.a_answer_text := "I split the service in two.";
     Database.a_score := VFloat f8;
     Database.a_technical_accuracy := VFloat f8;
     Database.a_clarity_of_communication := VFloat f8;
     Database.a_relevance := VFloat f8;
     Database.a_demonstrated_expertise := VFloat f8;
     Database.a_strengths := VList [];
     Database.a_weaknesses := VList [];
     Database.a_feedback := VStr "Good.";
     Database.a_response_time := 42;
     Database.a_is_skipped := false |}.

Definition db_answered : Database.db :=
  {| Database.interview_questions_new :=
       [{| Database.q_id := 7;
           Database.q_interview_id := 1;
           Database.q_question_text := "Describe a design you are proud of.";
           Database.q_question_type := "technical";
           Database.q_display_order := 1 |}];
     Database.interview_answers := [stored_answer];
     Database.interview_answers_id_seq := 1 |}.

Definition second_answer : Database.answer_data :=
  {| Database.ad_answer_text := Some "On reflection, in three.";
     Database.ad_evaluation := Some (list_to_map [("score", VFloat f8)]);
     Database.ad_response_time := Some 30;
     Database.ad_skipped := None |}.

End Samples.

(** ** Decidable checks used by the properties below *)

Module Check.

Import Engine.

(** Structural equality of two binary64 numbers. *)
Definition float_same (x y : float) : bool :=
  match x, y with
  | S754_zero s, S754_zero t => Bool.eqb s t
  | S754_infinity s, S754_infinity t => Bool.eqb s t
  | S754_nan, S754_nan => true
  | S754_finite s m e, S754_finite t n f =>
      Bool.eqb s t && (m =? n)%positive && (e =? f)
  | _, _ => false
  end.

(** The score [k / 10] comes back from lines 229-230 as it went in. *)
Definition tenth_is_kept (k : Z) : bool :=
  match clamp_round (of_tenths false k) with
  | VFloat y => float_same y (of_tenths false k)
  | _ => false
  end.

(** The scores of the answered items of a category, in their order: an
    answer without an evaluation or without a score counts 0. *)
Definition answered_scores (interview_results : list item) (c : string)
  : list num :=
  omap (fun it =>
          if bool_decide (item_type it = c)
          then answer_score <$> it_answer it else None)
       interview_results.

(** A value on which [len] is defined. *)
Definition has_len (v : value) : Prop := exists n, py_len v = Return n.

(** The guard of line 333 on the scores grouped by type: the list that
    the function tracked for the type is not empty. *)
Definition tracked (scores_by_type : gmap string (list num)) (c : string)
  : bool :=
  match scores_by_type !! c with
  | Some (_ :: _) => true
  | _ => false
  end.

Definition tracked_mean (scores_by_type : gmap string (list num))
    (c : string) : num :=
  average (default [] (scores_by_type !! c)).

(** The weighted mean over the types that pass the guard. *)
Definition weighted_tracked (scores_by_type : gmap string (list num)) : num :=
  match filter (fun c => tracked scores_by_type c) categories with
  | [] => NInt 0
  | scored =>
      truediv
        (sum (map (fun c => mul (NFloat (Spec.weight c))
                                (tracked_mean scores_by_type c))
                  scored))
        (sum (map (fun c => NFloat (Spec.weight c)) scored))
  end.

(** A score that line 317 can always add up: a float, or the [0] that
    stands for a missing score. *)
Definition float_or_zero (a : num) : bool :=
  match a with
  | NFloat _ => true
  | NInt n => n =? 0
  end.

(** Every answer of the session has such a score. *)
Definition scores_float_or_zero (interview_results : list item) : bool :=
  forallb (fun it =>
             match it_answer it with
             | Some a => float_or_zero (answer_score a)
             | None => true
             end)
          interview_results.

End Check.

(** ** The retry loop of [execute_query] ([database.py]) *)

Module Query.

(** What one pass through the body of the [while] of lines 207-262 meets:
    a pooled connection that is closed (line 211), a statement that ran
    (with the rows [fetchall] has for it), an error that psycopg2 reports
    as [OperationalError] or [InterfaceError] (line 233), or any other
    exception (line 253). *)
Inductive attempt :=
| Closed
| Executed (rows : list value)
| ConnectionFailed (e : exn)
| Failed (e : exn).

(** What a call did: the value returned or the exception raised, the
    number of passes through the loop body, the arguments of
    [time.sleep] in order, and whether the transaction was committed. *)
Record outcome := {
  returned : result (option (list value));
  passes : nat;
  sleeps : list float;
  committed : bool
}.

(** [0.5] *)
Definition f0_5 : float := S754_finite false 4503599627370496 (-53).

(** Line 266: [last_error or Exception(...)]. *)
Definition exhausted (last_error : option exn) : exn :=
  default (Exn OtherError
             "Failed to execute database query after multiple attempts")
          last_error.

(** Lines 207-266 from a state of the loop.  [script] is what the passes
    to come will meet; when it runs out before the loop has decided, the
    model has no verdict ([None]). *)
Fixpoint execute_query_from (fetch : bool) (max_retries retries : Z)
    (last_error : option exn) (done : nat) (slept : list float)
    (script : list attempt) : option outcome :=
  if retries <? max_retries then
    match script with
    | [] => None
    | Closed :: rest =>
        execute_query_from fetch max_retries retries last_error (S done)
                           slept rest
    | Executed rows :: _ =>
        Some (if fetch then
                match rows with
                | [] => {| returned := Return (Some []); passes := S done;
                           sleeps := slept; committed := false |}
                | _ :: _ => {| returned := Return (Some rows);
                               passes := S done; sleeps := slept;
                               committed := true |}
                end
              else {| returned := Return None; passes := S done;
                      sleeps := slept; committed := true |})
    | ConnectionFailed e :: rest =>
        let retries := retries + 1 in
        execute_query_from fetch max_retries retries (Some e) (S done)
                           (slept ++ [fmul f0_5 (of_int retries)]) rest
    | Failed e :: _ =>
        Some {| returned := Raise e; passes := S done; sleeps := slept;
                committed := false |}
    end
  else
    Some {| returned := Raise (exhausted last_error); passes := done;
            sleeps := slept; committed := false |}.

(** [execute_query(query, params, fetch, max_retries=3)] *)
Definition execute_query (fetch : bool) (max_retries : Z)
    (script : list attempt) : option outcome :=
  execute_query_from fetch max_retries 0 None 0 [] script.

Definition is_closed (a : attempt) : bool :=
  match a with Closed => true | _ => false end.

(** The pauses after the first [n] connection errors:
    [0.5 * 1], ..., [0.5 * n]. *)
Definition backoff (n : nat) : list float :=
  map (fun k => fmul f0_5 (of_int k)) (seqZ 1 (Z.of_nat n)).

End Query.

(** ** The tables of the interviews and the functions of
    [database_methods.py] on them *)

Module Store.

Import Database.

(** [ORDER BY]: rows sorted by a comparison, rows that compare equal
    staying in the order in which they are stored (SQL leaves that order
    open; this is one of the orders it allows). *)
Fixpoint insert_by {A} (le : A -> A -> bool) (x : A) (l : list A) : list A :=
  match l with
  | [] => [x]
  | y :: rest => if le x y then x :: l else y :: insert_by le x rest
  end.

Definition order_by {A} (le : A -> A -> bool) (l : list A) : list A :=
  foldr (insert_by le) [] l.

(** Truth value of a Python object, for the JSON values. *)
Definition truthy (v : value) : bool :=
  match v with
  | VNone => false
  | VBool b => b
  | VInt n => negb (n =? 0)
  | VFloat (S754_zero _) => false
  | VFloat _ => true
  | VStr "" => false
  | VStr _ => true
  | VList [] => false
  | VList _ => true
  | VDict d => negb (bool_decide (d = ∅))
  end.

(** *** Questions *)

(** One entry of [questions_data['questions']]: the keys are read with
    [dict.get], an absent key is [None]. *)
Record question_data := {
  qd_question : option string;
  qd_type : option string
}.

(** A row of [interviews_new].  The score columns and the recommendation
    hold the parameters of the UPDATE as Python passes them; times are
    counted in microseconds. *)
Record interview_row := {
  i_id : Z;
  i_job_title : string;
  i_job_description : string;
  i_resume_text : string;
  i_status : string;
  i_start_time : Z;
  i_end_time : option Z;
  i_completion_rate : value;
  i_overall_score : value;
  i_technical_score : value;
  i_problem_solving_score : value;
  i_communication_score : value;
  i_recommendation : value;
  i_report_data : option (gmap string value)
}.

(** The three tables of [database_update.py] and the sequences behind
    the [SERIAL] keys of the first two; [Database.db] holds the questions,
    the answers and the sequence of the answers. *)
Record store := {
  interviews_new : list interview_row;
  interviews_new_id_seq : Z;
  interview_questions_new_id_seq : Z;
  questions_and_answers : db
}.

Definition interview_exists (st : store) (interview_id : Z) : bool :=
  existsb (fun i => i_id i =? interview_id) (interviews_new st).

(** [execute_query] on the INSERT of lines 71-89.  [interview_id]
    references [interviews_new(id)] and [question_type] is a
    VARCHAR(50); [fault] is a failure of the connection. *)
Definition insert_question (fault : option exn) (st : store)
    (interview_id : Z) (question_text question_type : string)
    (display_order : Z) : result store :=
  match fault with
  | Some e => Raise e
  | None =>
      if negb (interview_exists st interview_id) then
        Raise (Exn IntegrityError
                 "insert or update on table violates foreign key constraint")
      else if 50 <? Z.of_nat (String.length question_type) then
        Raise (Exn OtherError "value too long for type character varying(50)")
      else
        let id := interview_questions_new_id_seq st + 1 in
        let tables := questions_and_answers st in
        Return
          {| interviews_new := interviews_new st;
             interviews_new_id_seq := interviews_new_id_seq st;
             interview_questions_new_id_seq := id;
             questions_and_answers :=
               {| interview_questions_new :=
                    interview_questions_new tables
                    ++ [{| q_id := id;
                           q_interview_id := interview_id;
                           q_question_text := question_text;
                           q_question_type := question_type;
                           q_display_order := display_order |}];
                  interview_answers := interview_answers tables;
                  interview_answers_id_seq :=
                    interview_answers_id_seq tables |} |}
  end.

(** Lines 70-92, the loop over [enumerate(questions)] from index [i].
    Every INSERT is committed by [execute_query] on its own; [faults]
    tells which of them meets a failure of the connection. *)
Fixpoint insert_questions (faults : nat -> option exn) (st : store)
    (interview_id : Z) (i : nat) (questions : list question_data)
  : bool * store :=
  match questions with
  | [] => (true, st)
  | question :: rest =>
      match insert_question (faults i) st interview_id
              (default "" (qd_question question))
              (default "technical" (qd_type question))
              (Z.of_nat i + 1) with
      | Return st' => insert_questions faults st' interview_id (S i) rest
      | Raise e => (false, st)
      end
  end.

(** Lines 52-96; [questions_data] is given by the value of its key
    [questions], [None] when the key is absent. *)
Definition save_interview_questions_new (faults : nat -> option exn)
    (st : store) (interview_id : Z)
    (questions_data : option (list question_data)) : bool * store :=
  match default [] questions_data with
  | [] => (false, st)
  | questions => insert_questions faults st interview_id 0 questions
  end.

(** One dict of the list [get_interview_questions_new] returns. *)
Record question := {
  qn_id : Z;
  qn_question : string;
  qn_type : string;
  qn_order : Z
}.

Definition by_display_order (a b : question_row) : bool :=
  q_display_order a <=? q_display_order b.

(** The SELECT of lines 108-113 and of lines 233-236: the questions of an
    interview in display order. *)
Definition questions_of (tables : db) (interview_id : Z)
  : list question_row :=
  order_by by_display_order
           (filter (fun q => q_interview_id q = interview_id)
                   (interview_questions_new tables)).

(** Lines 98-135 *)
Definition get_interview_questions_new (fault : option exn) (tables : db)
    (interview_id : Z) : list question :=
  match fault with
  | Some _ => []
  | None =>
      map (fun row => {| qn_id := q_id row;
                         qn_question := q_question_text row;
                         qn_type := q_question_type row;
                         qn_order := q_display_order row |})
          (questions_of tables interview_id)
  end.

(** *** Questions with their answers *)

(** A question with its answer, as [get_interview_answers] returns it
    and the pages of [interview_ui.py] read it; [A] is the type of the
    answer, which is never an empty dict. *)
Record qa (A : Type) := {
  qa_id : Z;
  qa_question : string;
  qa_type : string;
  qa_order : Z;
  qa_answer : option A
}.
Arguments qa_id {A} _.
Arguments qa_question {A} _.
Arguments qa_type {A} _.
Arguments qa_order {A} _.
Arguments qa_answer {A} _.

(** The dict [answer_data] of lines 269-285.  [answered_at], which the
    database sets from its clock, is not modelled. *)
Record answer_view := {
  av_id : Z;
  av_text : string;
  av_evaluation : gmap string value;
  av_response_time : Z;
  av_skipped : bool
}.

(** The rows of the LEFT JOIN of lines 214-237: each question of the
    interview with each of its answers, and once without an answer when
    it has none. *)
Definition rows_of_question (tables : db) (q : question_row)
  : list (question_row * option answer_row) :=
  match answers_of tables (q_id q) with
  | [] => [(q, None)]
  | answers => map (fun a => (q, Some a)) answers
  end.

Definition joined_rows (tables : db) (interview_id : Z)
  : list (question_row * option answer_row) :=
  flat_map (rows_of_question tables) (questions_of tables interview_id).

Section GetInterviewAnswers.

(** [json.loads] on a text is the parser of the Python runtime. *)
Variable json_loads : string -> result value.

(** What the driver hands over for a stored JSON value.  psycopg2 parses
    [json] and [jsonb] columns into Python objects by default, and then
    this is the identity; a driver without that adaptation hands over the
    JSON text. *)
Variable jsonb_column : value -> value.

(** Lines 248-261 on the object the driver handed over.  [json.loads]
    accepts a text only and raises [TypeError] on any other object; the
    bare [except] keeps the empty list. *)
Definition loads_or_empty (column : value) : value :=
  if truthy column then
    match column with
    | VStr s =>
        match json_loads s with
        | Return v => v
        | Raise _ => VList []
        end
    | _ => VList []
    end
  else VList [].

(** Lines 264-285 *)
Definition answer_of_row (a : option answer_row) : option answer_view :=
  match a with
  | None => None
  | Some a =>
      match a_answer_text a with
      | "" => None
      | text =>
          Some {| av_id := a_id a;
                  av_text := text;
                  av_evaluation :=
                    list_to_map
                      [("score", a_score a);
                       ("technical_accuracy", a_technical_accuracy a);
                       ("clarity_of_communication",
                        a_clarity_of_communication a);
                       ("relevance", a_relevance a);
                       ("demonstrated_expertise",
                        a_demonstrated_expertise a);
                       ("strengths",
                        loads_or_empty (jsonb_column (a_strengths a)));
                       ("weaknesses",
                        loads_or_empty (jsonb_column (a_weaknesses a)));
                       ("feedback", a_feedback a)];
                  av_response_time := a_response_time a;
                  av_skipped := a_is_skipped a |}
      end
  end.

(** Lines 245-293 *)
Definition question_with_answer (row : question_row * option answer_row)
  : qa answer_view :=
  {| qa_id := q_id (fst row);
     qa_question := q_question_text (fst row);
     qa_type := q_question_type (fst row);
     qa_order := q_display_order (fst row);
     qa_answer := answer_of_row (snd row) |}.

(** Lines 204-300 *)
Definition get_interview_answers (fault : option exn) (tables : db)
    (interview_id : Z) : list (qa answer_view) :=
  match fault with
  | Some _ => []
  | None => map question_with_answer (joined_rows tables interview_id)
  end.

End GetInterviewAnswers.

(** *** Interviews *)

(** [FLOAT DEFAULT 0] *)
Definition float_default : value := VFloat (S754_zero false).

(** Lines 12-50.  [fault] is an exception of [execute_query]; [now] is
    the clock. *)
Definition create_new_interview (fault : option exn) (now : Z) (st : store)
    (job_title job_description resume_text : string) : option Z * store :=
  match fault with
  | Some _ => (None, st)
  | None =>
      if 255 <? Z.of_nat (String.length job_title) then (None, st)
      else
        let id := interviews_new_id_seq st + 1 in
        (Some id,
         {| interviews_new :=
              interviews_new st
              ++ [{| i_id := id;
                     i_job_title := job_title;
                     i_job_description := job_description;
                     i_resume_text := resume_text;
                     i_status := "in_progress";
                     i_start_time := now;
                     i_end_time := None;
                     i_completion_rate := float_default;
                     i_overall_score := float_default;
                     i_technical_score := float_default;
                     i_problem_solving_score := float_default;
                     i_communication_score := float_default;
                     i_recommendation := VNone;
                     i_report_data := None |}];
            interviews_new_id_seq := id;
            interview_questions_new_id_seq :=
              interview_questions_new_id_seq st;
            questions_and_answers := questions_and_answers st |})
  end.

(** [divmod(a, b)] on integers: the quotient is rounded down. *)
Definition divmod (a b : Z) : Z * Z := (a / b, a mod b).

(** [f"{'s' if n != 1 else ''}"] *)
Definition plural (n : Z) : string := if n =? 1 then "" else "s".

(** Lines 330-336 on [int(duration_seconds)]. *)
Definition duration_str (duration_seconds : Z) : string :=
  let '(minutes, seconds) := divmod duration_seconds 60 in
  let '(hours, minutes) := divmod minutes 60 in
  if hours >? 0 then
    pretty hours +:+ " hour" +:+ plural hours +:+ " "
    +:+ pretty minutes +:+ " minute" +:+ plural minutes
  else
    pretty minutes +:+ " minute" +:+ plural minutes +:+ " "
    +:+ pretty seconds +:+ " second" +:+ plural seconds.

(** Lines 325-342: [(end_time - start_time).total_seconds()] is the
    quotient of the microseconds by [10**6] as a float, and [int]
    truncates it. *)
Definition interview_duration (start_time : option Z) (end_time : Z)
  : result string :=
  match start_time with
  | Some start_time =>
      match trunc (fdiv (of_int (end_time - start_time))
                        (of_int 1000000)) with
      | Some seconds => Return (duration_str seconds)
      | None => Raise (Exn OverflowError "cannot convert float to integer")
      end
  | None => Return "Unknown"
  end.

(** [scores.get(key, 0)]: only a dict has [get]. *)
Definition scores_get (scores : value) (key : string) : result value :=
  match scores with
  | VDict d => Return (default (VInt 0) (d !! key))
  | _ => Raise (Exn AttributeError "object has no attribute 'get'")
  end.

(** The UPDATE of lines 344-376 on one row. *)
Definition completed_row (i : interview_row) (end_time : Z)
    (overall technical problem_solving communication : value)
    (completion_rate recommendation : value)
    (report_data : gmap string value) : interview_row :=
  {| i_id := i_id i;
     i_job_title := i_job_title i;
     i_job_description := i_job_description i;
     i_resume_text := i_resume_text i;
     i_status := "completed";
     i_start_time := i_start_time i;
     i_end_time := Some end_time;
     i_completion_rate := completion_rate;
     i_overall_score := overall;
     i_technical_score := technical;
     i_problem_solving_score := problem_solving;
     i_communication_score := communication;
     i_recommendation := recommendation;
     i_report_data := Some report_data |}.

(** Lines 302-383.  [select_fault] and [update_fault] are the exceptions
    of the two calls of [execute_query]; the second stands for a failure
    of the connection and for a refusal of the parameters by the
    database as well. *)
Definition complete_interview (select_fault update_fault : option exn)
    (now : Z) (st : store) (interview_id : Z)
    (report_data : gmap string value) : bool * store :=
  let scores := default (VDict ∅) (report_data !! "scores") in
  match select_fault with
  | Some _ => (false, st)
  | None =>
      let start_time :=
        i_start_time
          <$> head (filter (fun i => i_id i = interview_id)
                           (interviews_new st)) in
      let updated :=
        duration_str ← interview_duration start_time now;
        let report_data :=
          <["interview_duration" := VStr duration_str]> report_data in
        overall ← scores_get scores "overall";
        technical ← scores_get scores "technical";
        problem_solving ← scores_get scores "problem_solving";
        communication ← scores_get scores "behavioral";
        match update_fault with
        | Some e => Raise e
        | None =>
            Return
              (map (fun i =>
                      if bool_decide (i_id i = interview_id)
                      then completed_row i now overall technical
                             problem_solving communication
                             (default (VInt 0)
                                      (report_data !! "completion_rate"))
                             (default (VStr "No recommendation")
                                      (report_data !! "recommendation"))
                             report_data
                      else i)
                   (interviews_new st))
        end in
      match updated with
      | Return rows =>
          (true,
           {| interviews_new := rows;
              interviews_new_id_seq := interviews_new_id_seq st;
              interview_questions_new_id_seq :=
                interview_questions_new_id_seq st;
              questions_and_answers := questions_and_answers st |})
      | Raise _ => (false, st)
      end
  end.

(** The dicts of [get_in_progress_interviews] and of
    [get_completed_interviews_new]. *)
Record in_progress_interview := {
  ip_id : Z;
  ip_job_title : string;
  ip_status : string;
  ip_start_time : Z
}.

Record completed_interview := {
  ci_id : Z;
  ci_job_title : string;
  ci_status : string;
  ci_start_time : Z;
  ci_end_time : option Z;
  ci_completion_rate : value;
  ci_overall_score : value;
  ci_recommendation : value
}.

(** [ORDER BY start_time DESC] *)
Definition by_start_time_desc (a b : interview_row) : bool :=
  i_start_time b <=? i_start_time a.

(** [ORDER BY end_time DESC]: a NULL sorts before every time. *)
Definition by_end_time_desc (a b : interview_row) : bool :=
  match i_end_time a, i_end_time b with
  | None, _ => true
  | Some _, None => false
  | Some x, Some y => y <=? x
  end.

(** Lines 503-541 *)
Definition get_in_progress_interviews (fault : option exn) (st : store)
  : list in_progress_interview :=
  match fault with
  | Some _ => []
  | None =>
      map (fun i => {| ip_id := i_id i;
                       ip_job_title := i_job_title i;
                       ip_status := i_status i;
                       ip_start_time := i_start_time i |})
          (order_by by_start_time_desc
                    (filter (fun i => i_status i = "in_progress")
                            (interviews_new st)))
  end.

(** Lines 455-501 *)
Definition get_completed_interviews_new (fault : option exn) (st : store)
  : list completed_interview :=
  match fault with
  | Some _ => []
  | None =>
      map (fun i => {| ci_id := i_id i;
                       ci_job_title := i_job_title i;
                       ci_status := i_status i;
                       ci_start_time := i_start_time i;
                       ci_end_time := i_end_time i;
                       ci_completion_rate := i_completion_rate i;
                       ci_overall_score := i_overall_score i;
                       ci_recommendation := i_recommendation i |})
          (order_by by_end_time_desc
                    (filter (fun i => i_status i = "completed")
                            (interviews_new st)))
  end.

(** The ids of the stored answers are distinct and none is beyond the
    sequence. *)
Definition answer_ids_fresh (tables : db) : Prop :=
  NoDup (map a_id (interview_answers tables))
  /\ Forall (fun a => a_id a <= interview_answers_id_seq tables)
            (interview_answers tables).

End Store.

(** ** The interview pages of [interview_ui.py] *)

Module Page.

Import Database Store.

(** *** [interview_interface]: progress and the current question *)

(** Lines 401-403 *)
Definition total_questions {A} (questions : list (qa A)) : Z :=
  Z.of_nat (length questions).

Definition answered_questions {A} (questions : list (qa A)) : Z :=
  Z.of_nat (length (filter (fun q => is_Some (qa_answer q)) questions)).

Definition progress {A} (questions : list (qa A)) : num :=
  if total_questions questions >? 0
  then truediv (NInt (answered_questions questions))
               (NInt (total_questions questions))
  else NInt 0.

(** Lines 410-414: the first question whose answer is missing. *)
Fixpoint current_question {A} (questions : list (qa A)) : option (qa A) :=
  match questions with
  | [] => None
  | q :: rest =>
      match qa_answer q with
      | None => Some q
      | Some _ => current_question rest
      end
  end.

(** Lines 354-360, on a whole number of seconds. *)
Definition format_elapsed_time (seconds : Z) : string :=
  let '(minutes, seconds) := divmod seconds 60 in
  let '(hours, minutes) := divmod minutes 60 in
  if hours >? 0 then
    pretty hours +:+ "h " +:+ pretty minutes +:+ "m "
    +:+ pretty seconds +:+ "s"
  else pretty minutes +:+ "m " +:+ pretty seconds +:+ "s".

(** *** [interview_interface]: the Submit Response button *)

Section SubmitResponse.

(** [str.strip] of the runtime: it removes the leading and the trailing
    whitespace, which for a [str] is every character that Unicode counts
    as whitespace (the no-break space and the ideographic space as well
    as the ASCII ones). *)
Variable strip : string -> string.

(** [not answer_text.strip()]: the empty string is the only false one. *)
Definition blank (answer_text : string) : bool :=
  bool_decide (strip answer_text = "").

(** Lines 549-593: what the button does to the tables and the message it
    shows.  The id that [save_interview_answer] returns is not looked
    at. *)
Definition submit_response (float_of_str : string -> option float)
    (service : Engine.evaluation_request -> result value)
    (fault : option exn) (tables : db)
    (job_title job_description : string) {A} (current_question : qa A)
    (answer_text : string) (response_time : Z)
  : io Engine.evaluation_request (db * string) :=
  if blank answer_text then
    mret (tables, "Please enter a response before submitting")
  else
    evaluation ← Engine.evaluate_answer float_of_str service
                   (qa_question current_question) (qa_type current_question)
                   answer_text job_title job_description;
    let answer_data :=
      {| ad_answer_text := Some answer_text;
         ad_evaluation := Some evaluation;
         ad_response_time := Some response_time;
         ad_skipped := None |} in
    let saved := save_interview_answer fault tables
                   (qa_id current_question) answer_data in
    mret (snd saved, "Response recorded!").

End SubmitResponse.

(** *** [complete_interview]: the report of the session *)

(** Lines 669-677: the questions that have an answer. *)
Definition interview_results (questions_with_answers : list (qa Engine.answer))
  : list Engine.item :=
  omap (fun q =>
          match qa_answer q with
          | Some answer =>
              Some {| Engine.it_question := Some (qa_question q);
                      Engine.it_type := Some (qa_type q);
                      Engine.it_answer := Some answer |}
          | None => None
          end)
       questions_with_answers.

(** Line 680 *)
Definition completion_rate (questions_with_answers : list (qa Engine.answer))
  : num :=
  match questions_with_answers with
  | [] => NInt 0
  | _ :: _ => truediv (len (interview_results questions_with_answers))
                      (len questions_with_answers)
  end.


End Page.

(** ** The rows a successful save of questions adds *)

Module Saved.

Import Database Store.

(** The rows that the loop of [save_interview_questions_new] inserts for
    [questions] from index [i] on, the sequence standing at [id_seq]. *)
Fixpoint new_rows (interview_id id_seq : Z) (i : nat)
    (questions : list question_data) : list question_row :=
  match questions with
  | [] => []
  | question :: rest =>
      {| q_id := id_seq + 1;
         q_interview_id := interview_id;
         q_question_text := default "" (qd_question question);
         q_question_type := default "technical" (qd_type question);
         q_display_order := Z.of_nat i + 1 |}
      :: new_rows interview_id (id_seq + 1) (S i) rest
  end.

(** The store with [rows] added to the questions. *)
Definition add_questions (st : store) (rows : list question_row) : store :=
  {| interviews_new := interviews_new st;
     interviews_new_id_seq := interviews_new_id_seq st;
     interview_questions_new_id_seq :=
       interview_questions_new_id_seq st + Z.of_nat (length rows);
     questions_and_answers :=
       {| interview_questions_new :=
            interview_questions_new (questions_and_answers st) ++ rows;
          interview_answers := interview_answers (questions_and_answers st);
          interview_answers_id_seq :=
            interview_answers_id_seq (questions_and_answers st) |} |}.

(** The rows are in the order of the comparison already. *)
Fixpoint in_order {A} (le : A -> A -> bool) (l : list A) : bool :=
  match l with
  | [] => true
  | x :: rest =>
      match rest with [] => true | y :: _ => le x y end && in_order le rest
  end.

(** The type of a question fits the VARCHAR(50) of its column. *)
Definition type_fits (question : question_data) : Prop :=
  Z.of_nat (String.length (default "technical" (qd_type question))) <= 50.

End Saved.

(** ** The schema of [database_update.py] *)

Module Schema.

(** The tables of a database, each with the names of its columns. *)
Abbreviation schema := (gmap string (list string)).

(** The columns of the three CREATE TABLE statements (lines 70-118). *)
Definition interviews_new_columns : list string :=
  ["id"; "job_title"; "job_description"; "resume_text"; "status";
   "start_time"; "end_time"; "completion_rate"; "overall_score";
   "technical_score"; "problem_solving_score"; "communication_score";
   "recommendation"; "report_data"].

Definition interview_questions_new_columns : list string :=
  ["id"; "interview_id"; "question_text"; "question_type"; "display_order";
   "created_at"].

Definition interview_answers_columns : list string :=
  ["id"; "question_id"; "answer_text"; "score"; "technical_accuracy";
   "clarity_of_communication"; "relevance"; "demonstrated_expertise";
   "strengths"; "weaknesses"; "feedback"; "response_time"; "answered_at"].

(** The columns that the INSERT of [save_interview_answer] names
    ([database_methods.py], lines 153-166). *)
Definition insert_answer_columns : list string :=
  ["question_id"; "answer_text"; "score"; "technical_accuracy";
   "clarity_of_communication"; "relevance"; "demonstrated_expertise";
   "strengths"; "weaknesses"; "feedback"; "response_time"; "is_skipped"].

(** [CREATE TABLE IF NOT EXISTS] *)
Definition create_table_if_not_exists (name : string)
    (columns : list string) (db : schema) : schema :=
  match db !! name with
  | Some _ => db
  | None => <[name := columns]> db
  end.

(** Lines 39-52 *)
Definition check_table_exists (db : schema) (table_name : string) : bool :=
  bool_decide (is_Some (db !! table_name)).

(** Lines 54-134.  The statements run in one transaction; [fault] is an
    exception of the connection or of a statement, after which nothing is
    committed. *)
Definition update_database_schema (fault : option exn) (db : schema)
  : bool * schema :=
  match fault with
  | Some _ => (false, db)
  | None =>
      if check_table_exists db "interviews_new" then (true, db)
      else
        (true,
         create_table_if_not_exists "interview_answers"
           interview_answers_columns
           (create_table_if_not_exists "interview_questions_new"
              interview_questions_new_columns
              (create_table_if_not_exists "interviews_new"
                 interviews_new_columns db)))
  end.

End Schema.

(** ** The completion percentage of the prompt
    ([interview_engine_new.py], line 368) *)

Module Prompt.

Import Engine.

(** [int(rate * 100)] *)
Definition percentage (rate : num) : option Z :=
  match mul rate (NInt 100) with
  | NInt n => Some n
  | NFloat x => trunc x
  end.

(** [int(completion_rate * 100)] *)
Definition completion_percentage (interview_results : list item)
  : option Z :=
  percentage (completion_rate interview_results).

(** The same from the two counts of lines 270-272. *)
Definition percentage_of_counts (answered total : Z) : option Z :=
  percentage (if total >? 0 then truediv (NInt answered) (NInt total)
              else NInt 0).

Definition percentage_is_exact (answered total : Z) : bool :=
  match percentage_of_counts answered total with
  | Some p => p =? 100 * answered / total
  | None => false
  end.

End Prompt.

(** ** The question that [conduct_interview] evaluates
    ([interview_engine.py], lines 177-184) *)

Module LegacySession.

(** [l[i]]: a negative index counts from the end. *)
Definition py_index {A} (l : list A) (i : Z) : result A :=
  let n := Z.of_nat (length l) in
  let j := if i <? 0 then i + n else i in
  match (if (0 <=? j) && (j <? n) then l !! Z.to_nat j else None) with
  | Some x => Return x
  | None => Raise (Exn OtherError "list index out of range")
  end.

(** Lines 181-184 *)
Definition current_question
    (questions : gmap string (list (gmap string value)))
    (question_number : Z) (question_type : string) : result value :=
  match questions !! question_type with
  | Some ((_ :: _) as asked) =>
      let question_index :=
        Z.min question_number (Z.of_nat (length asked) - 1) in
      question ← py_index asked question_index;
      getitem question "question"
  | _ => Return (VStr "")
  end.

End LegacySession.

(** ** Further sample data *)

Module Cases.

Import Engine.

(** The quotas of ten questions. *)
Definition counts_10 : Quota.quotas :=
  {| Quota.technical_count := 4;
     Quota.scenario_count := 3;
     Quota.behavioral_count := 2;
     Quota.problem_solving_count := 1 |}.

(** A reply that has one technical question and a note, and nothing for
    the other categories. *)
Definition one_question : value :=
  VDict (list_to_map [("question", VStr "What is an index?");
                      ("purpose", VStr "Checks database basics.")]).

Definition reply_one_technical : gmap string value :=
  list_to_map [("technical", VList [one_question]);
               ("note", VStr "Only one question came to mind.")].

(** The same reply with a number where the behavioral questions should
    be. *)
Definition reply_behavioral_number : gmap string value :=
  <["behavioral" := VInt 3]> reply_one_technical.

(** Three passes of [execute_query] that each time out. *)
Definition three_timeouts : list Query.attempt :=
  [Query.ConnectionFailed (Exn OperationalError "timeout expired");
   Query.ConnectionFailed (Exn OperationalError "timeout expired");
   Query.ConnectionFailed (Exn OperationalError "server closed the connection")].

(** *** Stores *)

(** An interview in progress, started at time 0. *)
Definition interview_1 : Store.interview_row :=
  {| Store.i_id := 1;
     Store.i_job_title := "Engineer";
     Store.i_job_description := "Builds services.";
     Store.i_resume_text := "Ten years of services.";
     Store.i_status := "in_progress";
     Store.i_start_time := 0;
     Store.i_end_time := None;
     Store.i_completion_rate := Store.float_default;
     Store.i_overall_score := Store.float_default;
     Store.i_technical_score := Store.float_default;
     Store.i_problem_solving_score := Store.float_default;
     Store.i_communication_score := Store.float_default;
     Store.i_recommendation := VNone;
     Store.i_report_data := None |}.

(** A store that has this interview and no question. *)
Definition store_one_interview : Store.store :=
  {| Store.interviews_new := [interview_1];
     Store.interviews_new_id_seq := 1;
     Store.interview_questions_new_id_seq := 0;
     Store.questions_and_answers :=
       {| Database.interview_questions_new := [];
          Database.interview_answers := [];
          Database.interview_answers_id_seq := 0 |} |}.

(** A second interview in progress, for another job, and a store that
    has both. *)
Definition interview_2 : Store.interview_row :=
  {| Store.i_id := 2;
     Store.i_job_title := "Analyst";
     Store.i_job_description := "Reads reports.";
     Store.i_resume_text := "Five years of reports.";
     Store.i_status := "in_progress";
     Store.i_start_time := 60000000;
     Store.i_end_time := None;
     Store.i_completion_rate := Store.float_default;
     Store.i_overall_score := Store.float_default;
     Store.i_technical_score := Store.float_default;
     Store.i_problem_solving_score := Store.float_default;
     Store.i_communication_score := Store.float_default;
     Store.i_recommendation := VNone;
     Store.i_report_data := None |}.

Definition store_two_interviews : Store.store :=
  {| Store.interviews_new := [interview_1; interview_2];
     Store.interviews_new_id_seq := 2;
     Store.interview_questions_new_id_seq := 0;
     Store.questions_and_answers :=
       {| Database.interview_questions_new := [];
          Database.interview_answers := [];
          Database.interview_answers_id_seq := 0 |} |}.

(** Two questions to save, the second without a type. *)
Definition two_questions : list Store.question_data :=
  [{| Store.qd_question := Some "What is an index?";
      Store.qd_type := Some "technical" |};
   {| Store.qd_question := Some "Tell me about a conflict.";
      Store.qd_type := None |}].

(** A connection that fails on the second INSERT. *)
Definition second_insert_fails : nat -> option exn :=
  fun i => if (i =? 1)%nat then Some Samples.connection_error else None.

(** The questions 7 and 8 of interview 1; question 7 has the answer of
    [Samples.stored_answer]. *)
Definition question_8 : Database.question_row :=
  {| Database.q_id := 8;
     Database.q_interview_id := 1;
     Database.q_question_text := "Tell me about a conflict.";
     Database.q_question_type := "behavioral";
     Database.q_display_order := 2 |}.

Definition db_two_questions : Database.db :=
  {| Database.interview_questions_new :=
       Database.interview_questions_new Samples.db_answered ++ [question_8];
     Database.interview_answers := [Samples.stored_answer];
     Database.interview_answers_id_seq := 1 |}.

(** A graded answer with its lists of strengths and weaknesses. *)
Definition graded_evaluation : gmap string value :=
  list_to_map [("score", VFloat (of_tenths false 75));
               ("strengths", VList [VStr "Concrete"]);
               ("weaknesses", VList [VStr "Brief"]);
               ("feedback", VStr "Good.")].

Definition graded_answer : Database.answer_data :=
  {| Database.ad_answer_text := Some "We talked it through.";
     Database.ad_evaluation := Some graded_evaluation;
     Database.ad_response_time := Some 30;
     Database.ad_skipped := None |}.

(** A parser that refuses every text, and a driver that hands the stored
    JSON value over as it is. *)
Definition no_json : string -> result value :=
  fun _ => Raise (Exn ValueError "Expecting value").

Definition parsed : value -> value := fun v => v.

(** A final report as the completion page hands it over. *)
Definition report_hire : gmap string value :=
  list_to_map [("recommendation", VStr "Hire");
               ("scores", VDict (list_to_map [("overall", VFloat Samples.f8)]));
               ("completion_rate", VFloat (of_int 1))].

(** The questions of the older engine: two technical ones. *)
Definition legacy_asked : list (gmap string value) :=
  [list_to_map [("question", VStr "What is a posting key?")];
   list_to_map [("question", VStr "What is a document type?")]].

Definition legacy_questions : gmap string (list (gmap string value)) :=
  list_to_map [("technical", legacy_asked)].

End Cases.

(** * Properties *)

Import Engine.

(** ** Quotas *)

Lemma counts_match_5_40 : forallb Quota.counts_match (seqZ 5 36) = true.
Proof. vm_compute. reflexivity. Qed.

Lemma counts_match_spec (N : Z) :
  5 <= N <= 40 -> Quota.question_counts N = Some (Quota.spec_counts N).
Proof.
  intros HN.
  assert (Hin : In N (seqZ 5 36)) by (apply list_elem_of_In, elem_of_seqZ; lia).
  pose proof (proj1 (forallb_forall _ _) counts_match_5_40 N Hin) as Hm.
  unfold Quota.counts_match in Hm.
  destruct (Quota.question_counts N) as [q|]; [|discriminate].
  unfold Quota.quotas_eqb in Hm.
  apply andb_prop in Hm as [Hm H4]. apply andb_prop in Hm as [Hm H3].
  apply andb_prop in Hm as [H1 H2].
  apply Z.eqb_eq in H1, H2, H3, H4.
  destruct q; simpl in *. unfold Quota.spec_counts. congruence.
Qed.

(** C6.  For every N between 5 and 40 the counts that [generate_questions]
    computes in binary64 (in both engines) are the integer parts of 0.4 N,
    0.3 N and 0.2 N, the problem-solving count is what remains of N, the
    four counts add up to N and none is negative. *)
Theorem quota_split_exact (N : Z) :
  5 <= N <= 40 ->
  exists q,
    Quota.question_counts N = Some q
    /\ Engine.counts_or_raise N = Return q
    /\ Quota.technical_count q = 4 * N / 10
    /\ Quota.scenario_count q = 3 * N / 10
    /\ Quota.behavioral_count q = 2 * N / 10
    /\ Quota.problem_solving_count q
       = N - Quota.technical_count q - Quota.scenario_count q
         - Quota.behavioral_count q
    /\ Quota.technical_count q + Quota.scenario_count q
       + Quota.behavioral_count q + Quota.problem_solving_count q = N
    /\ 0 <= Quota.technical_count q
    /\ 0 <= Quota.scenario_count q
    /\ 0 <= Quota.behavioral_count q
    /\ 0 <= Quota.problem_solving_count q.
Proof.
  intros HN. exists (Quota.spec_counts N).
  pose proof (counts_match_spec N HN) as Hq.
  split; [exact Hq|].
  split; [unfold Engine.counts_or_raise; rewrite Hq; reflexivity|].
  unfold Quota.spec_counts; simpl.
  pose proof (Z.div_mod (4 * N) 10 ltac:(lia)).
  pose proof (Z.mod_pos_bound (4 * N) 10 ltac:(lia)).
  pose proof (Z.div_mod (3 * N) 10 ltac:(lia)).
  pose proof (Z.mod_pos_bound (3 * N) 10 ltac:(lia)).
  pose proof (Z.div_mod (2 * N) 10 ltac:(lia)).
  pose proof (Z.mod_pos_bound (2 * N) 10 ltac:(lia)).
  repeat split; lia.
Qed.

Lemma quota_split_exact_witness :
  5 <= 25 <= 40
  /\ exists q,
      Quota.question_counts 25 = Some q
      /\ Engine.counts_or_raise 25 = Return q
      /\ Quota.technical_count q = 4 * 25 / 10
      /\ Quota.scenario_count q = 3 * 25 / 10
      /\ Quota.behavioral_count q = 2 * 25 / 10
      /\ Quota.problem_solving_count q
         = 25 - Quota.technical_count q - Quota.scenario_count q
           - Quota.behavioral_count q
      /\ Quota.technical_count q + Quota.scenario_count q
         + Quota.behavioral_count q + Quota.problem_solving_count q = 25
      /\ 0 <= Quota.technical_count q
      /\ 0 <= Quota.scenario_count q
      /\ 0 <= Quota.behavioral_count q
      /\ 0 <= Quota.problem_solving_count q.
Proof. split; [lia | apply (quota_split_exact 25); lia]. Defined.

(** ** Aggregation *)

Lemma fmul_comm (x y : float) : fmul x y = fmul y x.
Proof.
  destruct x as [sx|sx| |sx mx ex], y as [sy|sy| |sy my ey]; simpl;
    try reflexivity; try (rewrite (xorb_comm sx sy); reflexivity).
  unfold fmul, SFmul.
  rewrite (xorb_comm sx sy), (Pos.mul_comm mx my), (Z.add_comm ex ey).
  reflexivity.
Qed.

Lemma mul_float_comm (a : num) (w : float) :
  mul a (NFloat w) = mul (NFloat w) a.
Proof. destruct a; simpl; rewrite fmul_comm; reflexivity. Qed.

Lemma avg_scores_lookup (sbt : gmap string (list num)) (c : string) :
  avg_scores sbt !! c = average <$> (sbt !! c).
Proof. unfold avg_scores. apply lookup_fmap. Qed.

Lemma weights_spec (c : string) :
  c ∈ categories -> default (NInt 0) (weights !! c) = NFloat (Spec.weight c).
Proof.
  unfold categories. rewrite !elem_of_cons, elem_of_nil.
  intros [->|[->|[->|[->|[]]]]]; reflexivity.
Qed.

(** The loop of lines 332-336 adds up exactly the categories that the
    guard lets through. *)
Lemma weighted_totals_filter (sbt : gmap string (list num))
    (cats : list string) (acc : num * num) :
  foldl (weighted_step sbt (avg_scores sbt)) acc cats
  = (foldl add (fst acc)
       (map (fun c => mul (Check.tracked_mean sbt c)
                          (default (NInt 0) (weights !! c)))
            (filter (fun c => Check.tracked sbt c) cats)),
     foldl add (snd acc)
       (map (fun c => default (NInt 0) (weights !! c))
            (filter (fun c => Check.tracked sbt c) cats))).
Proof.
  revert acc. induction cats as [|c cats IH]; intros [o w]; [reflexivity|].
  rewrite filter_cons. cbn [foldl]. rewrite IH. clear IH.
  unfold weighted_step. rewrite avg_scores_lookup.
  assert (Hc : Check.tracked sbt c
               = match sbt !! c with Some (_ :: _) => true | _ => false end)
    by reflexivity.
  assert (Hm : Check.tracked_mean sbt c = average (default [] (sbt !! c)))
    by reflexivity.
  destruct (sbt !! c) as [[|x l]|]; rewrite Hc;
    cbn [fmap option_fmap option_map]; case_decide; try done.
  cbn [map foldl fst snd]. rewrite Hm. reflexivity.
Qed.

Lemma foldl_add_ext {A} (f g : A -> num) (l : list A) (a : num) :
  (forall x, x ∈ l -> f x = g x) ->
  foldl add a (map f l) = foldl add a (map g l).
Proof.
  intros H. f_equal. apply map_ext_in. intros x Hx. apply H.
  apply list_elem_of_In. exact Hx.
Qed.

(** The loop of lines 329-341 on the scores grouped by type: the overall
    score is the sum of weight times mean over the sum of the weights,
    both taken over the types whose tracked list is not empty, with the
    weights 0.4, 0.3, 0.15 and 0.15; a type without a tracked score
    enters neither sum, and when no type has one the overall score is
    [0]. *)
Lemma overall_score_weighted (sbt : gmap string (list num)) :
  overall_score sbt = Check.weighted_tracked sbt
  /\ ((forall c, c ∈ categories -> Check.tracked sbt c = false) ->
      overall_score sbt = NInt 0).
Proof.
  assert (Heq : overall_score sbt = Check.weighted_tracked sbt).
  { unfold overall_score, weighted_totals, Check.weighted_tracked, sum.
    rewrite weighted_totals_filter.
    set (scored := filter (fun c => Check.tracked sbt c) categories).
    assert (Hsub : forall c, c ∈ scored -> c ∈ categories).
    { intros c Hc. apply list_elem_of_filter in Hc. tauto. }
    cbn [fst snd].
    rewrite (foldl_add_ext
               (fun c => mul (Check.tracked_mean sbt c)
                             (default (NInt 0) (weights !! c)))
               (fun c => mul (NFloat (Spec.weight c)) (Check.tracked_mean sbt c))
               scored).
    2:{ intros c Hc. rewrite (weights_spec c (Hsub c Hc)).
        apply mul_float_comm. }
    rewrite (foldl_add_ext (fun c => default (NInt 0) (weights !! c))
               (fun c => NFloat (Spec.weight c)) scored).
    2:{ intros c Hc. apply weights_spec, Hsub, Hc. }
    clear Hsub.
    subst scored. unfold categories.
    repeat (rewrite filter_cons; case_decide); rewrite filter_nil;
      try reflexivity;
      match goal with
      | |- context [num_gt ?t 0] =>
          let v := eval vm_compute in (num_gt t 0) in
          change (num_gt t 0) with v
      end; reflexivity. }
  split; [exact Heq|].
  intros Hnone. rewrite Heq. unfold Check.weighted_tracked.
  assert (Hnil : filter (fun c => Check.tracked sbt c) categories = []).
  { unfold categories in *.
    repeat (rewrite filter_cons; case_decide as Hd;
            [cbv beta in Hd; rewrite Hnone in Hd by set_solver; done|clear Hd]).
    apply filter_nil. }
  rewrite Hnil. reflexivity.
Qed.

(** The loop of lines 283-301 collects, for a category, the scores of the
    answered items of that category in their order. *)
Lemma track_scores_lookup (interview_results : list item)
    (m : gmap string (list num)) (c : string) (l : list num) :
  m !! c = Some l ->
  (forall it, it ∈ interview_results -> is_Some (it_answer it) ->
              Spec.is_scored it = true) ->
  foldl track_score m interview_results !! c
  = Some (l ++ Spec.scored_scores interview_results c).
Proof.
  revert m l. induction interview_results as [|it items IH]; intros m l Hm Hsc.
  - simpl. rewrite app_nil_r. exact Hm.
  - cbn [foldl].
    assert (Hitems : forall it', it' ∈ items -> is_Some (it_answer it') ->
                                 Spec.is_scored it' = true)
      by (intros it' Hin; apply Hsc; right; exact Hin).
    unfold Spec.scored_scores. cbn [omap list_omap].
    fold (Spec.scored_scores items c).
    unfold track_score.
    destruct (it_answer it) as [a|] eqn:Ha.
    + rewrite (Hsc it (list_elem_of_here _ _)) by (rewrite Ha; eauto).
      cbn [andb fmap option_fmap option_map].
      destruct (m !! item_type it) as [scores|] eqn:Hty.
      * case_bool_decide as Hc.
        -- rewrite Hc in Hty. rewrite Hm in Hty. injection Hty as <-.
           rewrite (IH _ (l ++ [answer_score a]));
             [ rewrite <- app_assoc; reflexivity
             | rewrite Hc; apply lookup_insert_eq
             | exact Hitems ].
        -- rewrite (IH _ l); [reflexivity | | exact Hitems].
           rewrite lookup_insert_ne by exact Hc. exact Hm.
      * case_bool_decide as Hc; [congruence|].
        apply IH; assumption.
    + assert (Hns : Spec.is_scored it = false)
        by (unfold Spec.is_scored; rewrite Ha; reflexivity).
      rewrite Hns. cbn [andb]. apply IH; assumption.
Qed.

Lemma initial_scores_lookup (c : string) :
  c ∈ categories -> initial_scores_by_type !! c = Some [].
Proof.
  unfold categories. rewrite !elem_of_cons, elem_of_nil.
  intros [->|[->|[->|[->|[]]]]]; reflexivity.
Qed.

(** In a session where every answer is a scored one (none skipped, each
    with an evaluation) the mean that [generate_final_report] computes for
    a category is the mean over the scored answers of the category, as
    section 4.4 of the specification writes it. *)
Lemma category_mean_without_skips (interview_results : list item)
    (c : string) :
  c ∈ categories ->
  (forall it, it ∈ interview_results -> is_Some (it_answer it) ->
              Spec.is_scored it = true) ->
  avg_scores (scores_by_type interview_results) !! c
  = Some (Spec.category_score interview_results c).
Proof.
  intros Hc Hsc. rewrite avg_scores_lookup. unfold scores_by_type.
  rewrite (track_scores_lookup _ _ c [] (initial_scores_lookup c Hc) Hsc).
  reflexivity.
Qed.

(** The figures of the specification's example: means 8, 6 and 4 for
    technical, behavioral and problem solving and no scenario answer give
    4.7 / 0.7, which binary64 evaluates to 6.714285714285713 and the
    report shows as 6.7. *)
Example overall_score_of_8_6_4 :
  let interview :=
    [Samples.scored_item "technical" (of_int 8);
     Samples.scored_item "behavioral" (of_int 6);
     Samples.scored_item "problem_solving" (of_int 4)] in
  overall_score (scores_by_type interview)
  = NFloat (S754_finite false 7559613660229045 (-50))
  /\ round_1 (overall_score (scores_by_type interview))
     = NFloat (of_tenths false 67).
Proof. split; vm_compute; reflexivity. Qed.

(** C4.  The failing session: one technical answer graded 8 and one
    skipped technical question.  The skipped answer is tracked with its
    score 0, so the technical mean and the overall score are 4 where the
    mean over the scored answers, and the session without the skip, give
    8. *)
Theorem skipped_answer_lowers_category_mean :
  avg_scores (scores_by_type Samples.interview_with_skip) !! "technical"
  = Some (NFloat (of_int 4))
  /\ avg_scores (scores_by_type Samples.interview_one_scored) !! "technical"
     = Some (NFloat Samples.f8)
  /\ Spec.category_score Samples.interview_with_skip "technical"
     = NFloat Samples.f8
  /\ overall_score (scores_by_type Samples.interview_with_skip)
     = NFloat (of_int 4)
  /\ overall_score (scores_by_type Samples.interview_one_scored)
     = NFloat Samples.f8.
Proof. repeat split; vm_compute; reflexivity. Qed.

(** In a session where every answer is a scored one, the overall score
    of the function is the weighted mean of section 4.4, taken over the
    categories that have a scored answer. *)
Lemma overall_score_without_skips (interview_results : list item) :
  (forall it, it ∈ interview_results -> is_Some (it_answer it) ->
              Spec.is_scored it = true) ->
  overall_score (scores_by_type interview_results)
  = Spec.weighted_overall interview_results.
Proof.
  intros Hsc.
  destruct (overall_score_weighted (scores_by_type interview_results))
    as [-> _].
  assert (Hlook : forall c, c ∈ categories ->
            scores_by_type interview_results !! c
            = Some (Spec.scored_scores interview_results c)).
  { intros c Hc. unfold scores_by_type.
    rewrite (track_scores_lookup _ _ c [] (initial_scores_lookup c Hc) Hsc).
    reflexivity. }
  assert (Htr : forall c, c ∈ categories ->
            Check.tracked (scores_by_type interview_results) c
            = Spec.has_scored_answer interview_results c).
  { intros c Hc. unfold Check.tracked, Spec.has_scored_answer.
    rewrite (Hlook c Hc).
    destruct (Spec.scored_scores interview_results c); reflexivity. }
  assert (Hmean : forall c, c ∈ categories ->
            Check.tracked_mean (scores_by_type interview_results) c
            = Spec.category_score interview_results c).
  { intros c Hc. unfold Check.tracked_mean, Spec.category_score.
    rewrite (Hlook c Hc). reflexivity. }
  unfold Check.weighted_tracked, Spec.weighted_overall.
  assert (Hfilter :
            filter (fun c => Check.tracked
                               (scores_by_type interview_results) c)
                   categories
            = filter (fun c => Spec.has_scored_answer interview_results c)
                     categories).
  { unfold categories in *. rewrite !filter_cons, !filter_nil.
    rewrite !Htr by set_solver. reflexivity. }
  rewrite Hfilter.
  set (scored := filter (fun c => Spec.has_scored_answer interview_results c)
                        categories).
  assert (Hsub : forall c, c ∈ scored -> c ∈ categories).
  { intros c Hc. apply list_elem_of_filter in Hc. tauto. }
  destruct scored as [|c0 scored'] eqn:Hscored; [reflexivity|].
  rewrite <- Hscored in *. clear Hscored. f_equal. unfold sum.
  apply foldl_add_ext. intros c Hc. rewrite (Hmean c (Hsub c Hc)).
  reflexivity.
Qed.

(** C5.  The failing session: one technical answer graded 8 and a skipped
    scenario question.  The scenario category has no scored answer, so
    the overall score of section 4.4 is the technical mean alone, 8.0,
    as it is for the session without the skipped question.  The function
    tracks the 0 of the skip for the scenario type, which then passes the
    guard of line 333 and enters both sums: the overall score is
    (8 * 0.4 + 0 * 0.3) / (0.4 + 0.3), which binary64 evaluates to
    4.571428571428572 and the report shows as 4.6. *)
Theorem skipped_category_enters_overall_score :
  Spec.has_scored_answer Samples.interview_skipped_scenario "technical" = true
  /\ Spec.has_scored_answer Samples.interview_skipped_scenario "scenario"
     = false
  /\ Spec.weighted_overall Samples.interview_skipped_scenario
     = NFloat Samples.f8
  /\ scores_by_type Samples.interview_skipped_scenario !! "scenario"
     = Some [NFloat Samples.f0]
  /\ overall_score (scores_by_type Samples.interview_skipped_scenario)
     = NFloat (S754_finite false 5146971002709139 (-50))
  /\ round_1 (overall_score
                (scores_by_type Samples.interview_skipped_scenario))
     = NFloat (of_tenths false 46)
  /\ overall_score (scores_by_type Samples.interview_one_scored)
     = NFloat Samples.f8.
Proof. repeat split; vm_compute; reflexivity. Qed.

(** ** Answer Scorer *)

Lemma div_half_even_bounds (num den q : Z) :
  0 <= num -> 0 < den -> num < q * den ->
  0 <= div_half_even num den <= q.
Proof.
  intros Hnum Hden Hlt. unfold div_half_even.
  assert (Hq0 : 0 <= num / den) by (apply Z.div_pos; lia).
  assert (Hq1 : num / den < q) by (apply Z.div_lt_upper_bound; lia).
  destruct (2 * (num mod den) ?= den); [destruct (Z.even _)| |]; lia.
Qed.

Lemma tenths_bounds (m : positive) (e : Z) :
  lt_int (S754_finite false m e) 10 = true ->
  0 <= tenths m e <= 100.
Proof.
  unfold lt_int, compare_int, tenths. simpl cond_Zopp.
  destruct (0 <=? e) eqn:He.
  - apply Z.leb_le in He.
    destruct (Z.pos m * 2 ^ e ?= 10) eqn:Hc; try discriminate. intros _.
    apply -> Z.compare_lt_iff in Hc.
    assert (0 <= Z.pos m * 2 ^ e) by (apply Z.mul_nonneg_nonneg; lia).
    rewrite <- Z.mul_assoc. lia.
  - apply Z.leb_gt in He.
    destruct (Z.pos m ?= 10 * 2 ^ (- e)) eqn:Hc; try discriminate. intros _.
    apply -> Z.compare_lt_iff in Hc.
    assert (0 < 2 ^ (- e)) by (apply Z.pow_pos_nonneg; lia).
    apply div_half_even_bounds; lia.
Qed.

Lemma gt_int_0_positive (s : bool) (m : positive) (e : Z) :
  gt_int (S754_finite s m e) 0 = true -> s = false.
Proof.
  unfold gt_int, compare_int. destruct s; [|reflexivity].
  simpl cond_Zopp. destruct (0 <=? e) eqn:He.
  - apply Z.leb_le in He. assert (0 < 2 ^ e) by (apply Z.pow_pos_nonneg; lia).
    destruct (- (Z.pos m * 2 ^ e) ?= 0) eqn:Hc; try discriminate.
    apply -> Z.compare_gt_iff in Hc.
    assert (0 < Z.pos m * 2 ^ e) by (apply Z.mul_pos_pos; lia). lia.
  - destruct (- Z.pos m ?= 0 * 2 ^ (- e)) eqn:Hc; discriminate.
Qed.

(** What clamping and rounding can return. *)
Lemma clamp_round_cases (x : float) :
  clamp_round x = VInt 0 \/ clamp_round x = VInt 10
  \/ exists k, 0 <= k <= 100 /\ clamp_round x = VFloat (of_tenths false k).
Proof.
  unfold clamp_round, min10. unfold num_lt.
  destruct (lt_int x 10) eqn:Hlt; [|right; left; reflexivity].
  unfold max0, num_gt. destruct (gt_int x 0) eqn:Hgt; [|left; reflexivity].
  destruct x as [s|s| |s m e]; try discriminate.
  - destruct s; discriminate.
  - pose proof (gt_int_0_positive _ _ _ Hgt) as ->.
    right; right. exists (tenths m e). split; [|reflexivity].
    apply tenths_bounds, Hlt.
Qed.

Lemma tenths_in_range_0_100 :
  forallb (fun k => Spec.float_in_0_10 (of_tenths false k)) (seqZ 0 101) = true.
Proof. vm_compute. reflexivity. Qed.

Lemma of_tenths_in_range (k : Z) :
  0 <= k <= 100 -> Spec.float_in_0_10 (of_tenths false k) = true.
Proof.
  intros Hk.
  apply (proj1 (forallb_forall _ _) tenths_in_range_0_100 k).
  apply list_elem_of_In, elem_of_seqZ. lia.
Qed.

Lemma clamp_round_valid (x : float) : Spec.valid_score (clamp_round x).
Proof.
  destruct (clamp_round_cases x) as [-> | [-> | (k & Hk & ->)]]; simpl.
  - left; reflexivity.
  - right; reflexivity.
  - split; [apply of_tenths_in_range, Hk | exists false, k; reflexivity].
Qed.

Lemma f5_valid : Spec.valid_score (VFloat f5).
Proof. split; [reflexivity | exists false, 50; reflexivity]. Qed.

(** The loops that add what is missing (lines 115-118 and 215-222): a
    key of the reply keeps its value, a missing key of the list gets the
    default, any other key stays absent. *)
Lemma fill_lookup (dflt : string -> value) (fields : list string)
    (r : gmap string value) (f : string) :
  foldl (fun r field =>
           match r !! field with
           | Some _ => r
           | None => <[field := dflt field]> r
           end) r fields !! f
  = match r !! f with
    | Some v => Some v
    | None => if bool_decide (f ∈ fields) then Some (dflt f) else None
    end.
Proof.
  revert r. induction fields as [|a fields IH]; intros r.
  - simpl. destruct (r !! f); reflexivity.
  - cbn [foldl]. rewrite IH. clear IH.
    destruct (decide (f = a)) as [->|Hne].
    + rewrite (bool_decide_eq_true_2 (a ∈ a :: fields)) by set_solver.
      destruct (r !! a) eqn:Ha; [rewrite Ha; reflexivity|].
      rewrite lookup_insert_eq. reflexivity.
    + assert (Hl : match r !! a with
                   | Some _ => r
                   | None => <[a := dflt a]> r
                   end !! f = r !! f).
      { destruct (r !! a); [reflexivity|]. apply lookup_insert_ne. congruence. }
      rewrite Hl. destruct (r !! f); [reflexivity|].
      apply option_eq. intros v.
      rewrite !(bool_decide_ext (f ∈ a :: fields) (f ∈ fields)) by set_solver.
      reflexivity.
Qed.

Lemma fill_required_lookup (o : gmap string value) (f : string) :
  fill_required o !! f
  = match o !! f with
    | Some v => Some v
    | None =>
        if bool_decide (f ∈ required_fields) then Some (default_field f)
        else None
    end.
Proof. apply (fill_lookup default_field). Qed.

Lemma score_fields_NoDup : NoDup score_fields.
Proof. unfold score_fields. repeat (apply NoDup_cons; split; [set_solver|]). apply NoDup_nil_2. Qed.

Lemma score_fields_required (f : string) :
  f ∈ score_fields -> f ∈ required_fields.
Proof. unfold score_fields, required_fields. set_solver. Qed.

Lemma default_field_score (f : string) :
  f ∈ score_fields -> default_field f = VInt 5.
Proof.
  unfold score_fields. rewrite !elem_of_cons, elem_of_nil.
  intros [->|[->|[->|[->|[->|[]]]]]]; reflexivity.
Qed.

Section Scorer.

Variable float_of_str : string -> option float.

Abbreviation normalise_value := (Engine.normalise_value float_of_str).
Abbreviation normalise_scores := (Engine.normalise_scores float_of_str).

Lemma normalise_scores_spec (fields : list string) (r : gmap string value) :
  NoDup fields ->
  match normalise_scores r fields with
  | Return r' =>
      (forall f, f ∈ fields ->
         exists v x, r !! f = Some v /\ normalise_value v = Return x
                     /\ r' !! f = Some x)
      /\ (forall f, f ∉ fields -> r' !! f = r !! f)
  | Raise e =>
      exists f, f ∈ fields
        /\ (r !! f = None
            \/ exists v, r !! f = Some v /\ normalise_value v = Raise e)
  end.
Proof.
  revert r. induction fields as [|a fields IH]; intros r Hnd.
  - simpl. split; [intros f Hf; set_solver | reflexivity].
  - apply NoDup_cons in Hnd as [Ha Hnd].
    cbn [Engine.normalise_scores]. unfold Engine.normalise_score, getitem.
    destruct (r !! a) as [v|] eqn:Hra; cbn.
    2:{ exists a. split; [set_solver | left; exact Hra]. }
    destruct (normalise_value v) as [x|e] eqn:Hv; cbn.
    2:{ exists a. split; [set_solver | right; exists v; split; assumption]. }
    specialize (IH (<[a := x]> r) Hnd).
    destruct (Engine.normalise_scores float_of_str (<[a := x]> r) fields)
      as [r'|e].
    + destruct IH as [IHin IHout]. split.
      * intros f Hf. apply elem_of_cons in Hf as [->|Hf].
        -- exists v, x. repeat split; try assumption.
           rewrite (IHout a Ha). apply lookup_insert_eq.
        -- destruct (IHin f Hf) as (v' & x' & H1 & H2 & H3).
           exists v', x'. repeat split; try assumption.
           rewrite lookup_insert_ne in H1 by (intros ->; contradiction).
           exact H1.
      * intros f Hf. rewrite IHout by set_solver.
        apply lookup_insert_ne. set_solver.
    + destruct IH as (f & Hf & Hcase).
      assert (Hne : a <> f) by (intros ->; contradiction).
      exists f. split; [set_solver|].
      rewrite lookup_insert_ne in Hcase by exact Hne. exact Hcase.
Qed.

End Scorer.

Section ScorerTheorem.

Variable float_of_str : string -> option float.
Variable service : evaluation_request -> result value.
Variables question question_type answer job_title job_description : string.

Local Abbreviation req :=
  (evaluation_request_of question question_type answer job_title
                         job_description).

(** The outcome of [evaluate_answer] in terms of the reply: one call, then
    the validated reply or the fallback of the handler. *)
Lemma evaluate_answer_run :
  run (evaluate_answer float_of_str service question question_type answer
                       job_title job_description)
  = (Return match service req with
            | Return parsed =>
                match validate float_of_str parsed with
                | Return result => result
                | Raise e => fallback_evaluation e
                end
            | Raise e => fallback_evaluation e
            end,
     [req]).
Proof.
  unfold run, evaluate_answer, try_except, call, io_lift, mbind, io_mbind,
    io_bind, mret, io_mret, io_ret.
  cbn [app].
  destruct (service req) as [parsed|e]; [|reflexivity].
  destruct (validate float_of_str parsed); reflexivity.
Qed.

Lemma fallback_evaluation_score (e : exn) (f : string) :
  f ∈ score_fields -> fallback_evaluation e !! f = Some (VFloat f5).
Proof.
  unfold score_fields. rewrite !elem_of_cons, elem_of_nil.
  intros [->|[->|[->|[->|[->|[]]]]]]; reflexivity.
Qed.

Lemma normalise_value_valid (v x : value) :
  normalise_value float_of_str v = Return x -> Spec.valid_score x.
Proof.
  unfold normalise_value. destruct (py_float float_of_str v) as [y|e].
  - intros [= <-]. apply clamp_round_valid.
  - destruct (caught_by_inner e); [|discriminate].
    intros [= <-]. apply f5_valid.
Qed.

Lemma normalise_value_default (v x : value) :
  normalise_value float_of_str v = Return x ->
  (exists e, py_float float_of_str v = Raise e) -> x = VFloat f5.
Proof.
  unfold normalise_value. intros Hx (e & He). rewrite He in Hx.
  destruct (caught_by_inner e); congruence.
Qed.

Lemma normalise_value_raise (v : value) (e : exn) :
  normalise_value float_of_str v = Raise e ->
  exists n, v = VInt n /\ float_of_int n = Raise e.
Proof.
  unfold normalise_value.
  destruct v as [|b|n|x|s|l|d]; cbn; try discriminate.
  - destruct (float_of_int n) as [y|e'] eqn:Hn; [discriminate|].
    destruct (caught_by_inner e'); [discriminate|].
    intros [= <-]. exists n. split; [reflexivity | exact Hn].
  - destruct (float_of_str s); discriminate.
Qed.

Lemma validate_dict (o : gmap string value) :
  validate float_of_str (VDict o)
  = normalise_scores float_of_str (fill_required o) score_fields.
Proof. reflexivity. Qed.

(** C3 (as amended).  Whatever the grading service does, [evaluate_answer]
    returns an evaluation after one call and raises nothing.  Each of the
    five numeric fields is a number in [0,10] with one decimal (a float
    rounded to one decimal, or the integer bound 0 or 10 that [max] and
    [min] keep), and it is 5.0 when the reply is an object in which the
    field is absent or is refused by [float].  When the reply is an object
    and no integer score overflows the conversion to a float, absent
    strengths and weaknesses become empty lists and an absent feedback the
    placeholder text.  When the call, the parsing or the validation raises,
    the evaluation is the fallback of the handler. *)
Theorem evaluate_answer_valid :
  exists ev,
    run (evaluate_answer float_of_str service question question_type answer
                         job_title job_description) = (Return ev, [req])
    /\ (forall f, f ∈ score_fields ->
          exists v, ev !! f = Some v /\ Spec.valid_score v)
    /\ (forall o, service req = Return (VDict o) ->
          (forall f, f ∈ score_fields ->
             Spec.not_numeric float_of_str (o !! f) ->
             ev !! f = Some (VFloat f5))
          /\ ((forall f, f ∈ score_fields -> ~ Spec.overflows (o !! f)) ->
              (o !! "strengths" = None ->
               ev !! "strengths" = Some (VList []))
              /\ (o !! "weaknesses" = None ->
                  ev !! "weaknesses" = Some (VList []))
              /\ (o !! "feedback" = None ->
                  ev !! "feedback"
                  = Some (VStr "No detailed feedback provided."))))
    /\ (forall e, service req = Raise e -> ev = fallback_evaluation e)
    /\ (forall parsed e,
          service req = Return parsed ->
          validate float_of_str parsed = Raise e ->
          ev = fallback_evaluation e).
Proof.
  eexists. split; [apply evaluate_answer_run|].
  destruct (service req) as [parsed|e0] eqn:Hsvc.
  2:{ (* the call or the parsing raised *)
      split; [|split; [|split]].
      - intros f Hf. exists (VFloat f5).
        split; [apply fallback_evaluation_score, Hf | apply f5_valid].
      - intros o [=].
      - intros e [= ->]. reflexivity.
      - intros parsed e [=]. }
  destruct (validate float_of_str parsed) as [r|e0] eqn:Hval.
  2:{ (* the validation raised *)
      split; [|split; [|split]].
      - intros f Hf. exists (VFloat f5).
        split; [apply fallback_evaluation_score, Hf | apply f5_valid].
      - intros o [= ->]. split.
        + intros f Hf _. apply fallback_evaluation_score, Hf.
        + intros Hfit. exfalso.
          rewrite validate_dict in Hval.
          pose proof (normalise_scores_spec float_of_str score_fields
                        (fill_required o) score_fields_NoDup) as Hspec.
          rewrite Hval in Hspec. destruct Hspec as (f & Hf & Hcase).
          rewrite fill_required_lookup in Hcase.
          rewrite (bool_decide_eq_true_2 _ (score_fields_required f Hf))
            in Hcase.
          destruct Hcase as [Hnone | (v & Hv & Hraise)].
          * destruct (o !! f); discriminate.
          * apply normalise_value_raise in Hraise as (n & -> & Hn).
            destruct (o !! f) as [v|] eqn:Hof.
            -- apply (Hfit f Hf). exists n, e0. rewrite Hof.
               split; [exact Hv | exact Hn].
            -- rewrite (default_field_score f Hf) in Hv.
               injection Hv as <-. discriminate Hn.
      - intros e [=].
      - intros parsed' e [= <-]. rewrite Hval. intros [= ->]. reflexivity. }
  (* the reply was validated *)
  destruct parsed as [| | | | | |o]; try discriminate.
  rewrite validate_dict in Hval.
  pose proof (normalise_scores_spec float_of_str score_fields
                (fill_required o) score_fields_NoDup) as Hspec.
  rewrite Hval in Hspec. destruct Hspec as [Hin Hout].
  split; [|split; [|split]].
  - intros f Hf. destruct (Hin f Hf) as (v & x & _ & Hx & Hr).
    exists x. split; [exact Hr | exact (normalise_value_valid v x Hx)].
  - intros o' [= <-]. split.
    + intros f Hf Hnn. destruct (Hin f Hf) as (v & x & Hv & Hx & Hr).
      rewrite Hr. f_equal.
      rewrite fill_required_lookup in Hv.
      rewrite (bool_decide_eq_true_2 _ (score_fields_required f Hf)) in Hv.
      destruct (o !! f) as [v0|] eqn:Hof.
      * injection Hv as ->. apply (normalise_value_default v x Hx). exact Hnn.
      * rewrite (default_field_score f Hf) in Hv. injection Hv as <-.
        assert (Hfive : normalise_value float_of_str (VInt 5)
                        = Return (VFloat f5)) by (vm_compute; reflexivity).
        congruence.
    + intros _.
      assert (Hkeep : forall f, f ∉ score_fields -> f ∈ required_fields ->
                o !! f = None -> r !! f = Some (default_field f)).
      { intros f Hf Hreq Hof. rewrite (Hout f Hf), fill_required_lookup, Hof.
        rewrite (bool_decide_eq_true_2 _ Hreq). reflexivity. }
      repeat split; intros Hof; apply Hkeep; try exact Hof;
        apply (bool_decide_unpack _); vm_compute; exact I.
  - intros e [=].
  - intros parsed' e [= <-]. rewrite validate_dict, Hval. discriminate.
Qed.

End ScorerTheorem.

(** C3, counterexample.  The reply is an object whose only field is an
    integer score of 400 digits: [float] raises [OverflowError], which the
    inner handler does not catch, so the outer handler answers: strengths
    is absent from the reply and yet not empty in the evaluation.  And a
    score of 15 comes back as the integer 10, not as a float. *)
Lemma huge_score_takes_fallback :
  Samples.reply_huge_score !! "strengths" = None
  /\ (exists ev,
        fst (run (evaluate_answer Samples.no_numeric_string
                    Samples.grader_huge_score "Describe a design."
                    "technical" "I split the service in two." "Engineer"
                    "Builds services."))
        = Return ev
        /\ ev !! "strengths"
           = Some (VList [VStr "Unable to properly evaluate response"])
        /\ ev !! "strengths" <> Some (VList [])
        /\ ev !! "score" = Some (VFloat f5))
  /\ (exists ev,
        fst (run (evaluate_answer Samples.no_numeric_string
                    Samples.grader_score_15 "Describe a design."
                    "technical" "I split the service in two." "Engineer"
                    "Builds services."))
        = Return ev
        /\ ev !! "score" = Some (VInt 10)).
Proof.
  split; [reflexivity|]. split.
  - rewrite evaluate_answer_run. cbn [fst]. eexists. split; [reflexivity|].
    repeat split; try (vm_compute; reflexivity).
    vm_compute. discriminate.
  - rewrite evaluate_answer_run. cbn [fst]. eexists. split; [reflexivity|].
    vm_compute. reflexivity.
Qed.

(** ** Final report *)

(** *** Line 317: when it raises, and what it computes when it does not *)

Lemma float_of_int_value (n : Z) (x : float) :
  float_of_int n = Return x -> x = of_int n.
Proof.
  unfold float_of_int. destruct (of_int n); intros H;
    first [discriminate H | injection H as <-; reflexivity].
Qed.

Lemma to_float_exn_value (a : num) (x : float) :
  to_float_exn a = Return x -> x = to_float a.
Proof.
  destruct a as [n|y]; cbn [to_float_exn to_float].
  - apply float_of_int_value.
  - intros H. injection H as <-. reflexivity.
Qed.










Lemma add_exn_float_or_zero (a b : num) :
  Check.float_or_zero a = true -> Check.float_or_zero b = true ->
  exists c, add_exn a b = Return c /\ Check.float_or_zero c = true.
Proof.
  destruct a as [m|x], b as [n|y]; cbn [Check.float_or_zero]; intros Ha Hb;
    try apply Z.eqb_eq in Ha; try apply Z.eqb_eq in Hb; subst;
    eexists; (split; [reflexivity|reflexivity]).
Qed.

Lemma sum_exn_returns_from (xs : list num) (a : num) :
  Check.float_or_zero a = true ->
  Forall (fun x => Check.float_or_zero x = true) xs ->
  exists t,
    foldl (fun acc x => bind acc (fun total => add_exn total x))
          (Return a) xs
    = Return t
    /\ Check.float_or_zero t = true.
Proof.
  intros Ha Hxs. revert a Ha.
  induction Hxs as [|x xs Hx _ IH]; intros a Ha; cbn [foldl bind].
  - eauto.
  - destruct (add_exn_float_or_zero a x Ha Hx) as (b & -> & Hb).
    apply IH, Hb.
Qed.

Lemma truediv_len_exn_returns {A} (a : num) (x : A) (xs : list A) :
  Check.float_or_zero a = true ->
  exists v, truediv_len_exn a (x :: xs) = Return v.
Proof.
  destruct a as [m|y]; cbn [Check.float_or_zero]; intros Ha.
  - apply Z.eqb_eq in Ha as ->. eexists. reflexivity.
  - eexists. reflexivity.
Qed.

(** Floats, and the [0] of a missing score, are averaged without an
    exception. *)
Lemma average_exn_returns (scores : list num) :
  Forall (fun x => Check.float_or_zero x = true) scores ->
  exists v, average_exn scores = Return v.
Proof.
  intros Hs. unfold average_exn. destruct scores as [|x xs]; [eauto|].
  destruct (sum_exn_returns_from (x :: xs) (NInt 0) eq_refl Hs)
    as (t & Ht & Hz).
  unfold sum_exn. rewrite Ht. cbn [bind].
  apply truediv_len_exn_returns, Hz.
Qed.

Lemma avg_scores_loop_returns (sbt : gmap string (list num))
    (cats : list string) (acc : gmap string num) :
  (forall c scores, sbt !! c = Some scores ->
                    Forall (fun x => Check.float_or_zero x = true) scores) ->
  exists avg,
    foldl (avg_scores_step sbt) (Return acc) cats
    = Return avg.
Proof.
  intros Hsbt. revert acc.
  induction cats as [|c cats IH]; intros acc; cbn [foldl]; [eauto|].
  unfold avg_scores_step at 2. cbn [bind].
  destruct (sbt !! c) as [scores|] eqn:Hc; [|apply IH].
  destruct (average_exn_returns scores (Hsbt c scores Hc)) as [v ->].
  cbn [bind]. apply IH.
Qed.

Lemma track_score_float_or_zero (m : gmap string (list num)) (it : item) :
  match it_answer it with
  | Some a => Check.float_or_zero (answer_score a) = true
  | None => True
  end ->
  (forall c scores, m !! c = Some scores ->
                    Forall (fun x => Check.float_or_zero x = true) scores) ->
  forall c scores, track_score m it !! c = Some scores ->
                   Forall (fun x => Check.float_or_zero x = true) scores.
Proof.
  intros Hit Hm c scores. unfold track_score.
  destruct (it_answer it) as [a|]; [|apply Hm].
  destruct (m !! item_type it) as [l|] eqn:Hl; [|apply Hm].
  destruct (decide (c = item_type it)) as [->|Hne].
  - rewrite lookup_insert_eq. intros H. injection H as <-.
    apply Forall_app. split; [exact (Hm _ _ Hl)|].
    constructor; [exact Hit | constructor].
  - rewrite lookup_insert_ne by congruence. apply Hm.
Qed.

Lemma scores_by_type_float_or_zero (interview_results : list item) :
  Check.scores_float_or_zero interview_results = true ->
  forall c scores,
    scores_by_type interview_results !! c = Some scores ->
    Forall (fun x => Check.float_or_zero x = true) scores.
Proof.
  unfold Check.scores_float_or_zero, scores_by_type.
  assert (Hinit : forall c scores,
            initial_scores_by_type !! c = Some scores ->
            Forall (fun x => Check.float_or_zero x = true) scores).
  { intros c scores H. unfold initial_scores_by_type in H.
    apply elem_of_list_to_map_2 in H.
    rewrite !elem_of_cons, elem_of_nil in H.
    destruct H as [H|[H|[H|[H|[]]]]]; injection H as -> ->; constructor. }
  revert Hinit. generalize initial_scores_by_type as m.
  induction interview_results as [|it items IH]; intros m Hm;
    cbn [forallb foldl]; [intros _; exact Hm|].
  intros [Hit Hitems]%andb_true_iff.
  apply IH; [|exact Hitems].
  apply track_score_float_or_zero; [|exact Hm].
  destruct (it_answer it); [exact Hit | exact I].
Qed.

(** In a session whose scores are floats (or missing), line 317 raises
    nothing. *)
Lemma avg_scores_exn_returns (interview_results : list item) :
  Check.scores_float_or_zero interview_results = true ->
  exists avg, avg_scores_exn (scores_by_type interview_results) = Return avg.
Proof.
  intros H. apply avg_scores_loop_returns.
  apply scores_by_type_float_or_zero, H.
Qed.

(** *** The outcome of the function *)

(** The outcome of [generate_final_report] in terms of line 317 and of
    the reply.  A mean that raises sends the function to its handler
    before any call.  Otherwise there is one call, and then the reply
    with the scores and the completion rate set, or the report of the
    handler. *)
Lemma generate_final_report_run
    (service : report_request -> result value)
    (job_title job_description resume_text : string)
    (interview_results : list item) :
  let req := report_request_of job_title job_description resume_text
                               interview_results in
  run (generate_final_report service job_title job_description resume_text
                             interview_results)
  = match avg_scores_exn (scores_by_type interview_results) with
    | Raise e => (Return (VDict (fallback_report e)), [])
    | Return _ =>
        (Return
           (VDict
              match service req with
              | Return (VDict assessment) =>
                  <["completion_rate" :=
                      value_of_num (completion_rate interview_results)]>
                    (<["scores" :=
                         scores (scores_by_type interview_results)]>
                       assessment)
              | Return _ =>
                  fallback_report
                    (Exn TypeError "object does not support item assignment")
              | Raise e => fallback_report e
              end),
         [req])
    end.
Proof.
  intros req.
  unfold run, generate_final_report, try_except, call, io_lift, mbind,
    io_mbind, io_bind, mret, io_mret, io_ret.
  fold req. cbn [app].
  destruct (avg_scores_exn _) as [avg|e0]; [|reflexivity].
  destruct (service req) as [[]|e]; reflexivity.
Qed.







(** An answer whose evaluation holds an integer score of 400 digits: the
    sum of line 317 cannot add it to the 8.0 before it, the function
    makes no call and the report is the one of the handler, which quotes
    the exception. *)
Example huge_score_report_makes_no_call :
  avg_scores_exn (scores_by_type Samples.interview_huge_score)
  = Raise (Exn OverflowError "int too large to convert to float")
  /\ exists report,
      run (generate_final_report Samples.service_hire "Engineer"
             "Builds services." "Ten years of services."
             Samples.interview_huge_score)
      = (Return (VDict report), [])
      /\ report !! "recommendation" = Some (VStr "Unable to determine")
      /\ report !! "reasoning"
         = Some (VStr ("An error occurred during the final assessment: "
                       +:+ "int too large to convert to float")).
Proof.
  assert (H : avg_scores_exn (scores_by_type Samples.interview_huge_score)
              = Raise (Exn OverflowError "int too large to convert to float"))
    by (vm_compute; reflexivity).
  split; [exact H|].
  rewrite generate_final_report_run, H.
  eexists. split; [reflexivity|]. split; reflexivity.
Qed.

(** C8.  The failing call: the session has one technical answer graded
    8 and the service cannot be reached.  The report of the handler has
    the placeholder recommendation, but its scores and its completion
    rate are the zeros the handler sets first, not the 8.0 and the 1.0
    computed from the answers. *)
Theorem failed_report_drops_local_scores :
  exists report,
    fst (run (generate_final_report Samples.service_down "Engineer"
                "Builds services." "Ten years of services."
                Samples.interview_one_scored))
    = Return (VDict report)
    /\ report !! "recommendation" = Some (VStr "Unable to determine")
    /\ report !! "scores" = Some handler_scores
    /\ report !! "completion_rate" = Some (VInt 0)
    /\ scores (scores_by_type Samples.interview_one_scored)
       = VDict (list_to_map
                  [("overall", VFloat Samples.f8);
                   ("technical", VFloat Samples.f8);
                   ("scenario", VInt 0); ("behavioral", VInt 0);
                   ("problem_solving", VInt 0)])
    /\ completion_rate Samples.interview_one_scored = NFloat (of_int 1).
Proof.
  rewrite generate_final_report_run.
  destruct (avg_scores_exn_returns Samples.interview_one_scored eq_refl)
    as [avg ->].
  cbn [fst Samples.service_down].
  eexists. split; [reflexivity|].
  repeat split; vm_compute; reflexivity.
Qed.

(** ** Question Planner *)

Lemma generate_questions_run
    (service : questions_request -> result value)
    (job_title job_description resume_text : string) (num_questions : Z) :
  run (generate_questions service job_title job_description resume_text
                          num_questions)
  = match counts_or_raise num_questions with
    | Raise _ => (Return empty_questions, [])
    | Return counts =>
        let req := questions_request_of job_title job_description
                                        resume_text counts in
        (Return
           match service req with
           | Return (VDict o) =>
               match total_generated (ensure_categories o) categories with
               | Return _ => ensure_categories o
               | Raise _ => empty_questions
               end
           | _ => empty_questions
           end,
         [req])
    end.
Proof.
  unfold run, generate_questions, try_except, call, io_lift, mbind,
    io_mbind, io_bind, mret, io_mret, io_ret.
  destruct (counts_or_raise num_questions) as [counts|e]; [|reflexivity].
  cbn [app]. cbv zeta.
  destruct (service _) as [[]|e]; try reflexivity.
  unfold as_dict.
  destruct (total_generated (ensure_categories d) categories); reflexivity.
Qed.

Lemma legacy_generate_questions_run
    (service : LegacyEngine.questions_request -> result value)
    (sap_module job_description resume_text : string) (num_questions : Z) :
  run (LegacyEngine.generate_questions service sap_module job_description
                                       resume_text num_questions)
  = match counts_or_raise num_questions with
    | Raise e => (Raise e, [])
    | Return counts =>
        let req := LegacyEngine.questions_request_of
                     sap_module job_description resume_text counts in
        (service req, [req])
    end.
Proof.
  unfold run, LegacyEngine.generate_questions, try_except, call, io_lift,
    mbind, io_mbind, io_bind, mret, io_mret, io_ret, io_raise.
  destruct (counts_or_raise num_questions) as [counts|e].
  - cbn [app]. cbv zeta. destruct (service _) as [v|e]; [reflexivity|].
    destruct (exn_kind e); reflexivity.
  - destruct (exn_kind e); reflexivity.
Qed.

Lemma ensure_categories_lookup (o : gmap string value) (c : string) :
  ensure_categories o !! c
  = match o !! c with
    | Some v => Some v
    | None => if bool_decide (c ∈ categories) then Some (VList []) else None
    end.
Proof. apply (fill_lookup (fun _ => VList [])). Qed.

Lemma empty_questions_lookup (c : string) :
  c ∈ categories -> empty_questions !! c = Some (VList []).
Proof.
  unfold categories. rewrite !elem_of_cons, elem_of_nil.
  intros [->|[->|[->|[->|[]]]]]; reflexivity.
Qed.

(** C10.  Whatever the service does, [generate_questions] of the new
    engine returns a mapping that has the four categories; a category
    that the reply of the service leaves out is an empty list in it. *)
Theorem generate_questions_has_all_categories
    (service : questions_request -> result value)
    (job_title job_description resume_text : string) (num_questions : Z) :
  exists questions,
    fst (run (generate_questions service job_title job_description
                                 resume_text num_questions))
    = Return questions
    /\ (forall c, c ∈ categories -> is_Some (questions !! c))
    /\ (forall counts o c,
          counts_or_raise num_questions = Return counts ->
          service (questions_request_of job_title job_description
                                        resume_text counts)
          = Return (VDict o) ->
          c ∈ categories -> o !! c = None ->
          questions !! c = Some (VList [])).
Proof.
  rewrite generate_questions_run.
  destruct (counts_or_raise num_questions) as [counts|e].
  2:{ eexists. split; [reflexivity|]. split.
      - intros c Hc. rewrite (empty_questions_lookup c Hc). eauto.
      - intros counts o c [=]. }
  cbv zeta. cbn [fst]. eexists. split; [reflexivity|].
  set (req := questions_request_of _ _ _ counts).
  assert (Hcase :
    match service req with
    | Return (VDict o) =>
        match total_generated (ensure_categories o) categories with
        | Return _ => ensure_categories o
        | Raise _ => empty_questions
        end
    | _ => empty_questions
    end = empty_questions
    \/ exists o, service req = Return (VDict o)
         /\ match service req with
            | Return (VDict o) =>
                match total_generated (ensure_categories o) categories with
                | Return _ => ensure_categories o
                | Raise _ => empty_questions
                end
            | _ => empty_questions
            end = ensure_categories o).
  { destruct (service req) as [[| | | | | |o]|e]; try (left; reflexivity).
    destruct (total_generated (ensure_categories o) categories);
      [right; exists o; split; reflexivity | left; reflexivity]. }
  destruct Hcase as [-> | (o & Ho & ->)].
  - split.
    + intros c Hc. rewrite (empty_questions_lookup c Hc). eauto.
    + intros counts' o c _ _ Hc _. apply empty_questions_lookup, Hc.
  - split.
    + intros c Hc. rewrite ensure_categories_lookup.
      rewrite (bool_decide_eq_true_2 _ Hc). destruct (o !! c); eauto.
    + intros counts' o' c [= <-]. fold req. rewrite Ho. intros [= <-] Hc Hoc.
      rewrite ensure_categories_lookup, Hoc.
      rewrite (bool_decide_eq_true_2 _ Hc). reflexivity.
Qed.

(** C7 (as amended).  When the call for questions fails, by an exception
    or by a response that is no object, [generate_questions] of the new
    engine returns the four categories empty and raises nothing; the
    [generate_questions] of the older engine logs the exception and raises
    it again to its caller. *)
Theorem generate_questions_on_failure
    (job_title job_description resume_text : string) (num_questions : Z) :
  (forall service : questions_request -> result value,
     (forall counts,
        counts_or_raise num_questions = Return counts ->
        Spec.call_failed
          (service (questions_request_of job_title job_description
                                         resume_text counts))) ->
     fst (run (generate_questions service job_title job_description
                                  resume_text num_questions))
     = Return empty_questions)
  /\ (forall (service : LegacyEngine.questions_request -> result value)
             counts e,
        counts_or_raise num_questions = Return counts ->
        service (LegacyEngine.questions_request_of
                   job_title job_description resume_text counts)
        = Raise e ->
        fst (run (LegacyEngine.generate_questions service job_title
                    job_description resume_text num_questions))
        = Raise e).
Proof.
  split.
  - intros service Hfail. rewrite generate_questions_run.
    destruct (counts_or_raise num_questions) as [counts|e]; [|reflexivity].
    cbv zeta. cbn [fst]. specialize (Hfail counts eq_refl).
    destruct (service _) as [[]|e]; try reflexivity. destruct Hfail.
  - intros service counts e Hc Hsvc. rewrite legacy_generate_questions_run.
    rewrite Hc. cbv zeta. cbn [fst]. exact Hsvc.
Qed.

(** C7, counterexample.  The older engine with a service that cannot be
    reached: the exception reaches the caller. *)
Lemma legacy_generate_questions_raises :
  fst (run (LegacyEngine.generate_questions Samples.service_down "FI"
              "Builds services." "Ten years of services." 10))
  = Raise Samples.connection_error.
Proof. vm_compute. reflexivity. Qed.

(** ** Persistence *)

(** C9, counterexample.  Question 7 has an answer; a second answer and
    then a skip for it are stored all the same and get the ids 2 and 3:
    three rows for one question, and no error. *)
Lemma second_answer_is_stored :
  length (Database.answers_of Samples.db_answered 7) = 1%nat
  /\ exists st',
      Database.save_interview_answer None Samples.db_answered 7
                                     Samples.second_answer
      = (Some 2, st')
      /\ length (Database.answers_of st' 7) = 2%nat
      /\ exists st'',
          UI.skip_question None st' 7 = (Some 3, st'')
          /\ length (Database.answers_of st'' 7) = 3%nat.
Proof.
  split; [reflexivity|].
  eexists. split; [reflexivity|]. split; [reflexivity|].
  eexists. split; reflexivity.
Qed.

(** C9 (as amended).  [save_interview_answer] checks neither for an answer
    already stored nor for the session of the question, and it raises
    nothing.  When the question id is a row of [interview_questions_new]
    and the connection works, it inserts one more row for the question and
    returns its id, however many rows the question already has; when the
    id is unknown or the connection fails, it returns [None] and stores
    nothing. *)
Theorem save_interview_answer_appends
    (fault : option exn) (st : Database.db) (question_id : Z)
    (answer_data : Database.answer_data) :
  (fault = None -> Database.question_exists st question_id = true ->
   exists row st',
     Database.save_interview_answer fault st question_id answer_data
     = (Some (Database.interview_answers_id_seq st + 1), st')
     /\ Database.interview_answers st'
        = Database.interview_answers st ++ [row]
     /\ Database.a_id row = Database.interview_answers_id_seq st + 1
     /\ Database.a_question_id row = question_id
     /\ length (Database.answers_of st' question_id)
        = S (length (Database.answers_of st question_id)))
  /\ (fault <> None \/ Database.question_exists st question_id = false ->
      Database.save_interview_answer fault st question_id answer_data
      = (None, st)).
Proof.
  unfold Database.save_interview_answer, Database.execute_insert.
  split.
  - intros -> ->. eexists. eexists. split; [reflexivity|].
    cbn [Database.interview_answers Database.a_id Database.a_question_id].
    repeat split.
    unfold Database.answers_of.
    cbn [Database.interview_answers]. rewrite filter_app, length_app.
    rewrite filter_cons, filter_nil. cbn [Database.a_question_id].
    rewrite decide_True by reflexivity. cbn [length]. lia.
  - intros [Hf | Hq].
    + destruct fault; [reflexivity | contradiction].
    + rewrite Hq. destruct fault; reflexivity.
Qed.

(** * Further properties of the code *)

(** ** Aggregation: which items are tracked *)

Lemma track_score_is_Some (m : gmap string (list num)) (it : item)
    (c : string) :
  is_Some (track_score m it !! c) <-> is_Some (m !! c).
Proof.
  unfold track_score. destruct (it_answer it) as [a|]; [|reflexivity].
  destruct (m !! item_type it) as [l|] eqn:Hl; [|reflexivity].
  destruct (decide (item_type it = c)) as [<-|Hne].
  - rewrite lookup_insert_eq, Hl. split; eauto.
  - rewrite lookup_insert_ne by exact Hne. reflexivity.
Qed.

Lemma foldl_track_score_is_Some (items : list item)
    (m : gmap string (list num)) (c : string) :
  is_Some (foldl track_score m items !! c) <-> is_Some (m !! c).
Proof.
  revert m. induction items as [|it items IH]; intros m; [reflexivity|].
  cbn [foldl]. rewrite IH. apply track_score_is_Some.
Qed.

Lemma initial_scores_is_Some (c : string) :
  is_Some (initial_scores_by_type !! c) <-> c ∈ categories.
Proof.
  split.
  - intros [l Hl]. unfold categories. rewrite !elem_of_cons.
    destruct (decide (c = "technical")) as [|H1]; [tauto|].
    destruct (decide (c = "scenario")) as [|H2]; [tauto|].
    destruct (decide (c = "behavioral")) as [|H3]; [tauto|].
    destruct (decide (c = "problem_solving")) as [|H4]; [tauto|].
    exfalso. unfold initial_scores_by_type in Hl.
    cbn [list_to_map foldr fst snd] in Hl.
    rewrite !lookup_insert_ne, lookup_empty in Hl by congruence.
    discriminate.
  - intros Hc. rewrite (initial_scores_lookup c Hc). eauto.
Qed.

Lemma tracked_keys (interview_results : list item) (c : string) :
  is_Some (foldl track_score initial_scores_by_type interview_results !! c)
  <-> c ∈ categories.
Proof.
  rewrite foldl_track_score_is_Some. apply initial_scores_is_Some.
Qed.

(** The loop of lines 283-301 never adds a category and never drops one:
    whatever the items, the tracked scores have exactly the four keys of
    the literal of lines 276-281. *)
Theorem scores_by_type_keys (interview_results : list item) (c : string) :
  is_Some (scores_by_type interview_results !! c) <-> c ∈ categories.
Proof.
  unfold scores_by_type. rewrite foldl_track_score_is_Some.
  apply initial_scores_is_Some.
Qed.

(** An item without an answer, and an item whose type, lower-cased, is
    none of the four categories, changes no tracked score: the scores of
    the report are those of the session without it.  It still counts as a
    question of the session. *)
Theorem untracked_item_changes_no_score (before after : list item)
    (it : item) :
  it_answer it = None \/ item_type it ∉ categories ->
  scores_by_type (before ++ it :: after) = scores_by_type (before ++ after)
  /\ scores (scores_by_type (before ++ it :: after))
     = scores (scores_by_type (before ++ after))
  /\ total_questions (before ++ it :: after)
     = total_questions (before ++ after) + 1.
Proof.
  intros Hit.
  assert (Heq : scores_by_type (before ++ it :: after)
                = scores_by_type (before ++ after)).
  { unfold scores_by_type. rewrite !foldl_app. cbn [foldl]. f_equal.
    pose proof (tracked_keys before (item_type it)) as Hkeys.
    set (m := foldl track_score initial_scores_by_type before) in *.
    unfold track_score. destruct Hit as [-> | Hty]; [reflexivity|].
    destruct (it_answer it) as [a|]; [|reflexivity].
    destruct (m !! item_type it) as [l|]; [|reflexivity].
    exfalso. apply Hty, Hkeys. eauto. }
  split; [exact Heq|]. split; [rewrite Heq; reflexivity|].
  unfold total_questions. rewrite !length_app. cbn [length]. lia.
Qed.

(** ** Final report: what the function sets itself *)



Lemma fallback_report_but_reasoning (e e' : exn) (k : string) :
  k <> "reasoning" -> fallback_report e !! k = fallback_report e' !! k.
Proof.
  intros Hk. unfold fallback_report. cbn [list_to_map foldr fst snd].
  repeat (match goal with
          | |- <[?key := _]> _ !! _ = _ =>
              destruct (decide (k = key)) as [->|Hne];
              [rewrite !lookup_insert_eq; try reflexivity; contradiction
              |rewrite !(lookup_insert_ne _ key k) by congruence;
               clear Hne]
          end).
  reflexivity.
Qed.

(** On the failure path (lines 443-493) nothing of the session is left in
    the report: whatever the answers were, when the call raises or the
    reply is no object, the report is the fixed one of the handler, its
    scores all 0, its completion rate 0 and its recommendation the
    placeholder; only the reasoning quotes the exception. *)
Theorem failed_report_is_the_same_for_every_session
    (service : report_request -> result value)
    (job_title job_description resume_text : string)
    (interview_results : list item) :
  (forall assessment,
     service (report_request_of job_title job_description resume_text
                                interview_results)
     <> Return (VDict assessment)) ->
  exists e,
    fst (run (generate_final_report service job_title job_description
                                    resume_text interview_results))
    = Return (VDict (fallback_report e))
    /\ fallback_report e !! "scores" = Some handler_scores
    /\ fallback_report e !! "completion_rate" = Some (VInt 0)
    /\ fallback_report e !! "recommendation"
       = Some (VStr "Unable to determine")
    /\ forall e' k, k <> "reasoning" ->
         fallback_report e !! k = fallback_report e' !! k.
Proof.
  intros Hno. rewrite generate_final_report_run.
  destruct (avg_scores_exn _) as [avg|e0]; cbn [fst].
  - destruct (service _) as [[]|e].
    7:{ exfalso. eapply Hno. reflexivity. }
    all: eexists; split; [reflexivity|];
      repeat split; try reflexivity;
      intros e' k; apply fallback_report_but_reasoning.
  - eexists; split; [reflexivity|];
      repeat split; try reflexivity;
      intros e' k; apply fallback_report_but_reasoning.
Qed.

Lemma failed_report_is_the_same_for_every_session_witness :
  (forall assessment,
     @Samples.service_down report_request
       (report_request_of "Engineer" "Builds services."
                          "Ten years of services."
                          Samples.interview_with_skip)
     <> Return (VDict assessment))
  /\ exists e,
      fst (run (generate_final_report Samples.service_down "Engineer"
                  "Builds services." "Ten years of services."
                  Samples.interview_with_skip))
      = Return (VDict (fallback_report e))
      /\ fallback_report e !! "scores" = Some handler_scores
      /\ fallback_report e !! "completion_rate" = Some (VInt 0)
      /\ fallback_report e !! "recommendation"
         = Some (VStr "Unable to determine")
      /\ forall e' k, k <> "reasoning" ->
           fallback_report e !! k = fallback_report e' !! k.
Proof.
  assert (H : forall assessment,
     @Samples.service_down report_request
       (report_request_of "Engineer" "Builds services."
                          "Ten years of services."
                          Samples.interview_with_skip)
     <> Return (VDict assessment)) by (intros assessment; discriminate).
  split; [exact H|].
  apply failed_report_is_the_same_for_every_session. exact H.
Defined.

(** ** Answer Scorer: what is passed through, and the ends of the range *)

Lemma float_same_eq (x y : float) : Check.float_same x y = true -> x = y.
Proof.
  destruct x as [s|s| |s m e], y as [t|t| |t n f]; cbn; try discriminate.
  - intros H. apply Bool.eqb_prop in H. congruence.
  - intros H. apply Bool.eqb_prop in H. congruence.
  - reflexivity.
  - rewrite !andb_true_iff. intros [[Hs Hm] He].
    apply Bool.eqb_prop in Hs. apply Pos.eqb_eq in Hm. apply Z.eqb_eq in He.
    congruence.
Qed.

Lemma tenths_1_99_are_kept :
  forallb Check.tenth_is_kept (seqZ 1 99) = true.
Proof. vm_compute. reflexivity. Qed.

Section ScorerFields.

Variable float_of_str : string -> option float.

(** Without an integer too large for [float], the validation of an
    object returns: every score field is normalised and the other fields
    are those of the completed reply. *)
Lemma validate_returns (o : gmap string value) :
  (forall f, f ∈ score_fields -> ~ Spec.overflows (o !! f)) ->
  exists r,
    validate float_of_str (VDict o) = Return r
    /\ (forall f, f ∈ score_fields -> is_Some (r !! f))
    /\ (forall f, f ∉ score_fields -> r !! f = fill_required o !! f).
Proof.
  intros Hfit. rewrite validate_dict.
  pose proof (normalise_scores_spec float_of_str score_fields
                (fill_required o) score_fields_NoDup) as Hspec.
  destruct (normalise_scores float_of_str (fill_required o) score_fields)
    as [r|e].
  - exists r. destruct Hspec as [Hin Hout]. split; [reflexivity|].
    split; [|exact Hout].
    intros f Hf. destruct (Hin f Hf) as (v & x & _ & _ & Hr). eauto.
  - exfalso. destruct Hspec as (f & Hf & Hcase).
    rewrite fill_required_lookup in Hcase.
    rewrite (bool_decide_eq_true_2 _ (score_fields_required f Hf)) in Hcase.
    destruct Hcase as [Hnone | (v & Hv & Hraise)].
    + destruct (o !! f); discriminate.
    + apply normalise_value_raise in Hraise as (n & -> & Hn).
      destruct (o !! f) as [v|] eqn:Hof.
      * apply (Hfit f Hf). exists n, e. rewrite Hof.
        split; [exact Hv | exact Hn].
      * rewrite (default_field_score f Hf) in Hv.
        injection Hv as <-. discriminate Hn.
Qed.

(** Only the five score fields are rewritten (lines 225-232).  When the
    reply is an object and no integer score is too large for [float],
    every other field of the reply, the three texts as well as any field
    the prompt did not ask for, is returned as the service wrote it, and
    the evaluation has the keys of the reply and the eight required ones,
    no other. *)
Theorem evaluate_answer_keeps_other_fields
    (service : evaluation_request -> result value)
    (question question_type answer job_title job_description : string)
    (o : gmap string value) :
  service (evaluation_request_of question question_type answer job_title
                                 job_description)
  = Return (VDict o) ->
  (forall f, f ∈ score_fields -> ~ Spec.overflows (o !! f)) ->
  exists ev,
    fst (run (evaluate_answer float_of_str service question question_type
                              answer job_title job_description))
    = Return ev
    /\ (forall k v, k ∉ score_fields -> o !! k = Some v -> ev !! k = Some v)
    /\ (forall k, is_Some (ev !! k)
                  <-> is_Some (o !! k) \/ k ∈ required_fields).
Proof.
  intros Hsvc Hfit. rewrite evaluate_answer_run. cbn [fst]. rewrite Hsvc.
  destruct (validate_returns o Hfit) as (r & -> & Hin & Hout).
  exists r. split; [reflexivity|]. split.
  - intros k v Hk Hov. rewrite (Hout k Hk), fill_required_lookup, Hov.
    reflexivity.
  - intros k. destruct (decide (k ∈ score_fields)) as [Hk|Hk].
    + split; [intros _; right; apply score_fields_required, Hk|].
      intros _. apply Hin, Hk.
    + rewrite (Hout k Hk), fill_required_lookup.
      destruct (o !! k) as [v|].
      * split; eauto.
      * case_bool_decide as Hreq.
        -- split; eauto.
        -- split; [intros [? [=]] | intros [[? [=]] | ?]; contradiction].
Qed.

(** A score that is not below 10 comes back as the integer 10 and a
    score that is not above 0 as the integer 0 (line 229).  The test
    [x < 10] is false for NaN, which [json.loads] reads from the text
    NaN: a NaN score comes back as 10. *)
Theorem out_of_range_score_becomes_bound (x : float) :
  (lt_int x 10 = false ->
   normalise_value float_of_str (VFloat x) = Return (VInt 10))
  /\ (lt_int x 10 = true -> gt_int x 0 = false ->
      normalise_value float_of_str (VFloat x) = Return (VInt 0))
  /\ normalise_value float_of_str (VFloat S754_nan) = Return (VInt 10)
  /\ normalise_value float_of_str (VFloat (S754_infinity true))
     = Return (VInt 0).
Proof.
  unfold normalise_value, clamp_round, min10, max0, num_lt, num_gt.
  cbn [py_float]. repeat split.
  - intros ->. reflexivity.
  - intros -> ->. reflexivity.
Qed.

(** A score that already has one decimal and lies strictly between 0 and
    10 is returned as it is: clamping and rounding change none of 0.1,
    0.2, ..., 9.9. *)
Theorem one_decimal_score_is_kept (k : Z) :
  1 <= k <= 99 ->
  normalise_value float_of_str (VFloat (of_tenths false k))
  = Return (VFloat (of_tenths false k)).
Proof.
  intros Hk.
  assert (Hkept : Check.tenth_is_kept k = true).
  { apply (proj1 (forallb_forall _ _) tenths_1_99_are_kept k).
    apply list_elem_of_In, elem_of_seqZ. lia. }
  unfold Check.tenth_is_kept in Hkept. unfold normalise_value.
  cbn [py_float].
  destruct (clamp_round (of_tenths false k)); try discriminate.
  apply float_same_eq in Hkept. rewrite Hkept. reflexivity.
Qed.

End ScorerFields.

Lemma evaluate_answer_keeps_other_fields_witness :
  exists ev,
    fst (run (evaluate_answer Samples.no_numeric_string
                Samples.grader_score_15 "Describe a design." "technical"
                "I split the service in two." "Engineer" "Builds services."))
    = Return ev
    /\ (forall k v, k ∉ score_fields ->
          Samples.reply_score_15 !! k = Some v -> ev !! k = Some v)
    /\ (forall k, is_Some (ev !! k)
                  <-> is_Some (Samples.reply_score_15 !! k)
                      \/ k ∈ required_fields).
Proof.
  apply (evaluate_answer_keeps_other_fields Samples.no_numeric_string
           Samples.grader_score_15 "Describe a design." "technical"
           "I split the service in two." "Engineer" "Builds services."
           Samples.reply_score_15 eq_refl).
  intros f Hf (n & e & Hn & He).
  unfold score_fields in Hf. rewrite !elem_of_cons, elem_of_nil in Hf.
  destruct Hf as [->|[->|[->|[->|[->|[]]]]]]; try discriminate Hn.
  vm_compute in Hn. injection Hn as <-. vm_compute in He. discriminate He.
Defined.

Lemma one_decimal_score_is_kept_witness :
  normalise_value Samples.no_numeric_string (VFloat (of_tenths false 75))
  = Return (VFloat (of_tenths false 75)).
Proof.
  apply (one_decimal_score_is_kept Samples.no_numeric_string 75). lia.
Defined.

(** ** Question Planner: what happens to the reply *)

Lemma total_generated_returns (r : gmap string value) (cats : list string) :
  (forall c, c ∈ cats -> exists v, r !! c = Some v /\ Check.has_len v) ->
  exists n, total_generated r cats = Return n.
Proof.
  induction cats as [|c cats IH]; intros Hlen; [exists 0; reflexivity|].
  destruct (Hlen c (list_elem_of_here _ _)) as (v & Hv & n & Hn).
  destruct IH as (m & Hm).
  { intros c' Hc'. apply Hlen. right. exact Hc'. }
  exists (n + m). cbn [total_generated]. unfold getitem. rewrite Hv. cbn.
  rewrite Hn. cbn. rewrite Hm. reflexivity.
Qed.

Lemma total_generated_raises (r : gmap string value) (cats : list string)
    (c : string) (v : value) (e : exn) :
  c ∈ cats -> r !! c = Some v -> py_len v = Raise e ->
  exists e', total_generated r cats = Raise e'.
Proof.
  intros Hc Hv He. induction cats as [|c' cats IH]; [set_solver|].
  cbn [total_generated]. unfold getitem.
  destruct (r !! c') as [v'|] eqn:Hv'; cbn; [|eauto].
  destruct (py_len v') as [n|e'] eqn:Hn; cbn; [|eauto].
  apply elem_of_cons in Hc as [->|Hc]; [congruence|].
  destruct (IH Hc) as (e' & ->). cbn. eauto.
Qed.

(** When the reply is an object whose categories are lists, the questions
    are returned as the service wrote them: every key of the reply keeps
    its value, whatever the number of questions it holds against the
    quota asked for, and only the missing categories are added
    (lines 112-124). *)
Theorem generate_questions_keeps_reply
    (service : questions_request -> result value)
    (job_title job_description resume_text : string) (num_questions : Z)
    (counts : Quota.quotas) (o : gmap string value) :
  counts_or_raise num_questions = Return counts ->
  service (questions_request_of job_title job_description resume_text counts)
  = Return (VDict o) ->
  (forall c v, c ∈ categories -> o !! c = Some v -> Check.has_len v) ->
  exists questions,
    fst (run (generate_questions service job_title job_description
                                 resume_text num_questions))
    = Return questions
    /\ (forall k v, o !! k = Some v -> questions !! k = Some v)
    /\ (forall k, is_Some (questions !! k)
                  <-> is_Some (o !! k) \/ k ∈ categories).
Proof.
  intros Hcounts Hsvc Hlen. rewrite generate_questions_run, Hcounts.
  cbv zeta. cbn [fst]. rewrite Hsvc.
  destruct (total_generated_returns (ensure_categories o) categories)
    as (n & ->).
  { intros c Hc. rewrite ensure_categories_lookup.
    rewrite (bool_decide_eq_true_2 _ Hc).
    destruct (o !! c) as [v|] eqn:Hoc.
    - exists v. split; [reflexivity | exact (Hlen c v Hc Hoc)].
    - exists (VList []). split; [reflexivity | exists 0; reflexivity]. }
  exists (ensure_categories o). split; [reflexivity|]. split.
  - intros k v Hk. rewrite ensure_categories_lookup, Hk. reflexivity.
  - intros k. rewrite ensure_categories_lookup.
    destruct (o !! k) as [v|].
    + split; eauto.
    + case_bool_decide as Hc.
      * split; eauto.
      * split; [intros [? [=]] | intros [[? [=]] | ?]; contradiction].
Qed.

Lemma generate_questions_keeps_reply_witness :
  exists questions,
    fst (run (generate_questions
                (fun _ => Return (VDict Cases.reply_one_technical))
                "Engineer" "Builds services." "Ten years of services." 10))
    = Return questions
    /\ (forall k v, Cases.reply_one_technical !! k = Some v ->
                    questions !! k = Some v)
    /\ (forall k, is_Some (questions !! k)
                  <-> is_Some (Cases.reply_one_technical !! k)
                      \/ k ∈ categories).
Proof.
  apply (generate_questions_keeps_reply
           (fun _ => Return (VDict Cases.reply_one_technical))
           "Engineer" "Builds services." "Ten years of services." 10
           Cases.counts_10 Cases.reply_one_technical);
    [vm_compute; reflexivity | reflexivity |].
  intros c v Hc. unfold categories in Hc.
  rewrite !elem_of_cons, elem_of_nil in Hc.
  destruct Hc as [->|[->|[->|[->|[]]]]]; intros [= <-].
  exists 1. reflexivity.
Defined.

(** The count of line 121 is taken inside the [try]: when one category of
    the reply is a value without a length (a number, [null], a boolean),
    [len] raises and the handler returns the empty structure, so the
    questions the reply had for the other categories are lost too. *)
Theorem category_without_length_discards_all
    (service : questions_request -> result value)
    (job_title job_description resume_text : string) (num_questions : Z)
    (counts : Quota.quotas) (o : gmap string value)
    (c : string) (v : value) (e : exn) :
  counts_or_raise num_questions = Return counts ->
  service (questions_request_of job_title job_description resume_text counts)
  = Return (VDict o) ->
  c ∈ categories -> o !! c = Some v -> py_len v = Raise e ->
  fst (run (generate_questions service job_title job_description
                               resume_text num_questions))
  = Return empty_questions.
Proof.
  intros Hcounts Hsvc Hc Hv He. rewrite generate_questions_run, Hcounts.
  cbv zeta. cbn [fst]. rewrite Hsvc.
  destruct (total_generated_raises (ensure_categories o) categories c v e)
    as (e' & ->); try assumption; [|reflexivity].
  rewrite ensure_categories_lookup, Hv. reflexivity.
Qed.

Lemma category_without_length_discards_all_witness :
  Cases.reply_behavioral_number !! "technical"
  = Some (VList [Cases.one_question])
  /\ fst (run (generate_questions
                 (fun _ => Return (VDict Cases.reply_behavioral_number))
                 "Engineer" "Builds services." "Ten years of services." 10))
     = Return empty_questions.
Proof.
  split; [reflexivity|].
  apply (category_without_length_discards_all
           (fun _ => Return (VDict Cases.reply_behavioral_number))
           "Engineer" "Builds services." "Ten years of services." 10
           Cases.counts_10 Cases.reply_behavioral_number
           "behavioral" (VInt 3) (Exn TypeError "object has no len()"));
    [ vm_compute; reflexivity | reflexivity
    | apply (bool_decide_unpack _); vm_compute; exact I
    | reflexivity | reflexivity ].
Defined.

(** ** Aggregation: the mean of a category *)

Lemma foldl_track_score_lookup (interview_results : list item)
    (m : gmap string (list num)) (c : string) (l : list num) :
  m !! c = Some l ->
  foldl track_score m interview_results !! c
  = Some (l ++ Check.answered_scores interview_results c).
Proof.
  revert m l. induction interview_results as [|it items IH]; intros m l Hm.
  - simpl. rewrite app_nil_r. exact Hm.
  - cbn [foldl]. unfold Check.answered_scores. cbn [omap list_omap].
    fold (Check.answered_scores items c).
    unfold track_score.
    destruct (it_answer it) as [a|] eqn:Ha; cbn [fmap option_fmap option_map].
    + destruct (m !! item_type it) as [scores|] eqn:Hty.
      * case_bool_decide as Hc.
        -- rewrite Hc in Hty. rewrite Hm in Hty. injection Hty as <-.
           rewrite (IH _ (l ++ [answer_score a]));
             [ rewrite <- app_assoc; reflexivity
             | rewrite Hc; apply lookup_insert_eq ].
        -- rewrite (IH _ l); [reflexivity|].
           rewrite lookup_insert_ne by exact Hc. exact Hm.
      * case_bool_decide as Hc; [congruence|]. apply IH. exact Hm.
    + case_bool_decide; apply IH; exact Hm.
Qed.

(** The mean of a category (lines 283-319) is taken over every answered
    item of the category, in the order of the session: a skipped answer
    and an answer without an evaluation enter it with the score 0, and an
    item without an answer does not enter it. *)
Theorem category_mean_over_answered (interview_results : list item)
    (c : string) :
  c ∈ categories ->
  scores_by_type interview_results !! c
  = Some (Check.answered_scores interview_results c)
  /\ avg_scores (scores_by_type interview_results) !! c
     = Some (average (Check.answered_scores interview_results c)).
Proof.
  intros Hc.
  assert (H : scores_by_type interview_results !! c
              = Some (Check.answered_scores interview_results c)).
  { unfold scores_by_type.
    rewrite (foldl_track_score_lookup _ _ c [] (initial_scores_lookup c Hc)).
    reflexivity. }
  split; [exact H|]. rewrite avg_scores_lookup, H. reflexivity.
Qed.

Lemma category_mean_over_answered_witness :
  scores_by_type Samples.interview_with_skip !! "technical"
  = Some (Check.answered_scores Samples.interview_with_skip "technical")
  /\ avg_scores (scores_by_type Samples.interview_with_skip) !! "technical"
     = Some (average (Check.answered_scores Samples.interview_with_skip
                                            "technical")).
Proof.
  apply category_mean_over_answered.
  apply (bool_decide_unpack _). vm_compute. exact I.
Defined.

Lemma category_mean_without_skips_witness :
  avg_scores (scores_by_type Samples.interview_one_scored) !! "technical"
  = Some (Spec.category_score Samples.interview_one_scored "technical").
Proof.
  apply category_mean_without_skips.
  - apply (bool_decide_unpack _). vm_compute. exact I.
  - intros it Hit _. unfold Samples.interview_one_scored in Hit.
    apply list_elem_of_singleton in Hit. rewrite Hit. reflexivity.
Defined.

(** ** The retry loop of [execute_query] *)

Lemma execute_query_from_connection_errors (fetch : bool) (n : Z)
    (es : list exn) :
  forall (r : Z) (le : option exn) (d : nat) (sl : list float)
         (rest : list Query.attempt),
    r + Z.of_nat (length es) <= n ->
    Query.execute_query_from fetch n r le d sl
      (map Query.ConnectionFailed es ++ rest)
    = Query.execute_query_from fetch n (r + Z.of_nat (length es))
        (match last es with Some e => Some e | None => le end)
        (d + length es)
        (sl ++ map (fun k => fmul Query.f0_5 (of_int k))
                   (seqZ (r + 1) (Z.of_nat (length es))))
        rest.
Proof.
  induction es as [|e es IH]; intros r le d sl rest Hle.
  - cbn [map app length last]. rewrite Z.add_0_r, Nat.add_0_r.
    change (Z.of_nat 0) with 0. rewrite seqZ_nil by lia.
    cbn [map]. rewrite app_nil_r. reflexivity.
  - cbn [length] in Hle. cbn [map app Query.execute_query_from].
    replace (r <? n) with true by (symmetry; apply Z.ltb_lt; lia).
    cbv zeta. rewrite IH by lia. cbn [length].
    rewrite (seqZ_cons (r + 1) (Z.of_nat (S (length es)))) by lia.
    cbn [map]. rewrite <- app_assoc. cbn [app].
    replace (Z.succ (r + 1)) with (r + 1 + 1) by lia.
    replace (Z.pred (Z.of_nat (S (length es)))) with (Z.of_nat (length es))
      by lia.
    replace (r + 1 + Z.of_nat (length es))
      with (r + Z.of_nat (S (length es))) by lia.
    replace (S d + length es)%nat with (d + S (length es))%nat by lia.
    f_equal. destruct es as [|e' es']; [reflexivity|].
    cbn [last]. destruct (last (e' :: es')) eqn:Hlast; [reflexivity|].
    apply last_None in Hlast. discriminate.
Qed.

Lemma execute_query_from_decides (fetch : bool) (n : Z)
    (script : list Query.attempt) :
  forall (r : Z) (le : option exn) (d : nat) (sl : list float),
    forallb (fun a => negb (Query.is_closed a)) script = true ->
    n - r <= Z.of_nat (length script) ->
    exists out,
      Query.execute_query_from fetch n r le d sl script = Some out
      /\ (Query.passes out <= d + Z.to_nat (n - r))%nat.
Proof.
  induction script as [|a script IH]; intros r le d sl Hopen Hlen;
    cbn [Query.execute_query_from].
  - replace (r <? n) with false by (symmetry; apply Z.ltb_ge; cbn in Hlen; lia).
    eexists. split; [reflexivity|]. cbn. lia.
  - destruct (r <? n) eqn:Hr.
    2:{ eexists. split; [reflexivity|]. cbn. lia. }
    apply Z.ltb_lt in Hr. cbn [forallb] in Hopen.
    apply andb_true_iff in Hopen as [Ha Hopen].
    destruct a as [|rows|e|e]; [discriminate| | |].
    + eexists. split; [reflexivity|].
      destruct fetch; [destruct rows|]; cbn; lia.
    + cbv zeta.
      destruct (IH (r + 1) (Some e) (S d)
                   (sl ++ [fmul Query.f0_5 (of_int (r + 1))]) Hopen)
        as (out & -> & Hout).
      { cbn [length] in Hlen. lia. }
      exists out. split; [reflexivity|]. lia.
    + eexists. split; [reflexivity|]. cbn. lia.
Qed.

(** The loop of lines 207-266 decides within [max_retries] passes as long
    as no pass meets a closed connection: it returns or raises, and when
    every one of the [max_retries] passes fails with a connection error it
    gives up, raises the last of them, has paused 0.5 s, 1.0 s, ... between
    the passes and has committed nothing. *)
Theorem execute_query_stops_after_max_retries (fetch : bool)
    (max_retries : Z) (script : list Query.attempt) :
  forallb (fun a => negb (Query.is_closed a)) script = true ->
  max_retries <= Z.of_nat (length script) ->
  (exists out,
     Query.execute_query fetch max_retries script = Some out
     /\ (Query.passes out <= Z.to_nat max_retries)%nat)
  /\ (forall es e rest,
        script = map Query.ConnectionFailed es ++ rest ->
        Z.of_nat (length es) = max_retries -> last es = Some e ->
        Query.execute_query fetch max_retries script
        = Some {| Query.returned := Raise e;
                  Query.passes := length es;
                  Query.sleeps := Query.backoff (length es);
                  Query.committed := false |}).
Proof.
  intros Hopen Hlen. split.
  - destruct (execute_query_from_decides fetch max_retries script 0 None 0%nat
                [] Hopen) as (out & Hout & Hpasses); [lia|].
    exists out. split; [exact Hout|].
    rewrite Z.sub_0_r in Hpasses. exact Hpasses.
  - intros es e rest -> Hes Hlast. unfold Query.execute_query.
    rewrite execute_query_from_connection_errors by lia.
    rewrite Hlast. cbn [app]. rewrite Z.add_0_l, Hes.
    destruct rest as [|a rest]; cbn [Query.execute_query_from];
      rewrite Z.ltb_irrefl; unfold Query.exhausted, Query.backoff;
      cbn [default]; rewrite <- Hes; reflexivity.
Qed.

Lemma execute_query_stops_after_max_retries_witness :
  (exists out,
     Query.execute_query true 3 Cases.three_timeouts = Some out
     /\ (Query.passes out <= Z.to_nat 3)%nat)
  /\ (forall es e rest,
        Cases.three_timeouts = map Query.ConnectionFailed es ++ rest ->
        Z.of_nat (length es) = 3 -> last es = Some e ->
        Query.execute_query true 3 Cases.three_timeouts
        = Some {| Query.returned := Raise e;
                  Query.passes := length es;
                  Query.sleeps := Query.backoff (length es);
                  Query.committed := false |}).
Proof.
  apply execute_query_stops_after_max_retries; [reflexivity | cbn; lia].
Defined.

(** The first pass that does not fail with a connection error decides
    (lines 221-231 and 253-262): a statement that ran gives the rows, or
    [None] without [fetch], and any other exception is raised at once,
    without a further pass and without a commit.  The passes before it
    were each followed by a pause. *)
Theorem execute_query_first_verdict (fetch : bool) (max_retries : Z)
    (es : list exn) (rest : list Query.attempt) :
  Z.of_nat (length es) < max_retries ->
  (forall rows,
     exists out,
       Query.execute_query fetch max_retries
         (map Query.ConnectionFailed es ++ Query.Executed rows :: rest)
       = Some out
       /\ Query.returned out = Return (if fetch then Some rows else None)
       /\ Query.passes out = S (length es)
       /\ Query.sleeps out = Query.backoff (length es))
  /\ (forall e,
        Query.execute_query fetch max_retries
          (map Query.ConnectionFailed es ++ Query.Failed e :: rest)
        = Some {| Query.returned := Raise e;
                  Query.passes := S (length es);
                  Query.sleeps := Query.backoff (length es);
                  Query.committed := false |}).
Proof.
  intros Hlt. split.
  - intros rows. unfold Query.execute_query.
    rewrite execute_query_from_connection_errors by lia.
    cbn [Query.execute_query_from app]. rewrite Z.add_0_l.
    replace (Z.of_nat (length es) <? max_retries) with true
      by (symmetry; apply Z.ltb_lt; lia).
    eexists. split; [reflexivity|].
    destruct fetch; [destruct rows|]; cbn; repeat split; try reflexivity;
      f_equal; lia.
  - intros e. unfold Query.execute_query.
    rewrite execute_query_from_connection_errors by lia.
    cbn [Query.execute_query_from app]. rewrite Z.add_0_l.
    replace (Z.of_nat (length es) <? max_retries) with true
      by (symmetry; apply Z.ltb_lt; lia).
    unfold Query.backoff. first [reflexivity | do 2 f_equal; lia].
Qed.

Lemma execute_query_first_verdict_witness :
  (forall rows,
     exists out,
       Query.execute_query false 3
         (map Query.ConnectionFailed [Samples.connection_error]
          ++ Query.Executed rows :: [])
       = Some out
       /\ Query.returned out = Return None
       /\ Query.passes out = 2%nat
       /\ Query.sleeps out = Query.backoff 1)
  /\ (forall e,
        Query.execute_query false 3
          (map Query.ConnectionFailed [Samples.connection_error]
           ++ Query.Failed e :: [])
        = Some {| Query.returned := Raise e;
                  Query.passes := 2;
                  Query.sleeps := Query.backoff 1;
                  Query.committed := false |}).
Proof.
  apply (execute_query_first_verdict false 3 [Samples.connection_error] []).
  cbn. lia.
Defined.

Lemma execute_query_from_closed (fetch : bool) (n : Z) (m : nat) :
  forall (r : Z) (le : option exn) (d : nat) (sl : list float)
         (rest : list Query.attempt),
    r < n ->
    Query.execute_query_from fetch n r le d sl (replicate m Query.Closed ++ rest)
    = Query.execute_query_from fetch n r le (m + d) sl rest.
Proof.
  induction m as [|m IH]; intros r le d sl rest Hr; [reflexivity|].
  cbn [replicate app Query.execute_query_from].
  replace (r <? n) with true by (symmetry; apply Z.ltb_lt; lia).
  rewrite IH by exact Hr. f_equal. lia.
Qed.

(** A pass that meets a closed connection (lines 211-219) goes round
    again without counting as a retry: such passes change nothing but the
    number of passes, and as long as the pool hands out closed
    connections the loop has not decided, however many passes it made. *)
Theorem closed_connection_is_no_retry (fetch : bool) (max_retries : Z)
    (m : nat) (script : list Query.attempt) :
  0 < max_retries ->
  Query.execute_query fetch max_retries (replicate m Query.Closed) = None
  /\ Query.execute_query fetch max_retries
       (replicate m Query.Closed ++ script)
     = Query.execute_query_from fetch max_retries 0 None m [] script.
Proof.
  intros Hn. unfold Query.execute_query. split.
  - rewrite <- (app_nil_r (replicate m Query.Closed)).
    rewrite execute_query_from_closed by exact Hn.
    cbn [Query.execute_query_from].
    replace (0 <? max_retries) with true by (symmetry; apply Z.ltb_lt; lia).
    reflexivity.
  - rewrite execute_query_from_closed by exact Hn.
    rewrite Nat.add_0_r. reflexivity.
Qed.

Lemma closed_connection_is_no_retry_witness :
  Query.execute_query true 3 (replicate 1000 Query.Closed) = None
  /\ Query.execute_query true 3
       (replicate 1000 Query.Closed ++ [Query.Executed [VInt 1]])
     = Query.execute_query_from true 3 0 None 1000 []
         [Query.Executed [VInt 1]].
Proof.
  apply (closed_connection_is_no_retry true 3 1000 [Query.Executed [VInt 1]]).
  lia.
Defined.

(** ** The interview page: progress and the current question *)

Lemma current_question_app {A} (before after : list (Store.qa A)) :
  Forall (fun q => is_Some (Store.qa_answer q)) before ->
  Page.current_question (before ++ after) = Page.current_question after.
Proof.
  induction 1 as [|q before [a Ha] _ IH]; [reflexivity|].
  cbn [app Page.current_question]. rewrite Ha. exact IH.
Qed.

Lemma answered_questions_app {A} (before after : list (Store.qa A)) :
  Page.answered_questions (before ++ after)
  = Page.answered_questions before + Page.answered_questions after.
Proof.
  unfold Page.answered_questions. rewrite filter_app, length_app. lia.
Qed.

Lemma answered_questions_all {A} (questions : list (Store.qa A)) :
  Forall (fun q => is_Some (Store.qa_answer q)) questions ->
  Page.answered_questions questions = Page.total_questions questions.
Proof.
  unfold Page.answered_questions, Page.total_questions.
  induction 1 as [|q questions Hq _ IH]; [reflexivity|].
  rewrite filter_cons, decide_True by exact Hq. cbn [length]. lia.
Qed.

Lemma answered_questions_le {A} (questions : list (Store.qa A)) :
  0 <= Page.answered_questions questions <= Page.total_questions questions.
Proof.
  unfold Page.answered_questions, Page.total_questions.
  pose proof (length_filter (fun q => is_Some (Store.qa_answer q)) questions).
  lia.
Qed.

(** The question the page asks (lines 400-422) is the first one without
    an answer: every question before it is answered.  There is none
    exactly when the number of answered questions equals the number of
    questions, and then the page offers the completion. *)
Theorem current_question_is_first_unanswered {A}
    (questions : list (Store.qa A)) :
  (Page.current_question questions = None
   <-> Page.answered_questions questions = Page.total_questions questions)
  /\ (forall q,
        Page.current_question questions = Some q ->
        exists before after,
          questions = before ++ q :: after
          /\ Forall (fun x => is_Some (Store.qa_answer x)) before
          /\ Store.qa_answer q = None
          /\ Page.answered_questions questions
             = Page.total_questions before + Page.answered_questions after
          /\ Page.answered_questions questions
             < Page.total_questions questions).
Proof.
  assert (Hsome : forall q,
            Page.current_question questions = Some q ->
            exists before after,
              questions = before ++ q :: after
              /\ Forall (fun x => is_Some (Store.qa_answer x)) before
              /\ Store.qa_answer q = None).
  { induction questions as [|x questions IH]; intros q; [discriminate|].
    cbn [Page.current_question].
    destruct (Store.qa_answer x) as [a|] eqn:Hx.
    - intros Hq. destruct (IH q Hq) as (before & after & -> & Hb & Hn).
      exists (x :: before), after. repeat split; try assumption.
      constructor; [rewrite Hx; eauto | exact Hb].
    - intros [= <-]. exists [], questions. repeat split; [constructor|exact Hx]. }
  assert (Hcount : forall q before after,
            questions = before ++ q :: after ->
            Forall (fun x => is_Some (Store.qa_answer x)) before ->
            Store.qa_answer q = None ->
            Page.answered_questions questions
            = Page.total_questions before + Page.answered_questions after
            /\ Page.answered_questions questions
               < Page.total_questions questions).
  { intros q before after -> Hb Hn.
    rewrite answered_questions_app, (answered_questions_all before Hb).
    assert (Hq : Page.answered_questions (q :: after)
                 = Page.answered_questions after).
    { unfold Page.answered_questions. rewrite filter_cons, decide_False;
        [reflexivity | rewrite Hn; intros [? [=]]]. }
    rewrite Hq. split; [reflexivity|].
    pose proof (answered_questions_le after) as Hle.
    unfold Page.total_questions in *. rewrite length_app. cbn [length]. lia. }
  split.
  - split.
    + intros Hnone. apply answered_questions_all.
      clear Hsome Hcount. induction questions as [|x questions IH];
        [constructor|].
      cbn [Page.current_question] in Hnone.
      destruct (Store.qa_answer x) as [a|] eqn:Hx; [|discriminate].
      constructor; [rewrite Hx; eauto | apply IH, Hnone].
    + intros Hall. destruct (Page.current_question questions) as [q|] eqn:Hq;
        [|reflexivity].
      destruct (Hsome q eq_refl) as (before & after & He & Hb & Hn).
      destruct (Hcount q before after He Hb Hn) as [_ Hlt]. lia.
  - intros q Hq. destruct (Hsome q Hq) as (before & after & He & Hb & Hn).
    exists before, after.
    destruct (Hcount q before after He Hb Hn) as [H1 H2].
    repeat split; assumption.
Qed.

(** ** The completion page and the engine *)




(** ** The Submit Response button *)

(** A response that [str.strip] does not leave empty is graded with one
    call, the request carrying the text as it was typed, and handed to
    [save_interview_answer], whose result is not looked at (lines
    578-587): the page says that the response is recorded also when the
    connection failed or the question is unknown and nothing was stored.
    A response that [str.strip] leaves empty makes no call and stores
    nothing. *)
Theorem submit_response_outcome
    (strip : string -> string)
    (float_of_str : string -> option float)
    (service : evaluation_request -> result value)
    (fault : option exn) (tables : Database.db)
    (job_title job_description : string) {A}
    (current_question : Store.qa A) (answer_text : string)
    (response_time : Z) :
  let submit :=
    run (Page.submit_response strip float_of_str service fault tables
           job_title job_description current_question answer_text
           response_time) in
  (strip answer_text = "" ->
   submit = (Return (tables, "Please enter a response before submitting"),
             []))
  /\ (strip answer_text <> "" ->
      exists tables',
        submit
        = (Return (tables', "Response recorded!"),
           [evaluation_request_of (Store.qa_question current_question)
              (Store.qa_type current_question) answer_text job_title
              job_description])
        /\ (fault <> None
            \/ Database.question_exists tables (Store.qa_id current_question)
               = false ->
            tables' = tables)
        /\ (fault = None ->
            Database.question_exists tables (Store.qa_id current_question)
            = true ->
            exists row,
              Database.interview_answers tables'
              = Database.interview_answers tables ++ [row]
              /\ Database.a_question_id row = Store.qa_id current_question
              /\ Database.a_answer_text row = answer_text
              /\ Database.a_is_skipped row = false
              /\ Database.a_response_time row = response_time)).
Proof.
  intros submit. subst submit. unfold Page.submit_response, Page.blank.
  split.
  - intros Hblank. rewrite bool_decide_eq_true_2 by exact Hblank.
    reflexivity.
  - intros Htext. rewrite bool_decide_eq_false_2 by exact Htext.
    pose proof (evaluate_answer_run float_of_str service
                  (Store.qa_question current_question)
                  (Store.qa_type current_question) answer_text job_title
                  job_description) as Hrun.
    unfold run, mbind, io_mbind, io_bind, mret, io_mret, io_ret in *.
    rewrite Hrun. eexists. split; [reflexivity|]. split.
    + intros Hfail. unfold Database.save_interview_answer,
        Database.execute_insert.
      destruct Hfail as [Hf | Hq].
      * destruct fault; [reflexivity | contradiction].
      * rewrite Hq. destruct fault; reflexivity.
    + intros -> Hq. unfold Database.save_interview_answer,
        Database.execute_insert. rewrite Hq. cbn [snd].
      eexists. split; [reflexivity|]. repeat split.
Qed.

(** ** Persistence: the questions of an interview *)

Lemma insert_by_Permutation {A} (le : A -> A -> bool) (x : A) (l : list A) :
  Store.insert_by le x l ≡ₚ x :: l.
Proof.
  induction l as [|y l IH]; [reflexivity|]. cbn [Store.insert_by].
  destruct (le x y); [reflexivity|]. rewrite IH. apply Permutation_swap.
Qed.

Lemma order_by_Permutation {A} (le : A -> A -> bool) (l : list A) :
  Store.order_by le l ≡ₚ l.
Proof.
  induction l as [|x l IH]; [reflexivity|].
  unfold Store.order_by. cbn [foldr]. fold (Store.order_by le l).
  rewrite insert_by_Permutation, IH. reflexivity.
Qed.

Lemma order_by_sorted {A} (le : A -> A -> bool) (l : list A) :
  Saved.in_order le l = true -> Store.order_by le l = l.
Proof.
  induction l as [|x l IH]; [reflexivity|]. cbn [Saved.in_order].
  intros [Hhd Hl]%andb_true_iff.
  unfold Store.order_by. cbn [foldr]. fold (Store.order_by le l).
  rewrite (IH Hl). destruct l as [|y l]; [reflexivity|].
  cbn [Store.insert_by]. rewrite Hhd. reflexivity.
Qed.

Lemma new_rows_interview (interview_id : Z)
    (questions : list Store.question_data) :
  forall id_seq i,
    Forall (fun row => Database.q_interview_id row = interview_id)
           (Saved.new_rows interview_id id_seq i questions).
Proof.
  induction questions as [|q questions IH]; intros id_seq i;
    cbn [Saved.new_rows]; constructor; [reflexivity | apply IH].
Qed.

Lemma new_rows_sorted (interview_id : Z)
    (questions : list Store.question_data) :
  forall id_seq i,
    Saved.in_order Store.by_display_order
                   (Saved.new_rows interview_id id_seq i questions) = true.
Proof.
  induction questions as [|q questions IH]; intros id_seq i; [reflexivity|].
  cbn [Saved.new_rows Saved.in_order].
  rewrite (IH (id_seq + 1) (S i)), andb_true_r.
  destruct questions as [|q' questions]; [reflexivity|].
  cbn [Saved.new_rows]. unfold Store.by_display_order.
  cbn [Database.q_display_order]. apply Z.leb_le. lia.
Qed.

Lemma new_rows_length (interview_id : Z)
    (questions : list Store.question_data) :
  forall id_seq i,
    length (Saved.new_rows interview_id id_seq i questions)
    = length questions.
Proof.
  induction questions as [|q questions IH]; intros id_seq i;
    cbn [Saved.new_rows length]; [reflexivity|]. rewrite IH. reflexivity.
Qed.

Lemma new_rows_app (interview_id : Z)
    (before after : list Store.question_data) :
  forall id_seq i,
    Saved.new_rows interview_id id_seq i (before ++ after)
    = Saved.new_rows interview_id id_seq i before
      ++ Saved.new_rows interview_id (id_seq + Z.of_nat (length before))
           (i + length before) after.
Proof.
  induction before as [|q before IH]; intros id_seq i.
  - cbn [app Saved.new_rows length]. rewrite Z.add_0_r, Nat.add_0_r.
    reflexivity.
  - cbn [app Saved.new_rows length]. rewrite IH. do 3 f_equal; lia.
Qed.

Lemma add_questions_nil (st : Store.store) : Saved.add_questions st [] = st.
Proof.
  unfold Saved.add_questions. cbn [length]. rewrite Z.add_0_r, app_nil_r.
  destruct st as [? ? ? []]. reflexivity.
Qed.

Lemma add_questions_cons (st : Store.store) (row : Database.question_row)
    (rows : list Database.question_row) :
  Saved.add_questions (Saved.add_questions st [row]) rows
  = Saved.add_questions st (row :: rows).
Proof.
  unfold Saved.add_questions.
  cbn [Store.interviews_new Store.interviews_new_id_seq
       Store.interview_questions_new_id_seq Store.questions_and_answers
       Database.interview_questions_new Database.interview_answers
       Database.interview_answers_id_seq].
  f_equal.
  - cbn [length]. lia.
  - f_equal. rewrite <- app_assoc. reflexivity.
Qed.

Lemma insert_question_ok (st : Store.store) (interview_id : Z)
    (question : Store.question_data) (i : nat) :
  Store.interview_exists st interview_id = true ->
  Saved.type_fits question ->
  Store.insert_question None st interview_id
    (default "" (Store.qd_question question))
    (default "technical" (Store.qd_type question)) (Z.of_nat i + 1)
  = Return (Saved.add_questions st
              (Saved.new_rows interview_id
                 (Store.interview_questions_new_id_seq st) i [question])).
Proof.
  intros Hex Hfit. unfold Store.insert_question. rewrite Hex. cbn [negb].
  unfold Saved.type_fits in Hfit.
  replace (50 <? _) with false by (symmetry; apply Z.ltb_ge; exact Hfit).
  unfold Saved.add_questions. cbn [Saved.new_rows length]. reflexivity.
Qed.

(** The loop over the questions while no INSERT fails. *)
Lemma insert_questions_ok (faults : nat -> option exn) (interview_id : Z)
    (questions : list Store.question_data) :
  forall (st : Store.store) (i : nat),
    Store.interview_exists st interview_id = true ->
    Forall Saved.type_fits questions ->
    (forall j, (i <= j < i + length questions)%nat -> faults j = None) ->
    Store.insert_questions faults st interview_id i questions
    = (true,
       Saved.add_questions st
         (Saved.new_rows interview_id
            (Store.interview_questions_new_id_seq st) i questions)).
Proof.
  induction questions as [|q questions IH]; intros st i Hex Hfit Hfaults.
  - cbn [Store.insert_questions Saved.new_rows].
    rewrite add_questions_nil. reflexivity.
  - apply Forall_cons in Hfit as [Hq Hfit].
    cbn [Store.insert_questions]. rewrite (Hfaults i) by (cbn; lia).
    rewrite (insert_question_ok st interview_id q i Hex Hq).
    rewrite IH; [| exact Hex | exact Hfit | intros j Hj; apply Hfaults; cbn; lia].
    cbn [Saved.new_rows]. rewrite add_questions_cons.
    cbn [Saved.add_questions Store.interview_questions_new_id_seq length].
    first [reflexivity | do 3 f_equal; lia].
Qed.

Lemma questions_of_added (st : Store.store) (interview_id : Z)
    (rows : list Database.question_row) :
  Forall (fun q => Database.q_interview_id q <> interview_id)
         (Database.interview_questions_new (Store.questions_and_answers st)) ->
  Forall (fun row => Database.q_interview_id row = interview_id) rows ->
  Saved.in_order Store.by_display_order rows = true ->
  Store.questions_of
    (Store.questions_and_answers (Saved.add_questions st rows)) interview_id
  = rows.
Proof.
  intros Hold Hnew Hsorted. unfold Store.questions_of.
  cbn [Saved.add_questions Store.questions_and_answers
       Database.interview_questions_new].
  rewrite filter_app.
  assert (H1 : filter (fun q => Database.q_interview_id q = interview_id)
                 (Database.interview_questions_new
                    (Store.questions_and_answers st)) = []).
  { induction Hold as [|q l Hq _ IH]; [reflexivity|].
    rewrite filter_cons, decide_False by exact Hq. exact IH. }
  assert (H2 : filter (fun q => Database.q_interview_id q = interview_id)
                 rows = rows).
  { clear Hsorted. induction Hnew as [|q l Hq _ IH]; [reflexivity|].
    rewrite filter_cons, decide_True by exact Hq. rewrite IH. reflexivity. }
  rewrite H1, H2. cbn [app]. apply order_by_sorted, Hsorted.
Qed.

Lemma new_rows_view (interview_id : Z)
    (questions : list Store.question_data) :
  forall id_seq i,
    map (fun row => {| Store.qn_id := Database.q_id row;
                       Store.qn_question := Database.q_question_text row;
                       Store.qn_type := Database.q_question_type row;
                       Store.qn_order := Database.q_display_order row |})
        (Saved.new_rows interview_id id_seq i questions)
    = imap (fun j question =>
              {| Store.qn_id := id_seq + 1 + Z.of_nat j;
                 Store.qn_question :=
                   default "" (Store.qd_question question);
                 Store.qn_type :=
                   default "technical" (Store.qd_type question);
                 Store.qn_order := Z.of_nat (i + j) + 1 |})
           questions.
Proof.
  induction questions as [|q questions IH]; intros id_seq i; [reflexivity|].
  cbn [Saved.new_rows map imap]. rewrite IH. f_equal.
  - cbn. f_equal; [lia|]. rewrite Nat.add_0_r. reflexivity.
  - apply imap_ext. intros j x _. cbn. f_equal; [lia|].
    f_equal. lia.
Qed.

(** Round trip of the questions (lines 52-135).  For an interview that
    exists and has no question yet, a save in which no INSERT fails
    returns [True], and [get_interview_questions_new] then gives the
    questions back in the order in which they were handed over, numbered
    1, 2, ... in [order], with fresh consecutive ids, an absent text read
    as the empty string and an absent type as technical. *)
Theorem saved_questions_come_back_in_order (st : Store.store)
    (interview_id : Z) (questions : list Store.question_data) :
  questions <> [] ->
  Store.interview_exists st interview_id = true ->
  Forall (fun q => Database.q_interview_id q <> interview_id)
         (Database.interview_questions_new (Store.questions_and_answers st)) ->
  Forall Saved.type_fits questions ->
  exists st',
    Store.save_interview_questions_new (fun _ => None) st interview_id
                                       (Some questions)
    = (true, st')
    /\ Store.get_interview_questions_new None
         (Store.questions_and_answers st') interview_id
       = imap (fun j question =>
                 {| Store.qn_id :=
                      Store.interview_questions_new_id_seq st + 1 + Z.of_nat j;
                    Store.qn_question :=
                      default "" (Store.qd_question question);
                    Store.qn_type :=
                      default "technical" (Store.qd_type question);
                    Store.qn_order := Z.of_nat j + 1 |})
              questions.
Proof.
  intros Hne Hex Hold Hfit.
  destruct questions as [|q questions]; [contradiction|].
  change (Store.save_interview_questions_new (fun _ => None) st interview_id
            (Some (q :: questions)))
    with (Store.insert_questions (fun _ : nat => None) st interview_id 0
            (q :: questions)).
  rewrite (insert_questions_ok _ interview_id (q :: questions) st 0%nat Hex
             Hfit) by reflexivity.
  eexists. split; [reflexivity|].
  unfold Store.get_interview_questions_new.
  rewrite questions_of_added;
    [ | exact Hold | apply new_rows_interview | apply new_rows_sorted ].
  apply new_rows_view.
Qed.

(** The save is not atomic (lines 70-96): every INSERT is committed on
    its own, so when the INSERT of a question fails the function returns
    [False] and the questions before it stay stored. *)
Theorem failed_save_keeps_earlier_questions (faults : nat -> option exn)
    (st : Store.store) (interview_id : Z)
    (before after : list Store.question_data)
    (question : Store.question_data) (e : exn) :
  Store.interview_exists st interview_id = true ->
  Forall Saved.type_fits before ->
  (forall j, (j < length before)%nat -> faults j = None) ->
  faults (length before) = Some e ->
  Store.save_interview_questions_new faults st interview_id
    (Some (before ++ question :: after))
  = (false,
     Saved.add_questions st
       (Saved.new_rows interview_id
          (Store.interview_questions_new_id_seq st) 0 before))
  /\ length (Database.interview_questions_new
               (Store.questions_and_answers
                  (Saved.add_questions st
                     (Saved.new_rows interview_id
                        (Store.interview_questions_new_id_seq st) 0 before))))
     = (length (Database.interview_questions_new
                  (Store.questions_and_answers st))
        + length before)%nat.
Proof.
  intros Hex Hfit Hfaults Hfault. split.
  - assert (Hgen : forall (l : list Store.question_data) (s : Store.store)
                          (i : nat),
              Store.interview_exists s interview_id = true ->
              Forall Saved.type_fits l ->
              (forall j, (i <= j < i + length l)%nat -> faults j = None) ->
              faults (i + length l)%nat = Some e ->
              Store.insert_questions faults s interview_id i
                (l ++ question :: after)
              = (false,
                 Saved.add_questions s
                   (Saved.new_rows interview_id
                      (Store.interview_questions_new_id_seq s) i l))).
    { induction l as [|q l IH]; intros s i Hs Hl Hf He.
      - cbn [app Store.insert_questions Saved.new_rows].
        cbn [length] in He. rewrite Nat.add_0_r in He.
        unfold Store.insert_question. rewrite He.
        rewrite add_questions_nil. reflexivity.
      - apply Forall_cons in Hl as [Hq Hl].
        cbn [app Store.insert_questions]. rewrite (Hf i) by (cbn; lia).
        rewrite (insert_question_ok s interview_id q i Hs Hq).
        rewrite IH;
          [ | exact Hs | exact Hl | intros j Hj; apply Hf; cbn; lia
            | rewrite <- He; f_equal; cbn; lia ].
        cbn [Saved.new_rows]. rewrite add_questions_cons.
        cbn [Saved.add_questions Store.interview_questions_new_id_seq length].
        first [reflexivity | do 3 f_equal; lia]. }
    assert (Hsave : forall l,
              l <> [] ->
              Store.save_interview_questions_new faults st interview_id
                (Some l)
              = Store.insert_questions faults st interview_id 0 l).
    { intros [|q0 l0] Hl; [contradiction | reflexivity]. }
    rewrite Hsave by (destruct before; discriminate).
    apply Hgen; try assumption.
    intros j Hj. apply Hfaults. lia.
  - cbn [Saved.add_questions Store.questions_and_answers
         Database.interview_questions_new].
    rewrite length_app, new_rows_length. reflexivity.
Qed.

(** ** Persistence and the page: the progress of a session *)

Lemma questions_of_NoDup (tables : Database.db) (interview_id : Z) :
  NoDup (map Database.q_id (Database.interview_questions_new tables)) ->
  NoDup (map Database.q_id (Store.questions_of tables interview_id)).
Proof.
  intros Hnd. unfold Store.questions_of.
  change (NoDup (Database.q_id <$>
            Store.order_by Store.by_display_order
              (filter (fun q => Database.q_interview_id q = interview_id)
                      (Database.interview_questions_new tables)))).
  rewrite order_by_Permutation.
  eapply sublist_NoDup; [exact Hnd|].
  change (map Database.q_id (Database.interview_questions_new tables))
    with (Database.q_id <$> Database.interview_questions_new tables).
  apply fmap_sublist, sublist_filter.
Qed.

Lemma questions_of_exist (tables : Database.db) (interview_id : Z)
    (q : Database.question_row) :
  q ∈ Store.questions_of tables interview_id ->
  Database.question_exists tables (Database.q_id q) = true.
Proof.
  unfold Store.questions_of. rewrite order_by_Permutation.
  intros [_ Hq]%list_elem_of_filter.
  unfold Database.question_exists. apply existsb_exists.
  exists q. split; [apply list_elem_of_In, Hq | apply Z.eqb_refl].
Qed.

Lemma answers_of_saved (tables tables' : Database.db)
    (row : Database.answer_row) (question_id : Z) :
  Database.interview_answers tables'
  = Database.interview_answers tables ++ [row] ->
  Database.answers_of tables' question_id
  = Database.answers_of tables question_id
    ++ (if decide (Database.a_question_id row = question_id)
        then [row] else []).
Proof.
  intros Hrows. unfold Database.answers_of. rewrite Hrows.
  rewrite filter_app, filter_cons, filter_nil. reflexivity.
Qed.

Section Session.

Variable json_loads : string -> result value.
Variable jsonb_column : value -> value.

Local Abbreviation view :=
  (Store.question_with_answer json_loads jsonb_column).
Local Abbreviation get_interview_answers :=
  (Store.get_interview_answers json_loads jsonb_column).

Lemma stored_answer_is_shown (a : Database.answer_row) :
  Database.a_answer_text a <> "" ->
  exists shown,
    Store.answer_of_row json_loads jsonb_column (Some a) = Some shown
    /\ Store.av_id shown = Database.a_id a
    /\ Store.av_text shown = Database.a_answer_text a
    /\ Store.av_skipped shown = Database.a_is_skipped a.
Proof.
  intros Htext. unfold Store.answer_of_row.
  destruct (Database.a_answer_text a) as [|c s] eqn:Ht; [contradiction|].
  eexists. split; [reflexivity|]. repeat split.
Qed.

Lemma rows_of_answered_question (tables : Database.db)
    (q : Database.question_row) :
  Forall (fun a => Database.a_answer_text a <> "")
         (Database.interview_answers tables) ->
  Database.answers_of tables (Database.q_id q) <> [] ->
  Forall (fun x => is_Some (Store.qa_answer x))
         (map view (Store.rows_of_question tables q)).
Proof.
  intros Htexts Hne. unfold Store.rows_of_question.
  assert (Hall : Forall (fun a => Database.a_answer_text a <> "")
                        (Database.answers_of tables (Database.q_id q))).
  { apply Forall_forall. intros a [_ Ha]%list_elem_of_filter.
    exact (proj1 (Forall_forall _ _) Htexts a Ha). }
  destruct (Database.answers_of tables (Database.q_id q)) as [|a l];
    [contradiction|].
  clear Hne. induction Hall as [|a' l' Ha' _ IH]; [constructor|].
  cbn [map]. constructor; [|exact IH].
  destruct (stored_answer_is_shown a' Ha') as (shown & Hs & _).
  unfold Store.question_with_answer. cbn [snd Store.qa_answer].
  rewrite Hs. eauto.
Qed.

(** Where the current question sits among the rows of the join. *)
Lemma current_question_joined (tables : Database.db)
    (qs : list Database.question_row) (q : Store.qa Store.answer_view) :
  Forall (fun a => Database.a_answer_text a <> "")
         (Database.interview_answers tables) ->
  Page.current_question
    (map view (flat_map (Store.rows_of_question tables) qs)) = Some q ->
  exists qs1 q0 qs2,
    qs = qs1 ++ q0 :: qs2
    /\ Forall (fun x => is_Some (Store.qa_answer x))
              (map view (flat_map (Store.rows_of_question tables) qs1))
    /\ Database.answers_of tables (Database.q_id q0) = []
    /\ q = view (q0, None).
Proof.
  intros Htexts. induction qs as [|x qs IH]; [discriminate|].
  cbn [flat_map]. rewrite map_app.
  destruct (Database.answers_of tables (Database.q_id x)) as [|a l] eqn:Hx.
  - unfold Store.rows_of_question at 1. rewrite Hx.
    cbn [map app Page.current_question Store.question_with_answer snd
         Store.qa_answer Store.answer_of_row].
    intros [= <-]. exists [], x, qs. repeat split; [constructor | exact Hx].
  - assert (Hans : Forall (fun y => is_Some (Store.qa_answer y))
                          (map view (Store.rows_of_question tables x))).
    { apply rows_of_answered_question; [exact Htexts|]. rewrite Hx.
      discriminate. }
    rewrite (current_question_app _ _ Hans). intros Hq.
    destruct (IH Hq) as (qs1 & q0 & qs2 & -> & Hb & H0 & ->).
    exists (x :: qs1), q0, qs2. repeat split; try assumption.
    cbn [flat_map]. rewrite map_app. apply Forall_app. split; assumption.
Qed.

Lemma rows_of_other_question (tables tables' : Database.db)
    (row : Database.answer_row) (qs : list Database.question_row) :
  Database.interview_answers tables'
  = Database.interview_answers tables ++ [row] ->
  Forall (fun q => Database.q_id q <> Database.a_question_id row) qs ->
  flat_map (Store.rows_of_question tables') qs
  = flat_map (Store.rows_of_question tables) qs.
Proof.
  intros Hrows. induction 1 as [|q qs Hq _ IH]; [reflexivity|].
  cbn [flat_map]. rewrite IH. f_equal.
  unfold Store.rows_of_question.
  rewrite (answers_of_saved tables tables' row _ Hrows).
  rewrite decide_False by congruence. rewrite app_nil_r. reflexivity.
Qed.

(** A stored answer moves the session on.  The questions have distinct
    ids and no stored answer has an empty text (the page refuses a blank
    response, and the skip stores its own text).  When the page asks the
    question [q] and an answer with a text that is not empty is saved for
    it, the next reading of the session shows [q] with that answer, text,
    id and skip flag as stored, leaves every other entry as it was, counts
    one more answered question, and the page asks the first unanswered
    question after [q]. *)
Theorem saved_answer_advances_session (tables : Database.db)
    (interview_id : Z) (q : Store.qa Store.answer_view)
    (answer_data : Database.answer_data) :
  NoDup (map Database.q_id (Database.interview_questions_new tables)) ->
  Forall (fun a => Database.a_answer_text a <> "")
         (Database.interview_answers tables) ->
  Page.current_question
    (get_interview_answers None tables interview_id)
  = Some q ->
  default "" (Database.ad_answer_text answer_data) <> "" ->
  exists answer_id tables' before after shown,
    Database.save_interview_answer None tables (Store.qa_id q) answer_data
    = (Some answer_id, tables')
    /\ get_interview_answers None tables interview_id
       = before ++ q :: after
    /\ get_interview_answers None tables' interview_id
       = before
         ++ {| Store.qa_id := Store.qa_id q;
               Store.qa_question := Store.qa_question q;
               Store.qa_type := Store.qa_type q;
               Store.qa_order := Store.qa_order q;
               Store.qa_answer := Some shown |} :: after
    /\ Store.av_id shown = answer_id
    /\ Store.av_text shown = default "" (Database.ad_answer_text answer_data)
    /\ Store.av_skipped shown
       = default false (Database.ad_skipped answer_data)
    /\ Page.answered_questions
         (get_interview_answers None tables' interview_id)
       = Page.answered_questions
           (get_interview_answers None tables interview_id)
         + 1
    /\ Page.current_question
         (get_interview_answers None tables' interview_id)
       = Page.current_question after.
Proof.
  intros Hnd Htexts Hcur Htext.
  unfold Store.get_interview_answers, Store.joined_rows in *.
  destruct (current_question_joined tables _ q Htexts Hcur)
    as (qs1 & q0 & qs2 & Hqs & Hbefore & Hq0 & ->).
  assert (Hex : Database.question_exists tables (Database.q_id q0) = true).
  { apply (questions_of_exist tables interview_id). rewrite Hqs.
    apply elem_of_app. right. left. }
  pose proof (questions_of_NoDup tables interview_id Hnd) as Hnd'.
  rewrite Hqs, map_app in Hnd'. cbn [map] in Hnd'.
  change (NoDup ((Database.q_id <$> qs1)
                 ++ Database.q_id q0 :: (Database.q_id <$> qs2))) in Hnd'.
  apply NoDup_app in Hnd' as (_ & Hdis & Hnd2).
  apply NoDup_cons in Hnd2 as [Hnot2 _].
  assert (H1 : Forall (fun x => Database.q_id x <> Database.q_id q0) qs1).
  { apply Forall_forall. intros x Hx Heq. apply (Hdis (Database.q_id x)).
    - apply list_elem_of_fmap. exists x. split; [reflexivity | exact Hx].
    - rewrite Heq. left. }
  assert (H2 : Forall (fun x => Database.q_id x <> Database.q_id q0) qs2).
  { apply Forall_forall. intros x Hx Heq. apply Hnot2. rewrite <- Heq.
    apply list_elem_of_fmap. exists x. split; [reflexivity | exact Hx]. }
  unfold Database.save_interview_answer, Database.execute_insert.
  cbn [Store.question_with_answer fst Store.qa_id].
  rewrite Hex.
  match goal with
  | |- context [Database.interview_answers tables ++ [?r]] => set (row := r)
  end.
  destruct (stored_answer_is_shown row Htext) as (shown & Hshown & Hid & Htx & Hsk).
  exists (Database.interview_answers_id_seq tables + 1).
  eexists.
  exists (map view (flat_map (Store.rows_of_question tables) qs1)).
  exists (map view (flat_map (Store.rows_of_question tables) qs2)).
  exists shown.
  split; [reflexivity|].
  assert (Hold : map view
                   (flat_map (Store.rows_of_question tables)
                      (Store.questions_of tables interview_id))
                 = map view (flat_map (Store.rows_of_question tables) qs1)
                   ++ view (q0, None)
                   :: map view (flat_map (Store.rows_of_question tables) qs2)).
  { rewrite Hqs, flat_map_app, map_app. cbn [flat_map]. rewrite map_app.
    unfold Store.rows_of_question at 2. rewrite Hq0. reflexivity. }
  set (tables' := {| Database.interview_questions_new :=
                       Database.interview_questions_new tables;
                     Database.interview_answers :=
                       Database.interview_answers tables ++ [row];
                     Database.interview_answers_id_seq :=
                       Database.interview_answers_id_seq tables + 1 |}).
  assert (Hnew : map view
                   (flat_map (Store.rows_of_question tables')
                      (Store.questions_of tables' interview_id))
                 = map view (flat_map (Store.rows_of_question tables) qs1)
                   ++ {| Store.qa_id := Database.q_id q0;
                         Store.qa_question := Database.q_question_text q0;
                         Store.qa_type := Database.q_question_type q0;
                         Store.qa_order := Database.q_display_order q0;
                         Store.qa_answer := Some shown |}
                   :: map view (flat_map (Store.rows_of_question tables) qs2)).
  { assert (Hrows : Database.interview_answers tables'
                    = Database.interview_answers tables ++ [row])
      by reflexivity.
    assert (Hrow : Store.rows_of_question tables' q0 = [(q0, Some row)]).
    { unfold Store.rows_of_question.
      rewrite (answers_of_saved tables tables' row _ Hrows), Hq0.
      rewrite decide_True by reflexivity. reflexivity. }
    change (Store.questions_of tables' interview_id)
      with (Store.questions_of tables interview_id).
    rewrite Hqs, flat_map_app, map_app. cbn [flat_map]. rewrite map_app.
    rewrite (rows_of_other_question tables tables' row qs1 Hrows H1).
    rewrite (rows_of_other_question tables tables' row qs2 Hrows H2).
    rewrite Hrow. cbn [map app]. unfold Store.question_with_answer at 2.
    cbn [fst snd]. rewrite Hshown. reflexivity. }
  split; [exact Hold|]. split; [exact Hnew|].
  split; [exact Hid|]. split; [exact Htx|]. split; [exact Hsk|].
  rewrite Hnew, Hold. split.
  - rewrite !answered_questions_app.
    unfold Page.answered_questions.
    rewrite !filter_cons. cbn [Store.question_with_answer snd
      Store.qa_answer Store.answer_of_row].
    rewrite decide_True by eauto.
    rewrite decide_False by (intros [? [=]]).
    cbn [length]. lia.
  - rewrite (current_question_app _ _ Hbefore).
    cbn [Page.current_question Store.qa_answer]. reflexivity.
Qed.

End Session.

(** ** Persistence: what is read back of a stored answer *)

Lemma save_interview_answer_stores (tables : Database.db) (question_id : Z)
    (answer_data : Database.answer_data) :
  Database.question_exists tables question_id = true ->
  exists row tables',
    Database.save_interview_answer None tables question_id answer_data
    = (Some (Database.interview_answers_id_seq tables + 1), tables')
    /\ Database.interview_questions_new tables'
       = Database.interview_questions_new tables
    /\ Database.interview_answers tables'
       = Database.interview_answers tables ++ [row]
    /\ Database.a_id row = Database.interview_answers_id_seq tables + 1
    /\ Database.a_question_id row = question_id
    /\ Database.a_answer_text row
       = default "" (Database.ad_answer_text answer_data)
    /\ Database.a_strengths row
       = default (VList [])
           (default ∅ (Database.ad_evaluation answer_data) !! "strengths")
    /\ Database.a_weaknesses row
       = default (VList [])
           (default ∅ (Database.ad_evaluation answer_data) !! "weaknesses")
    /\ Database.a_score row
       = default (VInt 0)
           (default ∅ (Database.ad_evaluation answer_data) !! "score").
Proof.
  intros Hex. unfold Database.save_interview_answer, Database.execute_insert.
  rewrite Hex. eexists. eexists. split; [reflexivity|]. repeat split.
Qed.

(** The strengths and the weaknesses of an evaluation are stored as
    JSON.  When the driver hands a stored list over as a list (what
    psycopg2 does for the JSONB columns of [database_update.py]), lines
    251-261 give that list to [json.loads], which takes a text only, and
    the bare [except] keeps the empty list: the lists that
    [evaluate_answer] produced are stored but read back empty by
    [get_interview_answers], while the text and the score of the answer
    come back as stored. *)
Theorem stored_strengths_are_read_back_empty
    (json_loads : string -> result value) (jsonb_column : value -> value)
    (tables : Database.db)
    (question_id : Z) (answer_data : Database.answer_data)
    (evaluation : gmap string value) (strengths weaknesses : list value) :
  (forall l, jsonb_column (VList l) = VList l) ->
  Database.question_exists tables question_id = true ->
  default "" (Database.ad_answer_text answer_data) <> "" ->
  Database.ad_evaluation answer_data = Some evaluation ->
  evaluation !! "strengths" = Some (VList strengths) ->
  evaluation !! "weaknesses" = Some (VList weaknesses) ->
  exists answer_id tables' row shown,
    Database.save_interview_answer None tables question_id answer_data
    = (Some answer_id, tables')
    /\ Database.interview_answers tables'
       = Database.interview_answers tables ++ [row]
    /\ Database.a_strengths row = VList strengths
    /\ Database.a_weaknesses row = VList weaknesses
    /\ Store.answer_of_row json_loads jsonb_column (Some row) = Some shown
    /\ Store.av_evaluation shown !! "strengths" = Some (VList [])
    /\ Store.av_evaluation shown !! "weaknesses" = Some (VList [])
    /\ Store.av_evaluation shown !! "score"
       = Some (default (VInt 0) (evaluation !! "score"))
    /\ Store.av_text shown
       = default "" (Database.ad_answer_text answer_data).
Proof.
  intros Hdriver Hex Htext Hev Hs Hw.
  destruct (save_interview_answer_stores tables question_id answer_data Hex)
    as (row & tables' & Hsave & _ & Hrows & _ & _ & Htx & Hrs & Hrw & Hsc).
  rewrite Hev in Hrs, Hrw, Hsc.
  change (default ∅ (Some evaluation)) with evaluation in Hrs, Hrw, Hsc.
  rewrite Hs in Hrs. rewrite Hw in Hrw.
  change (Database.a_strengths row = VList strengths) in Hrs.
  change (Database.a_weaknesses row = VList weaknesses) in Hrw.
  exists (Database.interview_answers_id_seq tables + 1), tables', row.
  unfold Store.answer_of_row.
  assert (Hempty : forall l, Store.loads_or_empty json_loads (VList l)
                             = VList []).
  { intros l. unfold Store.loads_or_empty. destruct l; reflexivity. }
  destruct (Database.a_answer_text row) as [|c s] eqn:Ht;
    [exfalso; apply Htext; symmetry; exact Htx|].
  eexists. split; [exact Hsave|]. split; [exact Hrows|].
  split; [exact Hrs|]. split; [exact Hrw|]. split; [reflexivity|].
  cbn [Store.av_evaluation Store.av_text]. rewrite Hrs, Hrw, Hsc, !Hdriver, !Hempty.
  repeat split. exact Htx.
Qed.

(** ** Persistence: the ids of the answers *)

(** [save_interview_answer] keeps the ids of the answers distinct and
    within the sequence, and the id it returns is the id of no answer
    stored before. *)
Theorem answer_ids_stay_fresh (fault : option exn) (tables : Database.db)
    (question_id : Z) (answer_data : Database.answer_data) :
  Store.answer_ids_fresh tables ->
  Store.answer_ids_fresh
    (snd (Database.save_interview_answer fault tables question_id
            answer_data))
  /\ forall answer_id,
       fst (Database.save_interview_answer fault tables question_id
              answer_data) = Some answer_id ->
       answer_id ∉ map Database.a_id (Database.interview_answers tables).
Proof.
  intros [Hnd Hle].
  assert (Hnew : Database.interview_answers_id_seq tables + 1
                 ∉ map Database.a_id (Database.interview_answers tables)).
  { intros Hin.
    change (Database.interview_answers_id_seq tables + 1
            ∈ Database.a_id <$> Database.interview_answers tables) in Hin.
    apply list_elem_of_fmap in Hin as (a & Ha & Hin).
    pose proof (proj1 (Forall_forall _ _) Hle a Hin) as Hbound.
    cbn beta in Hbound. lia. }
  unfold Database.save_interview_answer, Database.execute_insert.
  destruct fault as [e|]; [split; [split; assumption | intros ? [=]]|].
  destruct (Database.question_exists tables question_id);
    [|split; [split; assumption | intros ? [=]]].
  cbn [fst snd]. split.
  - split; cbn [Database.interview_answers Database.interview_answers_id_seq].
    + rewrite map_app. cbn [map Database.a_id].
      apply NoDup_app. split; [exact Hnd|]. split.
      * intros x Hx Hx'. apply list_elem_of_singleton in Hx'. subst x.
        exact (Hnew Hx).
      * apply NoDup_singleton.
    + apply Forall_app. split.
      * eapply Forall_impl; [exact Hle|]. cbn. intros a Ha. lia.
      * constructor; [cbn; lia | constructor].
  - intros answer_id [= <-]. exact Hnew.
Qed.

(** ** Persistence and the page: a question answered twice *)

(** The join of [get_interview_answers] has one row for each answer of a
    question: when an answer is saved for a question that already has
    one, the session read back has one entry more, and the page counts
    one question more than the interview has. *)
Theorem second_answer_adds_an_entry
    (json_loads : string -> result value) (jsonb_column : value -> value)
    (tables : Database.db)
    (interview_id : Z) (question : Database.question_row)
    (answer_data : Database.answer_data) :
  NoDup (map Database.q_id (Database.interview_questions_new tables)) ->
  question ∈ Database.interview_questions_new tables ->
  Database.q_interview_id question = interview_id ->
  Database.answers_of tables (Database.q_id question) <> [] ->
  exists answer_id tables',
    Database.save_interview_answer None tables (Database.q_id question)
                                   answer_data
    = (Some answer_id, tables')
    /\ Page.total_questions
         (Store.get_interview_answers json_loads jsonb_column None tables' interview_id)
       = Page.total_questions
           (Store.get_interview_answers json_loads jsonb_column None tables interview_id)
         + 1.
Proof.
  intros Hnd Hin Hiid Hans.
  assert (Hq : question ∈ Store.questions_of tables interview_id).
  { unfold Store.questions_of. rewrite order_by_Permutation.
    apply list_elem_of_filter. split; assumption. }
  assert (Hex : Database.question_exists tables (Database.q_id question)
                = true) by (apply (questions_of_exist _ _ _ Hq)).
  destruct (save_interview_answer_stores tables (Database.q_id question)
              answer_data Hex)
    as (row & tables' & Hsave & Hqs & Hrows & _ & Hrq & _).
  exists (Database.interview_answers_id_seq tables + 1), tables'.
  split; [exact Hsave|].
  unfold Page.total_questions, Store.get_interview_answers, Store.joined_rows.
  rewrite !length_map.
  assert (Hsame : Store.questions_of tables' interview_id
                  = Store.questions_of tables interview_id)
    by (unfold Store.questions_of; rewrite Hqs; reflexivity).
  rewrite Hsame.
  pose proof (questions_of_NoDup tables interview_id Hnd) as Hnd'.
  apply list_elem_of_split in Hq as (qs1 & qs2 & Hsplit).
  rewrite Hsplit in Hnd' |- *. rewrite map_app in Hnd'. cbn [map] in Hnd'.
  change (NoDup ((Database.q_id <$> qs1)
                 ++ Database.q_id question :: (Database.q_id <$> qs2)))
    in Hnd'.
  apply NoDup_app in Hnd' as (_ & Hdis & Hnd2).
  apply NoDup_cons in Hnd2 as [Hnot2 _].
  assert (H1 : Forall (fun x => Database.q_id x <> Database.a_question_id row)
                      qs1).
  { apply Forall_forall. intros x Hx Heq. rewrite Hrq in Heq.
    apply (Hdis (Database.q_id x)).
    - apply list_elem_of_fmap. exists x. split; [reflexivity | exact Hx].
    - rewrite Heq. left. }
  assert (H2 : Forall (fun x => Database.q_id x <> Database.a_question_id row)
                      qs2).
  { apply Forall_forall. intros x Hx Heq. rewrite Hrq in Heq.
    apply Hnot2. rewrite <- Heq.
    apply list_elem_of_fmap. exists x. split; [reflexivity | exact Hx]. }
  rewrite !flat_map_app. cbn [flat_map].
  rewrite (rows_of_other_question tables tables' row qs1 Hrows H1).
  rewrite (rows_of_other_question tables tables' row qs2 Hrows H2).
  rewrite !length_app.
  assert (Hlen : length (Store.rows_of_question tables' question)
                 = S (length (Store.rows_of_question tables question))).
  { unfold Store.rows_of_question.
    rewrite (answers_of_saved tables tables' row _ Hrows).
    rewrite decide_True by exact Hrq.
    destruct (Database.answers_of tables (Database.q_id question))
      as [|a l]; [contradiction|].
    cbn [app]. rewrite !length_map, !length_cons, length_app. cbn [length].
    lia. }
  rewrite Hlen. lia.
Qed.

(** ** Persistence: the status of an interview *)

Lemma in_progress_ids (st : Store.store) (x : Z) :
  x ∈ map Store.ip_id (Store.get_in_progress_interviews None st)
  <-> exists i, i ∈ Store.interviews_new st
                /\ Store.i_status i = "in_progress" /\ Store.i_id i = x.
Proof.
  unfold Store.get_in_progress_interviews. rewrite map_map. cbn [Store.ip_id].
  change (x ∈ Store.i_id <$> Store.order_by Store.by_start_time_desc
            (filter (fun i => Store.i_status i = "in_progress")
                    (Store.interviews_new st))
          <-> exists i, i ∈ Store.interviews_new st
                /\ Store.i_status i = "in_progress" /\ Store.i_id i = x).
  rewrite order_by_Permutation, list_elem_of_fmap. split.
  - intros (i & -> & [Hs Hi]%list_elem_of_filter). eauto.
  - intros (i & Hi & Hs & <-). exists i. split; [reflexivity|].
    apply list_elem_of_filter. split; assumption.
Qed.

Lemma completed_ids (st : Store.store) (x : Z) :
  x ∈ map Store.ci_id (Store.get_completed_interviews_new None st)
  <-> exists i, i ∈ Store.interviews_new st
                /\ Store.i_status i = "completed" /\ Store.i_id i = x.
Proof.
  unfold Store.get_completed_interviews_new. rewrite map_map.
  cbn [Store.ci_id].
  change (x ∈ Store.i_id <$> Store.order_by Store.by_end_time_desc
            (filter (fun i => Store.i_status i = "completed")
                    (Store.interviews_new st))
          <-> exists i, i ∈ Store.interviews_new st
                /\ Store.i_status i = "completed" /\ Store.i_id i = x).
  rewrite order_by_Permutation, list_elem_of_fmap. split.
  - intros (i & -> & [Hs Hi]%list_elem_of_filter). eauto.
  - intros (i & Hi & Hs & <-). exists i. split; [reflexivity|].
    apply list_elem_of_filter. split; assumption.
Qed.

(** [complete_interview] (lines 302-383) is what moves an interview from
    the list of the interviews in progress to the list of the completed
    ones.  When both statements run and the scores of the report are a
    dict (or absent), it returns [True]; every row with the id keeps its
    id, its job, its resume and its start time and gets the status
    completed, the end time, the four scores and the completion rate of
    the report ([0] for a missing one), the recommendation of the report
    (No recommendation when the report has none) and the report with the
    duration added; every row with another id stays as it is and where it
    is, and so do the sequences, the questions and the answers.  It
    returns [True] also when no interview has the id, and then it changes
    nothing. *)
Theorem complete_interview_marks_completed (now : Z) (st : Store.store)
    (interview_id : Z) (report_data : gmap string value) (duration : string) :
  (forall scores, report_data !! "scores" = Some scores ->
                  exists d, scores = VDict d) ->
  Store.interview_duration
    (Store.i_start_time
       <$> head (filter (fun i => Store.i_id i = interview_id)
                        (Store.interviews_new st))) now
  = Return duration ->
  let scores := default (VDict ∅) (report_data !! "scores") in
  exists st',
    Store.complete_interview None None now st interview_id report_data
    = (true, st')
    /\ Store.questions_and_answers st' = Store.questions_and_answers st
    /\ Store.interviews_new_id_seq st' = Store.interviews_new_id_seq st
    /\ Store.interview_questions_new_id_seq st'
       = Store.interview_questions_new_id_seq st
    /\ length (Store.interviews_new st') = length (Store.interviews_new st)
    /\ (forall k i, Store.interviews_new st !! k = Some i ->
          Store.i_id i <> interview_id ->
          Store.interviews_new st' !! k = Some i)
    /\ (forall k i, Store.interviews_new st !! k = Some i ->
          Store.i_id i = interview_id ->
          exists i',
            Store.interviews_new st' !! k = Some i'
            /\ Store.i_id i' = Store.i_id i
            /\ Store.i_job_title i' = Store.i_job_title i
            /\ Store.i_job_description i' = Store.i_job_description i
            /\ Store.i_resume_text i' = Store.i_resume_text i
            /\ Store.i_start_time i' = Store.i_start_time i)
    /\ (forall i, i ∈ Store.interviews_new st' ->
          Store.i_id i = interview_id ->
          Store.i_status i = "completed"
          /\ Store.i_end_time i = Some now
          /\ Store.i_recommendation i
             = default (VStr "No recommendation")
                       (report_data !! "recommendation")
          /\ Store.i_report_data i
             = Some (<["interview_duration" := VStr duration]> report_data)
          /\ Store.scores_get scores "overall"
             = Return (Store.i_overall_score i)
          /\ Store.scores_get scores "technical"
             = Return (Store.i_technical_score i)
          /\ Store.scores_get scores "problem_solving"
             = Return (Store.i_problem_solving_score i)
          /\ Store.scores_get scores "behavioral"
             = Return (Store.i_communication_score i)
          /\ Store.i_completion_rate i
             = default (VInt 0) (report_data !! "completion_rate"))
    /\ (forall x,
          x ∈ map Store.ip_id (Store.get_in_progress_interviews None st')
          <-> x ∈ map Store.ip_id (Store.get_in_progress_interviews None st)
              /\ x <> interview_id)
    /\ (Store.interview_exists st interview_id = true ->
        interview_id
        ∈ map Store.ci_id (Store.get_completed_interviews_new None st'))
    /\ (Store.interview_exists st interview_id = false -> st' = st).
Proof.
  intros Hscores Hduration scores. unfold Store.complete_interview.
  rewrite Hduration. cbn [mbind result_bind bind].
  assert (Hget : forall key,
            exists v, Store.scores_get scores key = Return v).
  { intros key. subst scores.
    destruct (report_data !! "scores") as [sc|] eqn:Hs.
    - destruct (Hscores sc eq_refl) as (d & ->). cbn. eauto.
    - cbn. eauto. }
  fold scores.
  destruct (Hget "overall") as (overall & Hoverall).
  destruct (Hget "technical") as (technical & Htechnical).
  destruct (Hget "problem_solving") as (problem_solving & Hproblem).
  destruct (Hget "behavioral") as (communication & Hcommunication).
  rewrite Hoverall, Htechnical, Hproblem, Hcommunication.
  cbn [mbind result_bind bind].
  set (report := <["interview_duration" := VStr duration]> report_data).
  set (f := fun i : Store.interview_row =>
              if bool_decide (Store.i_id i = interview_id)
              then Store.completed_row i now overall technical
                     problem_solving communication
                     (default (VInt 0) (report !! "completion_rate"))
                     (default (VStr "No recommendation")
                              (report !! "recommendation"))
                     report
              else i).
  eexists. split; [reflexivity|]. split; [reflexivity|].
  split; [reflexivity|]. split; [reflexivity|].
  cbn [Store.interviews_new].
  assert (Hrec : report !! "recommendation"
                 = report_data !! "recommendation")
    by (apply lookup_insert_ne; discriminate).
  assert (Hrate : report !! "completion_rate"
                  = report_data !! "completion_rate")
    by (apply lookup_insert_ne; discriminate).
  assert (Hin : forall i', i' ∈ map f (Store.interviews_new st) <->
                  exists i, i ∈ Store.interviews_new st /\ i' = f i).
  { intros i'. change (map f (Store.interviews_new st))
      with (f <$> Store.interviews_new st).
    rewrite list_elem_of_fmap. split; intros (i & H1 & H2); eauto. }
  assert (Hat : forall k, map f (Store.interviews_new st) !! k
                          = f <$> Store.interviews_new st !! k).
  { intros k. change (map f (Store.interviews_new st))
      with (f <$> Store.interviews_new st).
    apply list_lookup_fmap. }
  split; [apply length_map|].
  split; [|split; [|split; [|split; [|split]]]].
  - intros k i Hk Hne. rewrite Hat, Hk. cbn. f_equal. unfold f.
    rewrite bool_decide_eq_false_2 by exact Hne. reflexivity.
  - intros k i Hk Hid. exists (f i). rewrite Hat, Hk.
    split; [reflexivity|]. unfold f.
    rewrite bool_decide_eq_true_2 by exact Hid. repeat split.
  - intros i' [i [Hi ->]]%Hin Hid. unfold f in *.
    case_bool_decide as Hd.
    + cbn. rewrite Hrec, Hrate. repeat split; assumption.
    + contradiction.
  - intros x. rewrite !in_progress_ids. cbn [Store.interviews_new]. split.
    + intros (i' & [i [Hi ->]]%Hin & Hs & Hx). unfold f in *.
      case_bool_decide as Hd; [discriminate Hs|].
      split; [eauto | congruence].
    + intros [(i & Hi & Hs & Hx) Hne]. exists i. split; [|split; assumption].
      apply Hin. exists i. split; [exact Hi|]. unfold f.
      rewrite bool_decide_eq_false_2 by congruence. reflexivity.
  - intros Hex. apply completed_ids. cbn [Store.interviews_new].
    unfold Store.interview_exists in Hex.
    apply existsb_exists in Hex as (i & Hi & Heq). apply Z.eqb_eq in Heq.
    exists (f i). split; [apply Hin; exists i; split;
                          [apply list_elem_of_In, Hi | reflexivity]|].
    unfold f. rewrite bool_decide_eq_true_2 by exact Heq.
    split; [reflexivity|exact Heq].
  - intros Hex.
    assert (Hgen : forall l,
              existsb (fun i => Store.i_id i =? interview_id) l = false ->
              map f l = l).
    { clear. induction l as [|i l IH]; [reflexivity|].
      cbn [existsb]. intros [Hi Hl]%orb_false_iff.
      cbn [map]. rewrite (IH Hl). f_equal. unfold f.
      apply Z.eqb_neq in Hi. rewrite bool_decide_eq_false_2 by exact Hi.
      reflexivity. }
    rewrite (Hgen _ Hex). destruct st; reflexivity.
Qed.

(** ** Durations *)

(** The two [divmod] of lines 330-331 of [complete_interview] and of
    [format_elapsed_time] of the interview page split a number of seconds
    into hours, minutes and seconds that add up to it, with the minutes
    and the seconds below 60 and never negative.  From one hour on the
    text of the duration leaves the seconds out, so two durations within
    the same minute read the same; below one hour the elapsed time is
    shown as minutes and seconds only. *)
Theorem duration_parts (duration_seconds : Z) :
  let '(minutes, seconds) := Store.divmod duration_seconds 60 in
  let '(hours, minutes) := Store.divmod minutes 60 in
  duration_seconds = 3600 * hours + 60 * minutes + seconds
  /\ 0 <= minutes < 60 /\ 0 <= seconds < 60
  /\ (0 <= duration_seconds <-> 0 <= hours)
  /\ (0 < hours ->
      forall other,
        other / 60 = duration_seconds / 60 ->
        Store.duration_str other = Store.duration_str duration_seconds)
  /\ (0 <= duration_seconds < 3600 ->
      Page.format_elapsed_time duration_seconds
      = pretty (duration_seconds / 60) +:+ "m "
        +:+ pretty (duration_seconds mod 60) +:+ "s").
Proof.
  unfold Store.divmod.
  pose proof (Z.div_mod duration_seconds 60 ltac:(lia)) as H1.
  pose proof (Z.mod_pos_bound duration_seconds 60 ltac:(lia)) as H2.
  pose proof (Z.div_mod (duration_seconds / 60) 60 ltac:(lia)) as H3.
  pose proof (Z.mod_pos_bound (duration_seconds / 60) 60 ltac:(lia)) as H4.
  split; [lia|]. split; [lia|]. split; [lia|]. split; [|split].
  - split; intros H.
    + apply Z.div_pos; [|lia]. apply Z.div_pos; lia.
    + lia.
  - intros Hh other Ho. unfold Store.duration_str, Store.divmod.
    rewrite Ho.
    replace (duration_seconds / 60 / 60 >? 0) with true
      by (symmetry; apply Z.gtb_lt; lia).
    reflexivity.
  - intros Hlt. unfold Page.format_elapsed_time, Store.divmod.
    assert (Hq : 0 <= duration_seconds / 60 < 60).
    { split; [apply Z.div_pos; lia | apply Z.div_lt_upper_bound; lia]. }
    rewrite (Z.div_small (duration_seconds / 60) 60) by exact Hq.
    rewrite (Z.mod_small (duration_seconds / 60) 60) by exact Hq.
    reflexivity.
Qed.

(** ** The schema update *)

Lemma create_table_lookup (name : string) (columns : list string)
    (db : Schema.schema) (t : string) :
  Schema.create_table_if_not_exists name columns db !! t
  = match db !! t with
    | Some cols => Some cols
    | None => if bool_decide (t = name) then Some columns else None
    end.
Proof.
  unfold Schema.create_table_if_not_exists.
  destruct (decide (t = name)) as [->|Hne].
  - rewrite bool_decide_eq_true_2 by reflexivity.
    destruct (db !! name) as [cols|] eqn:Hn; [rewrite Hn; reflexivity|].
    rewrite lookup_insert_eq. reflexivity.
  - rewrite bool_decide_eq_false_2 by exact Hne.
    destruct (db !! name); [destruct (db !! t); reflexivity|].
    rewrite lookup_insert_ne by congruence. destruct (db !! t); reflexivity.
Qed.

(** [update_database_schema] can be run again and again: a run that does
    not fail returns [True], keeps every table that exists with its
    columns, leaves a database on which a second run changes nothing, and
    has [interviews_new] afterwards.  It looks at [interviews_new] only
    (line 60): when that table exists the run creates nothing, so a
    database that has it but lacks one of the other two tables is left
    without that table and the run still returns [True].  A run that
    fails changes nothing and returns [False]. *)
Theorem update_database_schema_is_idempotent (db : Schema.schema) :
  exists db',
    Schema.update_database_schema None db = (true, db')
    /\ Schema.update_database_schema None db' = (true, db')
    /\ (forall t columns, db !! t = Some columns -> db' !! t = Some columns)
    /\ is_Some (db' !! "interviews_new")
    /\ (is_Some (db !! "interviews_new") -> db' = db)
    /\ (db !! "interviews_new" = None ->
        is_Some (db' !! "interview_questions_new")
        /\ is_Some (db' !! "interview_answers"))
    /\ forall e, Schema.update_database_schema (Some e) db = (false, db).
Proof.
  unfold Schema.update_database_schema, Schema.check_table_exists.
  case_bool_decide as Hex.
  - exists db. split; [reflexivity|].
    rewrite bool_decide_eq_true_2 by exact Hex.
    split; [reflexivity|]. split; [intros t columns Ht; exact Ht|].
    split; [exact Hex|]. split; [reflexivity|]. split; [|reflexivity].
    intros Hnone. rewrite Hnone in Hex. destruct Hex as [? [=]].
  - eexists. split; [reflexivity|].
    assert (Hnone : db !! "interviews_new" = None).
    { destruct (db !! "interviews_new") eqn:H; [|reflexivity].
      exfalso. apply Hex. eauto. }
    assert (Hnew : is_Some
              (Schema.create_table_if_not_exists "interview_answers"
                 Schema.interview_answers_columns
                 (Schema.create_table_if_not_exists "interview_questions_new"
                    Schema.interview_questions_new_columns
                    (Schema.create_table_if_not_exists "interviews_new"
                       Schema.interviews_new_columns db))
               !! "interviews_new")).
    { rewrite !create_table_lookup, Hnone.
      rewrite (bool_decide_eq_true_2 ("interviews_new" = "interviews_new"))
        by reflexivity. eauto. }
    rewrite bool_decide_eq_true_2 by exact Hnew.
    split; [reflexivity|]. split; [|split; [exact Hnew|split; [|split]]].
    + intros t columns Ht. rewrite !create_table_lookup, Ht. reflexivity.
    + intros Hsome. contradiction.
    + intros _. rewrite !create_table_lookup. split.
      * destruct (db !! "interview_questions_new"); eauto.
      * destruct (db !! "interview_answers"); [eauto|].
        rewrite (bool_decide_eq_false_2 ("interview_answers" = "interviews_new"))
          by discriminate.
        rewrite (bool_decide_eq_false_2
                   ("interview_answers" = "interview_questions_new"))
          by discriminate.
        rewrite (bool_decide_eq_true_2
                   ("interview_answers" = "interview_answers"))
          by reflexivity. eauto.
    + reflexivity.
Qed.

(** The table of the answers that [update_database_schema] creates has
    no column [is_skipped], which the INSERT of [save_interview_answer]
    names (as the SELECT of [get_interview_answers] does); every other
    column of the INSERT is declared. *)
Theorem created_answers_table_lacks_is_skipped (db : Schema.schema) :
  db !! "interviews_new" = None ->
  db !! "interview_answers" = None ->
  exists columns,
    snd (Schema.update_database_schema None db) !! "interview_answers"
    = Some columns
    /\ "is_skipped" ∈ Schema.insert_answer_columns
    /\ ("is_skipped" ∉ columns)
    /\ (forall c, c ∈ Schema.insert_answer_columns -> c <> "is_skipped" ->
                  c ∈ columns).
Proof.
  intros Hi Ha. unfold Schema.update_database_schema, Schema.check_table_exists.
  rewrite bool_decide_eq_false_2 by (rewrite Hi; intros [? [=]]).
  cbn [snd]. exists Schema.interview_answers_columns.
  split; [|split; [|split]].
  - rewrite !create_table_lookup, Ha. reflexivity.
  - apply (bool_decide_unpack _). vm_compute. exact I.
  - apply (bool_decide_unpack _). vm_compute. exact I.
  - intros c Hc Hne. unfold Schema.insert_answer_columns in Hc.
    rewrite !elem_of_cons, elem_of_nil in Hc.
    repeat (destruct Hc as [-> | Hc];
            [apply (bool_decide_unpack _); vm_compute; exact I|]).
    destruct Hc as [-> | []]. contradiction.
Qed.

Lemma created_answers_table_lacks_is_skipped_witness :
  exists columns,
    snd (Schema.update_database_schema None ∅) !! "interview_answers"
    = Some columns
    /\ "is_skipped" ∈ Schema.insert_answer_columns
    /\ ("is_skipped" ∉ columns)
    /\ (forall c, c ∈ Schema.insert_answer_columns -> c <> "is_skipped" ->
                  c ∈ columns).
Proof.
  apply created_answers_table_lacks_is_skipped; reflexivity.
Defined.

(** ** The completion percentage of the prompt *)

Lemma percentages_exact_up_to_40 :
  forallb (fun total =>
             forallb (fun answered =>
                        Prompt.percentage_is_exact answered total)
                     (seqZ 0 (total + 1)))
          (seqZ 0 41) = true.
Proof. vm_compute. reflexivity. Qed.

Lemma answered_questions_bounds (interview_results : list item) :
  0 <= answered_questions interview_results
  <= total_questions interview_results.
Proof.
  unfold answered_questions, total_questions.
  pose proof (length_filter (fun q => is_Some (it_answer q))
                            interview_results).
  lia.
Qed.

(** The percentage that the prompt shows, [int(completion_rate * 100)]
    computed in binary64 (line 368), is the integer part of
    100 * answered / total for every session of at most 40 questions, the
    most the setup page allows, and 0 for a session without questions. *)
Theorem prompt_percentage_is_exact (interview_results : list item) :
  total_questions interview_results <= 40 ->
  Prompt.completion_percentage interview_results
  = Some (100 * answered_questions interview_results
          / total_questions interview_results).
Proof.
  intros Hle. pose proof (answered_questions_bounds interview_results) as Hb.
  unfold Prompt.completion_percentage, completion_rate.
  fold (Prompt.percentage_of_counts (answered_questions interview_results)
                                    (total_questions interview_results)).
  set (a := answered_questions interview_results) in *.
  set (b := total_questions interview_results) in *.
  pose proof (proj1 (forallb_forall _ _) percentages_exact_up_to_40 b) as Hb40.
  cbn beta in Hb40.
  assert (Hin : In b (seqZ 0 41)) by (apply list_elem_of_In, elem_of_seqZ; lia).
  specialize (Hb40 Hin).
  pose proof (proj1 (forallb_forall _ _) Hb40 a) as Ha.
  cbn beta in Ha.
  assert (Hina : In a (seqZ 0 (b + 1)))
    by (apply list_elem_of_In, elem_of_seqZ; lia).
  specialize (Ha Hina). unfold Prompt.percentage_is_exact in Ha.
  destruct (Prompt.percentage_of_counts a b) as [p|]; [|discriminate].
  apply Z.eqb_eq in Ha. rewrite Ha. reflexivity.
Qed.

Lemma prompt_percentage_is_exact_witness :
  Prompt.completion_percentage Samples.interview_13_of_20
  = Some (100 * answered_questions Samples.interview_13_of_20
          / total_questions Samples.interview_13_of_20).
Proof.
  apply prompt_percentage_is_exact. vm_compute. discriminate.
Defined.

(** ** The older engine: which question is evaluated *)

Lemma legacy_current_question_unfold
    (questions : gmap string (list (gmap string value)))
    (question_type : string) (asked : list (gmap string value))
    (question_number : Z) :
  questions !! question_type = Some asked ->
  asked <> [] ->
  LegacySession.current_question questions question_number question_type
  = (question ← LegacySession.py_index asked
                  (Z.min question_number (Z.of_nat (length asked) - 1));
     getitem question "question").
Proof.
  intros Hq Hne. unfold LegacySession.current_question. rewrite Hq.
  destruct asked; [contradiction | reflexivity].
Qed.

(** [conduct_interview] takes the question at the index
    [min(question_number, len - 1)] (lines 182-184): a question number at
    or past the end evaluates the last question of the type, whatever the
    number; a number from 0 on within the list takes that question; a
    negative number counts from the end, and one below [-len] raises. *)
Theorem conduct_interview_question_index
    (questions : gmap string (list (gmap string value)))
    (question_type : string) (asked : list (gmap string value))
    (question_number : Z) :
  questions !! question_type = Some asked ->
  asked <> [] ->
  (Z.of_nat (length asked) - 1 <= question_number ->
   exists final,
     last asked = Some final
     /\ LegacySession.current_question questions question_number
                                       question_type
        = getitem final "question")
  /\ (0 <= question_number < Z.of_nat (length asked) ->
      exists question,
        asked !! Z.to_nat question_number = Some question
        /\ LegacySession.current_question questions question_number
                                          question_type
           = getitem question "question")
  /\ (question_number < - Z.of_nat (length asked) ->
      LegacySession.current_question questions question_number question_type
      = Raise (Exn OtherError "list index out of range")).
Proof.
  intros Hq Hne.
  rewrite (legacy_current_question_unfold questions question_type asked
             question_number Hq Hne).
  assert (Hlen : 0 < Z.of_nat (length asked))
    by (destruct asked; [contradiction | cbn [length]; lia]).
  set (n := Z.of_nat (length asked)) in *.
  assert (Hidx : forall j, 0 <= j < n ->
            exists question, asked !! Z.to_nat j = Some question
              /\ LegacySession.py_index asked j = Return question).
  { intros j Hj. unfold LegacySession.py_index. fold n. cbv zeta.
    replace (j <? 0) with false by (symmetry; apply Z.ltb_ge; lia).
    replace (0 <=? j) with true by (symmetry; apply Z.leb_le; lia).
    replace (j <? n) with true by (symmetry; apply Z.ltb_lt; lia).
    cbn [andb].
    destruct (asked !! Z.to_nat j) as [question|] eqn:Hl; [eauto|].
    apply lookup_ge_None in Hl. unfold n in Hj. lia. }
  split; [|split].
  - intros Hpast. destruct (Hidx (n - 1)) as (final & Hl & Hi); [lia|].
    exists final. split.
    + rewrite last_lookup. rewrite <- Hl. f_equal. unfold n. lia.
    + rewrite Z.min_r by lia. rewrite Hi. reflexivity.
  - intros Hin. destruct (Hidx question_number Hin) as (question & Hl & Hi).
    exists question. split; [exact Hl|].
    rewrite Z.min_l by lia. rewrite Hi. reflexivity.
  - intros Hlow. rewrite Z.min_l by lia.
    unfold LegacySession.py_index. fold n. cbv zeta.
    replace (question_number <? 0) with true
      by (symmetry; apply Z.ltb_lt; lia).
    replace (0 <=? question_number + n) with false
      by (symmetry; apply Z.leb_gt; lia).
    reflexivity.
Qed.

(** ** Instances of the properties above *)

Lemma untracked_item_changes_no_score_witness :
  scores_by_type ([Samples.scored_item "technical" Samples.f8]
                  ++ Samples.unanswered_item "technical" :: [])
  = scores_by_type ([Samples.scored_item "technical" Samples.f8] ++ [])
  /\ scores (scores_by_type ([Samples.scored_item "technical" Samples.f8]
                             ++ Samples.unanswered_item "technical" :: []))
     = scores (scores_by_type ([Samples.scored_item "technical" Samples.f8]
                               ++ []))
  /\ total_questions ([Samples.scored_item "technical" Samples.f8]
                      ++ Samples.unanswered_item "technical" :: [])
     = total_questions ([Samples.scored_item "technical" Samples.f8] ++ [])
       + 1.
Proof.
  apply untracked_item_changes_no_score. left. reflexivity.
Defined.

Lemma saved_questions_come_back_in_order_witness :
  exists st',
    Store.save_interview_questions_new (fun _ => None)
      Cases.store_one_interview 1 (Some Cases.two_questions)
    = (true, st')
    /\ Store.get_interview_questions_new None
         (Store.questions_and_answers st') 1
       = imap (fun j question =>
                 {| Store.qn_id :=
                      Store.interview_questions_new_id_seq
                        Cases.store_one_interview + 1 + Z.of_nat j;
                    Store.qn_question :=
                      default "" (Store.qd_question question);
                    Store.qn_type :=
                      default "technical" (Store.qd_type question);
                    Store.qn_order := Z.of_nat j + 1 |})
              Cases.two_questions.
Proof.
  apply saved_questions_come_back_in_order.
  - discriminate.
  - reflexivity.
  - constructor.
  - repeat constructor; unfold Saved.type_fits; cbn; lia.
Defined.

Lemma failed_save_keeps_earlier_questions_witness :
  Store.save_interview_questions_new Cases.second_insert_fails
    Cases.store_one_interview 1 (Some Cases.two_questions)
  = (false,
     Saved.add_questions Cases.store_one_interview
       (Saved.new_rows 1 0 0 [{| Store.qd_question := Some "What is an index?";
                                 Store.qd_type := Some "technical" |}]))
  /\ length (Database.interview_questions_new
               (Store.questions_and_answers
                  (Saved.add_questions Cases.store_one_interview
                     (Saved.new_rows 1 0 0
                        [{| Store.qd_question := Some "What is an index?";
                            Store.qd_type := Some "technical" |}]))))
     = 1%nat.
Proof.
  apply (failed_save_keeps_earlier_questions Cases.second_insert_fails
           Cases.store_one_interview 1
           [{| Store.qd_question := Some "What is an index?";
               Store.qd_type := Some "technical" |}]
           []
           {| Store.qd_question := Some "Tell me about a conflict.";
              Store.qd_type := None |}
           Samples.connection_error).
  - reflexivity.
  - repeat constructor; unfold Saved.type_fits; cbn; lia.
  - intros j Hj. cbn [length] in Hj.
    assert (j = 0%nat) as -> by lia. reflexivity.
  - reflexivity.
Defined.

Lemma saved_answer_advances_session_witness :
  exists answer_id tables' before after shown,
    Database.save_interview_answer None Cases.db_two_questions 8
                                   Cases.graded_answer
    = (Some answer_id, tables')
    /\ Store.get_interview_answers Cases.no_json Cases.parsed None
         Cases.db_two_questions 1
       = before
         ++ Store.question_with_answer Cases.no_json Cases.parsed
              (Cases.question_8, None) :: after
    /\ Store.get_interview_answers Cases.no_json Cases.parsed None tables' 1
       = before
         ++ {| Store.qa_id := 8;
               Store.qa_question := "Tell me about a conflict.";
               Store.qa_type := "behavioral";
               Store.qa_order := 2;
               Store.qa_answer := Some shown |} :: after
    /\ Store.av_id shown = answer_id
    /\ Store.av_text shown = "We talked it through."
    /\ Store.av_skipped shown = false
    /\ Page.answered_questions
         (Store.get_interview_answers Cases.no_json Cases.parsed None
            tables' 1)
       = Page.answered_questions
           (Store.get_interview_answers Cases.no_json Cases.parsed None
              Cases.db_two_questions 1)
         + 1
    /\ Page.current_question
         (Store.get_interview_answers Cases.no_json Cases.parsed None
            tables' 1)
       = Page.current_question after.
Proof.
  apply (saved_answer_advances_session Cases.no_json Cases.parsed
           Cases.db_two_questions 1
           (Store.question_with_answer Cases.no_json Cases.parsed
              (Cases.question_8, None))
           Cases.graded_answer).
  - apply (bool_decide_unpack _). vm_compute. exact I.
  - repeat constructor. discriminate.
  - reflexivity.
  - discriminate.
Defined.

Lemma stored_strengths_are_read_back_empty_witness :
  exists answer_id tables' row shown,
    Database.save_interview_answer None Cases.db_two_questions 8
                                   Cases.graded_answer
    = (Some answer_id, tables')
    /\ Database.interview_answers tables'
       = Database.interview_answers Cases.db_two_questions ++ [row]
    /\ Database.a_strengths row = VList [VStr "Concrete"]
    /\ Database.a_weaknesses row = VList [VStr "Brief"]
    /\ Store.answer_of_row Cases.no_json Cases.parsed (Some row) = Some shown
    /\ Store.av_evaluation shown !! "strengths" = Some (VList [])
    /\ Store.av_evaluation shown !! "weaknesses" = Some (VList [])
    /\ Store.av_evaluation shown !! "score"
       = Some (default (VInt 0) (Cases.graded_evaluation !! "score"))
    /\ Store.av_text shown
       = default "" (Database.ad_answer_text Cases.graded_answer).
Proof.
  apply (stored_strengths_are_read_back_empty Cases.no_json Cases.parsed
           Cases.db_two_questions 8 Cases.graded_answer
           Cases.graded_evaluation [VStr "Concrete"] [VStr "Brief"]).
  - reflexivity.
  - reflexivity.
  - discriminate.
  - reflexivity.
  - reflexivity.
  - reflexivity.
Defined.

Lemma answer_ids_stay_fresh_witness :
  Store.answer_ids_fresh
    (snd (Database.save_interview_answer None Cases.db_two_questions 8
            Cases.graded_answer))
  /\ forall answer_id,
       fst (Database.save_interview_answer None Cases.db_two_questions 8
              Cases.graded_answer) = Some answer_id ->
       answer_id
       ∉ map Database.a_id (Database.interview_answers Cases.db_two_questions).
Proof.
  apply answer_ids_stay_fresh. split.
  - apply (bool_decide_unpack _). vm_compute. exact I.
  - repeat constructor. cbn. lia.
Defined.

Lemma second_answer_adds_an_entry_witness :
  exists answer_id tables',
    Database.save_interview_answer None Cases.db_two_questions
      (Database.q_id
         {| Database.q_id := 7;
            Database.q_interview_id := 1;
            Database.q_question_text := "Describe a design you are proud of.";
            Database.q_question_type := "technical";
            Database.q_display_order := 1 |})
      Samples.second_answer
    = (Some answer_id, tables')
    /\ Page.total_questions
         (Store.get_interview_answers Cases.no_json Cases.parsed None
            tables' 1)
       = Page.total_questions
           (Store.get_interview_answers Cases.no_json Cases.parsed None
              Cases.db_two_questions 1)
         + 1.
Proof.
  apply second_answer_adds_an_entry.
  - apply (bool_decide_unpack _). vm_compute. exact I.
  - left.
  - reflexivity.
  - discriminate.
Defined.

Lemma complete_interview_marks_completed_witness :
  exists st',
    Store.complete_interview None None 125000000 Cases.store_two_interviews
                             1 Cases.report_hire
    = (true, st')
    /\ Store.questions_and_answers st'
       = Store.questions_and_answers Cases.store_two_interviews
    /\ Store.interviews_new_id_seq st'
       = Store.interviews_new_id_seq Cases.store_two_interviews
    /\ Store.interview_questions_new_id_seq st'
       = Store.interview_questions_new_id_seq Cases.store_two_interviews
    /\ length (Store.interviews_new st')
       = length (Store.interviews_new Cases.store_two_interviews)
    /\ (forall k i,
          Store.interviews_new Cases.store_two_interviews !! k = Some i ->
          Store.i_id i <> 1 ->
          Store.interviews_new st' !! k = Some i)
    /\ (forall k i,
          Store.interviews_new Cases.store_two_interviews !! k = Some i ->
          Store.i_id i = 1 ->
          exists i',
            Store.interviews_new st' !! k = Some i'
            /\ Store.i_id i' = Store.i_id i
            /\ Store.i_job_title i' = Store.i_job_title i
            /\ Store.i_job_description i' = Store.i_job_description i
            /\ Store.i_resume_text i' = Store.i_resume_text i
            /\ Store.i_start_time i' = Store.i_start_time i)
    /\ (forall i, i ∈ Store.interviews_new st' ->
          Store.i_id i = 1 ->
          Store.i_status i = "completed"
          /\ Store.i_end_time i = Some 125000000
          /\ Store.i_recommendation i
             = default (VStr "No recommendation")
                       (Cases.report_hire !! "recommendation")
          /\ Store.i_report_data i
             = Some (<["interview_duration" := VStr "2 minutes 5 seconds"]>
                       Cases.report_hire)
          /\ Store.scores_get
               (default (VDict ∅) (Cases.report_hire !! "scores")) "overall"
             = Return (Store.i_overall_score i)
          /\ Store.scores_get
               (default (VDict ∅) (Cases.report_hire !! "scores"))
               "technical"
             = Return (Store.i_technical_score i)
          /\ Store.scores_get
               (default (VDict ∅) (Cases.report_hire !! "scores"))
               "problem_solving"
             = Return (Store.i_problem_solving_score i)
          /\ Store.scores_get
               (default (VDict ∅) (Cases.report_hire !! "scores"))
               "behavioral"
             = Return (Store.i_communication_score i)
          /\ Store.i_completion_rate i
             = default (VInt 0) (Cases.report_hire !! "completion_rate"))
    /\ (forall x,
          x ∈ map Store.ip_id (Store.get_in_progress_interviews None st')
          <-> x ∈ map Store.ip_id
                    (Store.get_in_progress_interviews None
                       Cases.store_two_interviews)
              /\ x <> 1)
    /\ (Store.interview_exists Cases.store_two_interviews 1 = true ->
        1 ∈ map Store.ci_id (Store.get_completed_interviews_new None st'))
    /\ (Store.interview_exists Cases.store_two_interviews 1 = false ->
        st' = Cases.store_two_interviews).
Proof.
  apply complete_interview_marks_completed.
  - intros scores Hs. vm_compute in Hs. injection Hs as <-. eauto.
  - vm_compute. reflexivity.
Defined.

Lemma conduct_interview_question_index_witness :
  (Z.of_nat (length Cases.legacy_asked) - 1 <= 5 ->
   exists final,
     last Cases.legacy_asked = Some final
     /\ LegacySession.current_question Cases.legacy_questions 5 "technical"
        = getitem final "question")
  /\ (0 <= 5 < Z.of_nat (length Cases.legacy_asked) ->
      exists question,
        Cases.legacy_asked !! Z.to_nat 5 = Some question
        /\ LegacySession.current_question Cases.legacy_questions 5
                                          "technical"
           = getitem question "question")
  /\ (5 < - Z.of_nat (length Cases.legacy_asked) ->
      LegacySession.current_question Cases.legacy_questions 5 "technical"
      = Raise (Exn OtherError "list index out of range")).
Proof.
  apply conduct_interview_question_index; [reflexivity | discriminate].
Defined.
